(** * tview's Table widget (table.go): cell store, paint-time layout and
      keyboard navigation, embedded from the Go source.

    Conventions of the embedding.
    - Go's [int] is the 64-bit two's-complement integer of the usual targets
      (amd64, arm64): a [Z] in [[int_min, int_max]], every arithmetic result
      passed through [wrap].  [/] truncates towards zero ([Z.quot]).
    - A [*TableCell] is an [option TableCell]; [None] is the nil pointer.
      Cells are compared by value; pointer identity plays no role below.
    - A run-time panic (index out of range, nil dereference, a slice length
      the runtime refuses) is the result [Panic].  The runtime refuses a
      slice of more than [maxAlloc] bytes ("len out of range"); a request it
      accepts is taken to be served, running out of memory being a fatal
      error of the process rather than a panic of this code.
    - The terminal surface, [Box], [Print] and [log] are external
      collaborators: [Draw] receives the inner rectangle's width and height
      as arguments and what it writes to the screen is not represented. *)

From stdpp Require Import base numbers list strings.

Open Scope Z_scope.

(** ** Go integers *)

Definition int_min : Z := -9223372036854775808.
Definition int_max : Z := 9223372036854775807.

Definition wrap (z : Z) : Z :=
  (z + 9223372036854775808) `mod` 18446744073709551616 - 9223372036854775808.

Definition in_int (z : Z) : Prop := int_min <= z <= int_max.

(** ** Results of code that may panic *)

Inductive result (A : Type) : Type :=
| Ok (a : A)
| Panic
| OutOfFuel.
Arguments Ok {A} a.
Arguments Panic {A}.
Arguments OutOfFuel {A}.

Definition bind {A B : Type} (r : result A) (k : A -> result B) : result B :=
  match r with
  | Ok a => k a
  | Panic => Panic
  | OutOfFuel => OutOfFuel
  end.

Notation "x <- r ;; k" := (bind r (fun x => k))
  (at level 100, r at next level, right associativity).

(** ** Go slices *)

(** The most bytes one allocation may take on the usual 64-bit targets
    ([runtime.maxAlloc], 2^48 on amd64 and arm64), and the sizes of the two
    kinds of slice element the table stores: a row (a slice header) and a
    cell pointer. *)
Definition maxAlloc : Z := 281474976710656.
Definition sliceSize : Z := 24.
Definition ptrSize : Z := 8.

Section Slice.
Context {A : Type}.

Definition len (l : list A) : Z := Z.of_nat (length l).

(** [l[i]]: panics outside [0 <= i < len(l)]. *)
Definition index (l : list A) (i : Z) : result A :=
  if i <? 0 then Panic
  else match l !! Z.to_nat i with
       | Some x => Ok x
       | None => Panic
       end.

(** [l[i] = x]: panics outside [0 <= i < len(l)]. *)
Definition store (l : list A) (i : Z) (x : A) : result (list A) :=
  if i <? 0 then Panic
  else if i <? len l then Ok (<[Z.to_nat i := x]> l)
  else Panic.

(** [make([]A, n)] with zero value [z] and elements of [size] bytes: panics
    when [n] is negative or the slice would take more than [maxAlloc]
    bytes. *)
Definition make (size : Z) (z : A) (n : Z) : result (list A) :=
  if n <? 0 then Panic
  else if maxAlloc <? size * n then Panic
  else Ok (replicate (Z.to_nat n) z).

(** [append(l, l'...)]: panics when the resulting slice would take more
    than [maxAlloc] bytes.  (The runtime tests the capacity it picks, which
    is at least the resulting length; a slice it handed out is within the
    bound, so the test also covers an append that does not reallocate.) *)
Definition append (size : Z) (l l' : list A) : result (list A) :=
  if maxAlloc <? size * (len l + len l') then Panic else Ok (l ++ l').

(** [append(l[:i], l[i+1:]...)] for [0 <= i < len(l)]. *)
Definition remove_at (l : list A) (i : Z) : result (list A) :=
  if i <? 0 then Panic
  else if i <? len l then Ok (take (Z.to_nat i) l ++ drop (S (Z.to_nat i)) l)
  else Panic.
End Slice.

(** ** The data model *)

Record TableCell : Type := mkCell {
  Text : string;
  Align : Z;
  MaxWidth : Z;
  Color : Z;
  Selectable : bool
}.

(** [&TableCell{}] *)
Definition zeroCell : TableCell := mkCell "" 0 0 0 false.

(** A Go function value held in a callback field, known by a name only. *)
Definition handler : Type := nat.

Record Table : Type := mkTable {
  borders : bool;
  bordersColor : Z;
  separator : Z;
  cells : list (list (option TableCell));
  lastColumn : Z;
  fixedRows : Z;
  fixedColumns : Z;
  rowsSelectable : bool;
  columnsSelectable : bool;
  selectedRow : Z;
  selectedColumn : Z;
  rowOffset : Z;
  columnOffset : Z;
  trackEnd : bool;
  visibleRows : Z;
  selected : option handler;
  done : option handler
}.

(** Field updates. *)
Definition with_borders (v : bool) (t : Table) : Table :=
  mkTable v (bordersColor t) (separator t) (cells t) (lastColumn t)
    (fixedRows t) (fixedColumns t) (rowsSelectable t) (columnsSelectable t)
    (selectedRow t) (selectedColumn t) (rowOffset t) (columnOffset t)
    (trackEnd t) (visibleRows t) (selected t) (done t).
Definition with_bordersColor (v : Z) (t : Table) : Table :=
  mkTable (borders t) v (separator t) (cells t) (lastColumn t)
    (fixedRows t) (fixedColumns t) (rowsSelectable t) (columnsSelectable t)
    (selectedRow t) (selectedColumn t) (rowOffset t) (columnOffset t)
    (trackEnd t) (visibleRows t) (selected t) (done t).
Definition with_separator (v : Z) (t : Table) : Table :=
  mkTable (borders t) (bordersColor t) v (cells t) (lastColumn t)
    (fixedRows t) (fixedColumns t) (rowsSelectable t) (columnsSelectable t)
    (selectedRow t) (selectedColumn t) (rowOffset t) (columnOffset t)
    (trackEnd t) (visibleRows t) (selected t) (done t).
Definition with_cells (v : list (list (option TableCell))) (t : Table) : Table :=
  mkTable (borders t) (bordersColor t) (separator t) v (lastColumn t)
    (fixedRows t) (fixedColumns t) (rowsSelectable t) (columnsSelectable t)
    (selectedRow t) (selectedColumn t) (rowOffset t) (columnOffset t)
    (trackEnd t) (visibleRows t) (selected t) (done t).
Definition with_lastColumn (v : Z) (t : Table) : Table :=
  mkTable (borders t) (bordersColor t) (separator t) (cells t) v
    (fixedRows t) (fixedColumns t) (rowsSelectable t) (columnsSelectable t)
    (selectedRow t) (selectedColumn t) (rowOffset t) (columnOffset t)
    (trackEnd t) (visibleRows t) (selected t) (done t).
Definition with_fixed (r c : Z) (t : Table) : Table :=
  mkTable (borders t) (bordersColor t) (separator t) (cells t) (lastColumn t)
    r c (rowsSelectable t) (columnsSelectable t)
    (selectedRow t) (selectedColumn t) (rowOffset t) (columnOffset t)
    (trackEnd t) (visibleRows t) (selected t) (done t).
Definition with_selectable (r c : bool) (t : Table) : Table :=
  mkTable (borders t) (bordersColor t) (separator t) (cells t) (lastColumn t)
    (fixedRows t) (fixedColumns t) r c
    (selectedRow t) (selectedColumn t) (rowOffset t) (columnOffset t)
    (trackEnd t) (visibleRows t) (selected t) (done t).
Definition with_selectedRow (v : Z) (t : Table) : Table :=
  mkTable (borders t) (bordersColor t) (separator t) (cells t) (lastColumn t)
    (fixedRows t) (fixedColumns t) (rowsSelectable t) (columnsSelectable t)
    v (selectedColumn t) (rowOffset t) (columnOffset t)
    (trackEnd t) (visibleRows t) (selected t) (done t).
Definition with_selectedColumn (v : Z) (t : Table) : Table :=
  mkTable (borders t) (bordersColor t) (separator t) (cells t) (lastColumn t)
    (fixedRows t) (fixedColumns t) (rowsSelectable t) (columnsSelectable t)
    (selectedRow t) v (rowOffset t) (columnOffset t)
    (trackEnd t) (visibleRows t) (selected t) (done t).
Definition with_rowOffset (v : Z) (t : Table) : Table :=
  mkTable (borders t) (bordersColor t) (separator t) (cells t) (lastColumn t)
    (fixedRows t) (fixedColumns t) (rowsSelectable t) (columnsSelectable t)
    (selectedRow t) (selectedColumn t) v (columnOffset t)
    (trackEnd t) (visibleRows t) (selected t) (done t).
Definition with_columnOffset (v : Z) (t : Table) : Table :=
  mkTable (borders t) (bordersColor t) (separator t) (cells t) (lastColumn t)
    (fixedRows t) (fixedColumns t) (rowsSelectable t) (columnsSelectable t)
    (selectedRow t) (selectedColumn t) (rowOffset t) v
    (trackEnd t) (visibleRows t) (selected t) (done t).
Definition with_trackEnd (v : bool) (t : Table) : Table :=
  mkTable (borders t) (bordersColor t) (separator t) (cells t) (lastColumn t)
    (fixedRows t) (fixedColumns t) (rowsSelectable t) (columnsSelectable t)
    (selectedRow t) (selectedColumn t) (rowOffset t) (columnOffset t)
    v (visibleRows t) (selected t) (done t).
Definition with_visibleRows (v : Z) (t : Table) : Table :=
  mkTable (borders t) (bordersColor t) (separator t) (cells t) (lastColumn t)
    (fixedRows t) (fixedColumns t) (rowsSelectable t) (columnsSelectable t)
    (selectedRow t) (selectedColumn t) (rowOffset t) (columnOffset t)
    (trackEnd t) v (selected t) (done t).
Definition with_selected (v : option handler) (t : Table) : Table :=
  mkTable (borders t) (bordersColor t) (separator t) (cells t) (lastColumn t)
    (fixedRows t) (fixedColumns t) (rowsSelectable t) (columnsSelectable t)
    (selectedRow t) (selectedColumn t) (rowOffset t) (columnOffset t)
    (trackEnd t) (visibleRows t) v (done t).
Definition with_done (v : option handler) (t : Table) : Table :=
  mkTable (borders t) (bordersColor t) (separator t) (cells t) (lastColumn t)
    (fixedRows t) (fixedColumns t) (rowsSelectable t) (columnsSelectable t)
    (selectedRow t) (selectedColumn t) (rowOffset t) (columnOffset t)
    (trackEnd t) (visibleRows t) (selected t) v.

(** ** Construction and configuration *)

(** [tcell.ColorWhite] and the rune [' ']. *)
Definition ColorWhite : Z := 15.
Definition space : Z := 32.

Definition NewTable : Table :=
  mkTable false ColorWhite space [] (-1) 0 0 false false 0 0 0 0 true 0
    None None.

Definition Clear (t : Table) : Table :=
  with_lastColumn (-1) (with_cells [] t).

Definition SetBorders (t : Table) (show : bool) : Table := with_borders show t.
Definition SetBordersColor (t : Table) (color : Z) : Table :=
  with_bordersColor color t.
Definition SetSeparator (t : Table) (sep : Z) : Table := with_separator sep t.
Definition SetFixed (t : Table) (rows columns : Z) : Table :=
  with_fixed rows columns t.
Definition SetSelectable (t : Table) (rows columns : bool) : Table :=
  with_selectable rows columns t.
Definition SetSelected (t : Table) (row column : Z) : Table :=
  with_selectedColumn column (with_selectedRow row t).
Definition SetOffset (t : Table) (row column : Z) : Table :=
  with_columnOffset column (with_rowOffset row t).
Definition SetSelectedFunc (t : Table) (h : option handler) : Table :=
  with_selected h t.
Definition SetDoneFunc (t : Table) (h : option handler) : Table :=
  with_done h t.

(** ** The cell store *)

(** [for c := rowLen; c < column; c++ { t.cells[row][c] = &TableCell{} }],
    [n] iterations starting at [c]. *)
Fixpoint fill_defaults (n : nat) (c : Z) (r : list (option TableCell))
  : list (option TableCell) :=
  match n with
  | O => r
  | S k => fill_defaults k (c + 1) (<[Z.to_nat c := Some zeroCell]> r)
  end.

Definition SetCell (t : Table) (row column : Z) (cell : option TableCell)
  : result Table :=
  cells1 <- (if len (cells t) <=? row then
               fresh <- make sliceSize []
                          (wrap (wrap (row - len (cells t)) + 1)) ;;
               append sliceSize (cells t) fresh
             else Ok (cells t)) ;;
  r <- index cells1 row ;;
  let rowLen := len r in
  r1 <- (if rowLen <=? column then
           fresh <- make ptrSize None (wrap (wrap (column - rowLen) + 1)) ;;
           r' <- append ptrSize r fresh ;;
           Ok (fill_defaults (Z.to_nat (column - rowLen)) rowLen r')
         else Ok r) ;;
  r2 <- store r1 column cell ;;
  cells2 <- store cells1 row r2 ;;
  Ok (with_lastColumn
        (if lastColumn t <? column then column else lastColumn t)
        (with_cells cells2 t)).

Definition GetCell (t : Table) (row column : Z) : result (option TableCell) :=
  if len (cells t) <=? row then Ok (Some zeroCell)
  else
    r <- index (cells t) row ;;
    if len r <=? column then Ok (Some zeroCell)
    else index r column.

(** ** Paint: row offsets *)

(** The closure [getCell] of [Draw]: nil where no cell is stored. *)
Definition getCell (t : Table) (row column : Z) : result (option TableCell) :=
  if len (cells t) <=? row then Ok None
  else
    r <- index (cells t) row ;;
    if len r <=? column then Ok None
    else index r column.

(** Rows a viewport of the given height shows in full: [t.visibleRows]. *)
Definition capacity (t : Table) (height : Z) : Z :=
  if borders t then height `quot` 2 else height.

(** [if t.selectedRow >= t.fixedRows && t.selectedRow < t.fixedRows+t.rowOffset] *)
Definition selectionAbove (t : Table) : Table :=
  if (fixedRows t <=? selectedRow t)
     && (selectedRow t <? wrap (fixedRows t + rowOffset t))
  then with_trackEnd false
         (with_rowOffset (wrap (selectedRow t - fixedRows t)) t)
  else t.

(** [if t.borders { if 2*(t.selectedRow+1-t.rowOffset) >= height ... }
     else { if t.selectedRow+1-t.rowOffset >= height ... }] *)
Definition selectionBelow (t : Table) (height : Z) : Table :=
  if borders t then
    if height <=? wrap (2 * wrap (wrap (selectedRow t + 1) - rowOffset t))
    then with_trackEnd false
           (with_rowOffset (wrap (wrap (selectedRow t + 1) - height `quot` 2)) t)
    else t
  else
    if height <=? wrap (wrap (selectedRow t + 1) - rowOffset t)
    then with_trackEnd false
           (with_rowOffset (wrap (wrap (selectedRow t + 1) - height)) t)
    else t.

(** [if t.rowsSelectable { ... }] around the two steps above. *)
Definition followSelection (t : Table) (height : Z) : Table :=
  if rowsSelectable t then selectionBelow (selectionAbove t) height else t.

(** [if 2*(len(t.cells)-t.rowOffset) < height { t.trackEnd = true }] and its
    borderless twin. *)
Definition fitTrackEnd (t : Table) (height : Z) : Table :=
  if borders t then
    if wrap (2 * wrap (len (cells t) - rowOffset t)) <? height
    then with_trackEnd true t else t
  else
    if wrap (len (cells t) - rowOffset t) <? height
    then with_trackEnd true t else t.

(** [if t.trackEnd { t.rowOffset = len(t.cells) - height(/2) }] *)
Definition applyTrackEnd (t : Table) (height : Z) : Table :=
  if trackEnd t then
    if borders t
    then with_rowOffset (wrap (len (cells t) - height `quot` 2)) t
    else with_rowOffset (wrap (len (cells t) - height)) t
  else t.

(** [if t.rowOffset < 0 { t.rowOffset = 0 }] *)
Definition nonNegativeRowOffset (t : Table) : Table :=
  if rowOffset t <? 0 then with_rowOffset 0 t else t.

(** "Clamp row offsets." *)
Definition clampRowOffset (t : Table) (height : Z) : Table :=
  nonNegativeRowOffset
    (applyTrackEnd (fitTrackEnd (followSelection t height) height) height).

(** "Clamp column offset. (Only left side here. ...)" *)
Definition clampColumnOffset (t : Table) : Table :=
  let t :=
    if columnsSelectable t
       && (fixedColumns t <=? selectedColumn t)
       && (selectedColumn t <? wrap (fixedColumns t + columnOffset t))
    then with_columnOffset (wrap (selectedColumn t - fixedColumns t)) t
    else t in
  let t := if columnOffset t <? 0 then with_columnOffset 0 t else t in
  if selectedColumn t <? 0 then with_selectedColumn 0 t else t.

(** ** Paint: visible rows *)

Record rowScan : Type := mkRowScan {
  rows : list Z;
  tableHeight : Z
}.

(** The closure [indexRow]; [None] is its [false]. *)
Definition indexRow (height rowStep row : Z) (rs : rowScan) : option rowScan :=
  if height <=? tableHeight rs then None
  else Some (mkRowScan (rows rs ++ [row]) (wrap (tableHeight rs + rowStep))).

(** [for row := ...; row++ { if !indexRow(row) { break } }] over the rows the
    loop header admits, in order. *)
Fixpoint indexRows (height rowStep : Z) (candidates : list Z) (rs : rowScan)
  : rowScan :=
  match candidates with
  | [] => rs
  | row :: rest =>
      match indexRow height rowStep row rs with
      | Some rs' => indexRows height rowStep rest rs'
      | None => rs
      end
  end.

(** The integers [from], [from+1], ... below [to]: the values a counting
    [for] loop gives its variable. *)
Definition upTo (from to : Z) : list Z := seqZ from (to - from).

Definition visibleRowList (t : Table) (height : Z) : list Z :=
  let rowStep := if borders t then 2 else 1 in
  let rs := indexRows height rowStep
              (upTo 0 (Z.min (fixedRows t) (len (cells t))))
              (mkRowScan [] 0) in
  let rs := indexRows height rowStep
              (upTo (wrap (fixedRows t + rowOffset t)) (len (cells t)))
              rs in
  rows rs.

(** ** Paint: visible columns *)

Record scan : Type := mkScan {
  columns : list Z;
  widths : list Z;
  tableWidth : Z;
  lastTableWidth : Z;
  skipped : Z;
  (** Not a variable of the source: the indices of the columns the scan has
      removed from [columns], oldest first. *)
  evicted : list Z
}.

Inductive flow : Type :=
| Next (s : scan)              (* the inner loop is left, the column is measured *)
| BreakColumnLoop (s : scan).  (* [break ColumnLoop] *)

(** [for tableWidth-1 >= width { ... }]; every pass that does not leave the
    loop shortens [columns] by one, which bounds the fuel needed. *)
Fixpoint evictLoop (fuel : nat) (t : Table) (width column : Z) (s : scan)
  : result flow :=
  if width <=? wrap (tableWidth s - 1) then
    if column <? fixedColumns t then Ok (BreakColumnLoop s)
    else if negb (columnsSelectable t) && (columnOffset t <=? skipped s)
    then Ok (BreakColumnLoop s)
    else if columnsSelectable t
            && (wrap (selectedColumn t - skipped s) =? fixedColumns t)
    then Ok (BreakColumnLoop s)
    else if columnsSelectable t && (columnOffset t <=? skipped s)
            && ((selectedColumn t <? column)
                && (lastTableWidth s <? wrap (width - 1))
                || (selectedColumn t <? wrap (column - 1)))
    then Ok (BreakColumnLoop s)
    else if len (columns s) <=? fixedColumns t then Ok (Next s)
    else
      w <- index (widths s) (fixedColumns t) ;;
      columns' <- remove_at (columns s) (fixedColumns t) ;;
      widths' <- remove_at (widths s) (fixedColumns t) ;;
      gone <- index (columns s) (fixedColumns t) ;;
      let s' := mkScan columns' widths'
                  (wrap (tableWidth s - wrap (w + 1)))
                  (wrap (lastTableWidth s - wrap (w + 1)))
                  (wrap (skipped s + 1))
                  (evicted s ++ [gone]) in
      match fuel with
      | O => OutOfFuel
      | S k => evictLoop k t width column s'
      end
  else Ok (Next s).

(** [len(cell.Text)] capped by [cell.MaxWidth] when that is set. *)
Definition cellWidth (c : TableCell) : Z :=
  let w := Z.of_nat (String.length (Text c)) in
  if (0 <? MaxWidth c) && (MaxWidth c <? w) then MaxWidth c else w.

(** [for _, row := range rows { ... }] computing [maxWidth]. *)
Fixpoint columnWidth (t : Table) (column : Z) (rs : list Z) (maxWidth : Z)
  : result Z :=
  match rs with
  | [] => Ok maxWidth
  | row :: rest =>
      cell <- getCell t row column ;;
      columnWidth t column rest
        match cell with
        | Some c => if maxWidth <? cellWidth c then cellWidth c else maxWidth
        | None => maxWidth
        end
  end.

(** [ColumnLoop: for column := 0; column <= t.lastColumn; column++]. *)
Fixpoint columnLoop (t : Table) (width : Z) (rs : list Z)
    (candidates : list Z) (s : scan) : result scan :=
  match candidates with
  | [] => Ok s
  | column :: rest =>
      f <- evictLoop (length (columns s)) t width column s ;;
      match f with
      | BreakColumnLoop s' => Ok s'
      | Next s' =>
          maxWidth <- columnWidth t column rs (-1) ;;
          if maxWidth <? 0 then Ok s'
          else columnLoop t width rs rest
                 (mkScan (columns s' ++ [column]) (widths s' ++ [maxWidth])
                    (wrap (tableWidth s' + wrap (maxWidth + 1)))
                    (tableWidth s')
                    (skipped s') (evicted s'))
      end
  end.

Definition scanColumns (t : Table) (width : Z) (rs : list Z) : result scan :=
  columnLoop t width rs (upTo 0 (lastColumn t + 1))
    (mkScan [] [] (if borders t then 1 else 0) 0 0 []).

(** ** Paint *)

(** What the layout half of [Draw] hands to the drawing half. *)
Record viewport : Type := mkViewport {
  vTable : Table;
  vRows : list Z;
  vScan : scan
}.

(** [Draw] up to and including [t.columnOffset = skipped]. *)
Definition layout (t : Table) (width height : Z) : result viewport :=
  let t := with_visibleRows (capacity t height) t in
  let t := clampRowOffset t height in
  let t := clampColumnOffset t in
  let rs := visibleRowList t height in
  s <- scanColumns t width rs ;;
  Ok (mkViewport (with_columnOffset (skipped s) t) rs s).

(** The inner loop of "Draw the cells (and borders)": for a bordered table
    the loop is left when there is no line for the text; otherwise the cell
    is fetched and its [Color] read, which panics on nil. *)
Fixpoint drawColumn (t : Table) (height column rowY : Z) (rs : list Z)
  : result unit :=
  match rs with
  | [] => Ok tt
  | row :: rest =>
      if borders t && (height <=? 2 * rowY + 1) then Ok tt
      else
        cell <- getCell t row column ;;
        match cell with
        | None => Panic
        | Some _ => drawColumn t height column (rowY + 1) rest
        end
  end.

Fixpoint drawCells (t : Table) (height : Z) (rs cols : list Z) : result unit :=
  match cols with
  | [] => Ok tt
  | column :: rest =>
      _ <- drawColumn t height column 0 rs ;;
      drawCells t height rs rest
  end.

(** The rows of [rs] whose cells that loop paints: all of them without
    borders; with borders those before the [break], which have a line for
    their text. *)
Fixpoint paintedRows (t : Table) (height rowY : Z) (rs : list Z) : list Z :=
  match rs with
  | [] => []
  | row :: rest =>
      if borders t && (height <=? 2 * rowY + 1) then []
      else row :: paintedRows t height (rowY + 1) rest
  end.

Definition Draw (t : Table) (width height : Z) : result Table :=
  v <- layout t width height ;;
  _ <- drawCells (vTable v) height (vRows v) (columns (vScan v)) ;;
  Ok (vTable v).

(** ** Keyboard input *)

Inductive Key : Type :=
| KeyRune | KeyHome | KeyEnd | KeyUp | KeyDown | KeyLeft | KeyRight
| KeyPgDn | KeyPgUp | KeyCtrlF | KeyCtrlB | KeyEnter
| KeyEscape | KeyTab | KeyBacktab
| KeyOther (code : Z).

Record EventKey : Type := mkEvent {
  evKey : Key;
  evRune : Z
}.

(** A callback invocation made while an event is handled. *)
Inductive call : Type :=
| CallDone (h : handler) (key : Key)
| CallSelected (h : handler) (row column : Z).

Definition home (t : Table) : Table :=
  if rowsSelectable t then with_selectedColumn 0 (with_selectedRow 0 t)
  else with_columnOffset 0 (with_rowOffset 0 (with_trackEnd false t)).

Definition end_ (t : Table) : Table :=
  if rowsSelectable t
  then with_selectedColumn (lastColumn t)
         (with_selectedRow (wrap (len (cells t) - 1)) t)
  else with_columnOffset 0 (with_trackEnd true t).

Definition down (t : Table) : Table :=
  if rowsSelectable t then
    let t := with_selectedRow (wrap (selectedRow t + 1)) t in
    if len (cells t) <=? selectedRow t
    then with_selectedRow (wrap (len (cells t) - 1)) t else t
  else with_rowOffset (wrap (rowOffset t + 1)) t.

Definition up (t : Table) : Table :=
  if rowsSelectable t then
    let t := with_selectedRow (wrap (selectedRow t - 1)) t in
    if selectedRow t <? 0 then with_selectedRow 0 t else t
  else with_rowOffset (wrap (rowOffset t - 1)) (with_trackEnd false t).

Definition left (t : Table) : Table :=
  if columnsSelectable t then
    let t := with_selectedColumn (wrap (selectedColumn t - 1)) t in
    if selectedColumn t <? 0 then with_selectedColumn 0 t else t
  else with_columnOffset (wrap (columnOffset t - 1)) t.

Definition right (t : Table) : Table :=
  if columnsSelectable t then
    let t := with_selectedColumn (wrap (selectedColumn t + 1)) t in
    if lastColumn t <? selectedColumn t
    then with_selectedColumn (lastColumn t) t else t
  else with_columnOffset (wrap (columnOffset t + 1)) t.

Definition pageDown (t : Table) : Table :=
  if rowsSelectable t then
    let t := with_selectedRow (wrap (selectedRow t + visibleRows t)) t in
    if len (cells t) <=? selectedRow t
    then with_selectedRow (wrap (len (cells t) - 1)) t else t
  else with_rowOffset (wrap (rowOffset t + visibleRows t)) t.

Definition pageUp (t : Table) : Table :=
  if rowsSelectable t then
    let t := with_selectedRow (wrap (selectedRow t - visibleRows t)) t in
    if selectedRow t <? 0 then with_selectedRow 0 t else t
  else with_rowOffset (wrap (rowOffset t - visibleRows t))
         (with_trackEnd false t).

(** The runes of the [switch event.Rune()]. *)
Definition rune_g : Z := 103.
Definition rune_G : Z := 71.
Definition rune_j : Z := 106.
Definition rune_k : Z := 107.
Definition rune_h : Z := 104.
Definition rune_l : Z := 108.

(** The keys answered by the [done] callback. *)
Definition cancels (t : Table) (key : Key) : bool :=
  match key with
  | KeyEnter => negb (rowsSelectable t) && negb (columnsSelectable t)
  | KeyEscape | KeyTab | KeyBacktab => true
  | _ => false
  end.

Definition InputHandler (t : Table) (event : EventKey) : Table * list call :=
  let key := evKey event in
  if cancels t key then
    match done t with
    | Some h => (t, [CallDone h key])
    | None => (t, [])
    end
  else
    match key with
    | KeyRune =>
        let r := evRune event in
        if r =? rune_g then (home t, [])
        else if r =? rune_G then (end_ t, [])
        else if r =? rune_j then (down t, [])
        else if r =? rune_k then (up t, [])
        else if r =? rune_h then (left t, [])
        else if r =? rune_l then (right t, [])
        else (t, [])
    | KeyHome => (home t, [])
    | KeyEnd => (end_ t, [])
    | KeyUp => (up t, [])
    | KeyDown => (down t, [])
    | KeyLeft => (left t, [])
    | KeyRight => (right t, [])
    | KeyPgDn | KeyCtrlF => (pageDown t, [])
    | KeyPgUp | KeyCtrlB => (pageUp t, [])
    | KeyEnter =>
        match selected t with
        | Some h =>
            if rowsSelectable t || columnsSelectable t
            then (t, [CallSelected h (selectedRow t) (selectedColumn t)])
            else (t, [])
        | None => (t, [])
        end
    | _ => (t, [])
    end.

(** ** A table's life: the public operations, in sequence *)

Inductive action : Type :=
| ASetBorders (show : bool)
| ASetBordersColor (color : Z)
| ASetSeparator (sep : Z)
| ASetFixed (rows columns : Z)
| ASetSelectable (rows columns : bool)
| ASetSelected (row column : Z)
| ASetOffset (row column : Z)
| ASetSelectedFunc (h : option handler)
| ASetDoneFunc (h : option handler)
| ASetCell (row column : Z) (cell : option TableCell)
| AClear
| AInput (event : EventKey)
| ADraw (width height : Z).

Definition perform (t : Table) (a : action) : result Table :=
  match a with
  | ASetBorders show => Ok (SetBorders t show)
  | ASetBordersColor color => Ok (SetBordersColor t color)
  | ASetSeparator sep => Ok (SetSeparator t sep)
  | ASetFixed rows columns => Ok (SetFixed t rows columns)
  | ASetSelectable rows columns => Ok (SetSelectable t rows columns)
  | ASetSelected row column => Ok (SetSelected t row column)
  | ASetOffset row column => Ok (SetOffset t row column)
  | ASetSelectedFunc h => Ok (SetSelectedFunc t h)
  | ASetDoneFunc h => Ok (SetDoneFunc t h)
  | ASetCell row column cell => SetCell t row column cell
  | AClear => Ok (Clear t)
  | AInput event => Ok (fst (InputHandler t event))
  | ADraw width height => Draw t width height
  end.

Fixpoint life (acts : list action) (t : Table) : result Table :=
  match acts with
  | [] => Ok t
  | a :: rest => t' <- perform t a ;; life rest t'
  end.

(** ** Reference notions the theorems compare the code with *)

(** What a read of position [(i, j)] finds in a grid. *)
Definition content (cs : list (list (option TableCell))) (i j : nat)
  : option TableCell :=
  match cs !! i with
  | Some rw => match rw !! j with Some x => x | None => Some zeroCell end
  | None => Some zeroCell
  end.

(** [l] padded with [z] up to index [i]. *)
Definition grown {A : Type} (z : A) (l : list A) (i : Z) : list A :=
  l ++ replicate (Z.to_nat (i + 1 - len l)) z.

(** The grid a successful [SetCell(row, column, cell)] leaves. *)
Definition setCells (cs : list (list (option TableCell))) (row column : Z)
    (cell : option TableCell) : list (list (option TableCell)) :=
  let cs1 := grown [] cs row in
  let rw := default [] (cs1 !! Z.to_nat row) in
  <[Z.to_nat row :=
      <[Z.to_nat column := cell]> (grown (Some zeroCell) rw column)]> cs1.

(** Slice lengths fit an [int]. *)
Definition store_ok (t : Table) : Prop :=
  len (cells t) <= int_max /\ Forall (fun rw => len rw <= int_max) (cells t).

(** The cell last written at [(row, column)] by a history of operations,
    starting from [current]; [Clear] forgets every write. *)
Fixpoint lastWritten (acts : list action) (row column : Z)
    (current : option TableCell) : option TableCell :=
  match acts with
  | [] => current
  | ASetCell r c x :: rest =>
      lastWritten rest row column
        (if (r =? row) && (c =? column) then x else current)
  | AClear :: rest => lastWritten rest row column (Some zeroCell)
  | _ :: rest => lastWritten rest row column current
  end.

(** The largest column index set since the last [Clear], from [current]. *)
Fixpoint maxColumn (acts : list action) (current : Z) : Z :=
  match acts with
  | [] => current
  | ASetCell _ c _ :: rest => maxColumn rest (Z.max current c)
  | AClear :: rest => maxColumn rest (-1)
  | _ :: rest => maxColumn rest current
  end.

(** Histories that only write cells or clear. *)
Definition gridAction (a : action) : Prop :=
  match a with
  | ASetCell _ _ _ | AClear => True
  | _ => False
  end.

(** Two runs end alike as far as the grid goes: both return, with the same
    cells and the same [lastColumn], or both stop the same way. *)
Definition same_grid (r1 r2 : result Table) : Prop :=
  match r1, r2 with
  | Ok t1, Ok t2 => cells t1 = cells t2 /\ lastColumn t1 = lastColumn t2
  | Panic, Panic => True
  | OutOfFuel, OutOfFuel => True
  | _, _ => False
  end.

(** ** Reading events and callback traces *)

Fixpoint countDone (calls : list call) : nat :=
  match calls with
  | [] => 0
  | CallDone _ _ :: rest => S (countDone rest)
  | _ :: rest => countDone rest
  end.

Fixpoint countSelected (calls : list call) : nat :=
  match calls with
  | [] => 0
  | CallSelected _ _ _ :: rest => S (countSelected rest)
  | _ :: rest => countSelected rest
  end.

(** Escape, Tab, Backtab, and Enter while nothing is selectable. *)
Definition cancelClass (t : Table) (ev : EventKey) : Prop :=
  evKey ev = KeyEscape \/ evKey ev = KeyTab \/ evKey ev = KeyBacktab
  \/ (evKey ev = KeyEnter
      /\ rowsSelectable t = false /\ columnsSelectable t = false).

(** The events bound to [down] and to [pageDown]. *)
Definition isDownKey (ev : EventKey) : Prop :=
  evKey ev = KeyDown \/ (evKey ev = KeyRune /\ evRune ev = rune_j).

Definition isPageDownKey (ev : EventKey) : Prop :=
  evKey ev = KeyPgDn \/ evKey ev = KeyCtrlF.

(** The same event handled [n] times in a row. *)
Definition presses (ev : EventKey) (n : nat) (t : Table) : Table :=
  Nat.iter n (fun t => fst (InputHandler t ev)) t.

(** The selection lies on the grid, on each selectable axis that has cells. *)
Definition selection_ok (t : Table) : Prop :=
  (rowsSelectable t = true -> 0 < len (cells t) ->
   0 <= selectedRow t <= len (cells t) - 1)
  /\ (columnsSelectable t = true -> 0 <= lastColumn t ->
      0 <= selectedColumn t <= lastColumn t).

(** ** Magnitudes far from the ends of [int] *)

(** At most 2^60 in absolute value: sums and doubled differences of a few
    such numbers do not wrap. *)
Definition small (z : Z) : Prop :=
  -1152921504606846976 <= z <= 1152921504606846976.

(** The numbers [Draw]'s row arithmetic combines are small. *)
Definition modest (t : Table) (height : Z) : Prop :=
  small (len (cells t)) /\ small (selectedRow t) /\ small (fixedRows t)
  /\ small (rowOffset t) /\ small height.

(** ** The shape of the column scan *)

(** The columns [0 .. k-1] without the [n] columns from [f] on. *)
Definition window (f n k : Z) : list Z :=
  seqZ 0 f ++ seqZ (f + n) (k - f - n).

(** What holds of the scan before candidate column [k]: the evicted columns
    are the [skipped] ones that follow the fixed columns, and the accepted
    ones are all the others below [k]. *)
Definition scan_inv (t : Table) (k : Z) (s : scan) : Prop :=
  length (widths s) = length (columns s)
  /\ skipped s = len (evicted s)
  /\ evicted s = seqZ (fixedColumns t) (len (evicted s))
  /\ ((evicted s = [] /\ columns s = seqZ 0 k)
      \/ (0 <= fixedColumns t /\ fixedColumns t + len (evicted s) <= k
          /\ columns s = window (fixedColumns t) (len (evicted s)) k)).

Definition flow_scan (f : flow) : scan :=
  match f with Next s => s | BreakColumnLoop s => s end.

(** The fields [Draw] only reads. *)
Definition config (t : Table) :=
  (borders t, bordersColor t, separator t, cells t, lastColumn t,
   fixedRows t, fixedColumns t, rowsSelectable t, columnsSelectable t,
   selectedRow t, selected t, done t).

(** The table as the layout loops of [Draw] see it. *)
Definition prepared (t : Table) (height : Z) : Table :=
  clampColumnOffset
    (clampRowOffset (with_visibleRows (capacity t height) t) height).

(** The scenario table: 5 rows of 3 cells. *)
Definition grid5x3 : list action :=
  r ← seqZ 0 5; c ← seqZ 0 3; [ASetCell r c (Some (mkCell "cell" 0 0 0 true))].

(** The table those writes build. *)
Definition fullTable : Table :=
  Eval vm_compute in
    match life grid5x3 NewTable with Ok t => t | _ => NewTable end.

(** Rows selectable, the scenario table, four Down commands from row 0. *)
Definition fourDowns : list action :=
  ASetSelectable true false :: grid5x3
  ++ replicate 4 (AInput (mkEvent KeyDown 0)).

(** ** Invariants of the grid *)

(** [lastColumn] is the last index of the longest row, -1 when no row has
    a cell. *)
Definition grid_ok (t : Table) : Prop :=
  -1 <= lastColumn t
  /\ Forall (fun rw => len rw <= lastColumn t + 1) (cells t)
  /\ (lastColumn t = -1 \/ exists rw, rw ∈ cells t /\ len rw = lastColumn t + 1).

(** The fields input handling only reads. *)
Definition settings (t : Table) :=
  (borders t, bordersColor t, separator t, cells t, lastColumn t,
   fixedRows t, fixedColumns t, rowsSelectable t, columnsSelectable t,
   visibleRows t, selected t, done t).

(** The test "the rows from the offset on do not fill the viewport". *)
Definition fits (t : Table) (height : Z) : bool :=
  if borders t then 2 * (len (cells t) - rowOffset t) <? height
  else len (cells t) - rowOffset t <? height.

(** Lines left for a row above the bottom edge, and lines the rows from the
    offset on would take. *)
Definition roomBelowFixed (t : Table) (height : Z) : Prop :=
  if borders t then 2 * (fixedRows t + 1) < height
  else fixedRows t + 1 < height.

(** Rows that begin inside a viewport of the given height: one line per
    row without borders, two with them. *)
Definition lineCount (t : Table) (height : Z) : Z :=
  if borders t then (height + 1) `div` 2 else height.

(** The rows a paint considers, in order: the fixed rows, then the rows
    from [fixedRows + rowOffset] on. *)
Definition rowCandidates (t : Table) : list Z :=
  upTo 0 (Z.min (fixedRows t) (len (cells t)))
  ++ upTo (wrap (fixedRows t + rowOffset t)) (len (cells t)).

(** Every row holds a cell, not nil, in each column up to [lastColumn]. *)
Definition full (t : Table) : Prop :=
  Forall (fun rw => len rw = lastColumn t + 1 /\ Forall is_Some rw) (cells t).

(** Histories without a paint. *)
Definition notDraw (a : action) : Prop :=
  match a with ADraw _ _ => False | _ => True end.

(** * Properties *)

(** ** Proof steps used throughout *)

Ltac fields :=
  cbn [borders bordersColor separator cells lastColumn fixedRows fixedColumns
       rowsSelectable columnsSelectable selectedRow selectedColumn rowOffset
       columnOffset trackEnd visibleRows selected done
       with_borders with_bordersColor with_separator with_cells
       with_lastColumn with_fixed with_selectable with_selectedRow
       with_selectedColumn with_rowOffset with_columnOffset with_trackEnd
       with_visibleRows with_selected with_done] in *.

(** Case analysis on the conditions of the [if]s of the goal, innermost
    first, keeping the equations. *)
Ltac split_ifs :=
  repeat (fields;
          match goal with
          | |- context [if ?b then _ else _] =>
              lazymatch b with
              | context [if _ then _ else _] => fail
              | _ => destruct b eqn:?
              end
          end);
  fields.

Ltac unwrap :=
  unfold wrap, in_int, int_min, int_max, small in *;
  Z.to_euclidean_division_equations; lia.


(** ** Integers, results, slices *)

Lemma wrap_id z : in_int z -> wrap z = z.
Proof.
  unfold in_int, int_min, int_max, wrap. intros H.
  Z.div_mod_to_equations. lia.
Qed.

Lemma wrap_in_int z : in_int (wrap z).
Proof. unfold in_int, int_min, int_max, wrap. Z.div_mod_to_equations. lia. Qed.


(** Rewrites [wrap z] to [z], innermost first, where [z] is in range. *)
Ltac nowrap :=
  repeat match goal with
         | |- context [wrap ?z] =>
             lazymatch z with
             | context [wrap _] => fail
             | _ => rewrite (wrap_id z)
                      by (unfold in_int, int_min, int_max, small in *;
                          Z.to_euclidean_division_equations; lia)
             end
         end.

Lemma len_nonneg {A} (l : list A) : 0 <= len l.
Proof. unfold len. lia. Qed.

Lemma bind_Ok {A B} (r : result A) (k : A -> result B) b :
  bind r k = Ok b <-> exists a, r = Ok a /\ k a = Ok b.
Proof.
  destruct r; cbn [bind]; split;
    try (intros [a [H _]]; discriminate); try discriminate.
  - eauto.
  - intros [a' [[= ->] H]]. exact H.
Qed.

Lemma index_Ok {A} (l : list A) i x :
  index l i = Ok x <-> 0 <= i /\ l !! Z.to_nat i = Some x.
Proof.
  unfold index. destruct (Z.ltb_spec i 0).
  - split; [discriminate | lia].
  - destruct (l !! Z.to_nat i); split; intros H0; try discriminate.
    + split; [lia | congruence].
    + destruct H0. congruence.
    + destruct H0. discriminate.
Qed.

Lemma store_Ok {A} (l : list A) i x l' :
  store l i x = Ok l' <-> 0 <= i < len l /\ l' = <[Z.to_nat i := x]> l.
Proof.
  unfold store. destruct (Z.ltb_spec i 0); [split; [discriminate | lia]|].
  destruct (Z.ltb_spec i (len l)); split; intros H1; try discriminate; try lia.
  - split; [lia | congruence].
  - destruct H1. congruence.
Qed.

(** [append(l, make([]A, i-len(l)+1)...)], the way [SetCell] grows a slice
    up to index [i]. *)
Lemma extend_Ok {A} size (z : A) (l : list A) i l' :
  0 < size -> in_int i -> len l <= i ->
  (fresh <- make size z (wrap (wrap (i - len l) + 1)) ;; append size l fresh)
  = Ok l' <->
  size * (i + 1) <= maxAlloc /\ l' = l ++ replicate (Z.to_nat (i - len l + 1)) z.
Proof.
  intros Hs Hi Hle. pose proof (len_nonneg l) as Hl.
  assert (Hw : wrap (i - len l) = i - len l).
  { apply wrap_id. unfold in_int, int_min, int_max in *. lia. }
  rewrite Hw. unfold make.
  destruct (Z.eq_dec (i - len l) int_max) as [He | Hne].
  - rewrite He. change (wrap (int_max + 1)) with int_min.
    change (int_min <? 0) with true. cbn [bind].
    split; [discriminate | unfold int_max, maxAlloc in *; nia].
  - rewrite wrap_id by (unfold in_int, int_min, int_max in *; lia).
    destruct (Z.ltb_spec (i - len l + 1) 0); [lia|].
    destruct (Z.ltb_spec maxAlloc (size * (i - len l + 1))); cbn [bind].
    + split; [discriminate | nia].
    + unfold append. unfold len at 2. rewrite length_replicate.
      rewrite Z2Nat.id by lia.
      replace (len l + (i - len l + 1)) with (i + 1) by lia.
      destruct (Z.ltb_spec maxAlloc (size * (i + 1))); split; intros Hx;
        try discriminate; try lia.
      * split; [lia | congruence].
      * destruct Hx. congruence.
Qed.

(** A grown slice that was allocated fits an [int] with room to spare. *)
Lemma maxAlloc_int size i :
  1 <= size -> 0 <= i -> size * (i + 1) <= maxAlloc -> i < int_max.
Proof. unfold maxAlloc, int_max. nia. Qed.

(** ** The cell store *)


Lemma GetCell_content t row column :
  0 <= row -> 0 <= column ->
  GetCell t row column
  = Ok (content (cells t) (Z.to_nat row) (Z.to_nat column)).
Proof.
  intros Hr Hc. unfold GetCell, content, index, len.
  destruct (Z.leb_spec (Z.of_nat (length (cells t))) row) as [H|H].
  - rewrite lookup_ge_None_2 by lia. reflexivity.
  - destruct (Z.ltb_spec row 0); [lia|].
    destruct (lookup_lt_is_Some_2 (cells t) (Z.to_nat row)) as [rw Hrw]; [lia|].
    rewrite Hrw. cbn [bind].
    destruct (Z.leb_spec (Z.of_nat (length rw)) column) as [H1|H1].
    + rewrite lookup_ge_None_2 by lia. reflexivity.
    + destruct (Z.ltb_spec column 0); [lia|].
      destruct (lookup_lt_is_Some_2 rw (Z.to_nat column)) as [x Hx]; [lia|].
      rewrite Hx. reflexivity.
Qed.

Lemma fill_defaults_length n c r : length (fill_defaults n c r) = length r.
Proof.
  revert c r. induction n as [|n IH]; intros c r; cbn [fill_defaults]; [done|].
  rewrite IH. apply length_insert.
Qed.

Lemma fill_defaults_lookup n c r i :
  0 <= c ->
  fill_defaults n c r !! i
  = if decide ((Z.to_nat c <= i < Z.to_nat c + n)%nat /\ (i < length r)%nat)
    then Some (Some zeroCell) else r !! i.
Proof.
  revert c r. induction n as [|n IH]; intros c r Hc; cbn [fill_defaults].
  - case_decide; [lia | done].
  - rewrite IH by lia. rewrite length_insert.
    replace (Z.to_nat (c + 1)) with (S (Z.to_nat c)) by lia.
    destruct (decide (i = Z.to_nat c)) as [->|Hne].
    + destruct (decide (Z.to_nat c < length r)%nat).
      * rewrite list_lookup_insert_eq by lia. repeat case_decide; done || lia.
      * rewrite list_insert_ge by lia. repeat case_decide; done || lia.
    + rewrite list_lookup_insert_ne by lia. repeat case_decide; done || lia.
Qed.

Lemma fill_grown rw column :
  len rw <= column ->
  fill_defaults (Z.to_nat (column - len rw)) (len rw)
    (rw ++ replicate (Z.to_nat (column - len rw + 1)) None)
  = <[Z.to_nat column := None]> (grown (Some zeroCell) rw column).
Proof.
  intros Hle. pose proof (len_nonneg rw) as Hl. unfold grown.
  apply list_eq. intros i.
  rewrite fill_defaults_lookup by lia.
  rewrite length_app, length_replicate.
  unfold len in *. rewrite Nat2Z.id.
  destruct (decide (i = Z.to_nat column)) as [->|Hne].
  - rewrite list_lookup_insert_eq by (rewrite length_app, length_replicate; lia).
    case_decide; [lia|].
    rewrite lookup_app_r by lia. apply lookup_replicate_2. lia.
  - rewrite list_lookup_insert_ne by lia.
    case_decide as Hd.
    + rewrite lookup_app_r by lia. symmetry. apply lookup_replicate_2. lia.
    + destruct (decide (i < length rw)%nat).
      * rewrite !lookup_app_l by lia. done.
      * rewrite lookup_ge_None_2 by (rewrite length_app, length_replicate; lia).
        rewrite lookup_ge_None_2 by (rewrite length_app, length_replicate; lia).
        done.
Qed.

(** The two growth steps of [SetCell]. *)
Lemma grow_rows_Ok (cs : list (list (option TableCell))) row cs1 :
  in_int row ->
  (if len cs <=? row
   then fresh <- make sliceSize [] (wrap (wrap (row - len cs) + 1)) ;;
        append sliceSize cs fresh
   else Ok cs) = Ok cs1 <->
  (len cs <= row -> sliceSize * (row + 1) <= maxAlloc)
  /\ cs1 = grown [] cs row.
Proof.
  intros Hr. destruct (Z.leb_spec (len cs) row) as [H|H].
  - rewrite extend_Ok by (done || unfold sliceSize; lia).
    unfold grown. replace (row + 1 - len cs) with (row - len cs + 1) by lia.
    tauto.
  - unfold grown. replace (Z.to_nat (row + 1 - len cs)) with 0%nat by lia.
    cbn [replicate]. rewrite app_nil_r.
    split; [intros [= <-]; split; [lia | done] | intros [_ ->]; done].
Qed.

Lemma grow_row_Ok (rw : list (option TableCell)) column r1 :
  in_int column ->
  (if len rw <=? column
   then fresh <- make ptrSize None (wrap (wrap (column - len rw) + 1)) ;;
        r' <- append ptrSize rw fresh ;;
        Ok (fill_defaults (Z.to_nat (column - len rw)) (len rw) r')
   else Ok rw) = Ok r1 <->
  (len rw <= column -> ptrSize * (column + 1) <= maxAlloc)
  /\ r1 = if len rw <=? column
          then <[Z.to_nat column := None]> (grown (Some zeroCell) rw column)
          else rw.
Proof.
  intros Hc. destruct (Z.leb_spec (len rw) column) as [H|H].
  - assert (Hb : forall k : list (option TableCell) -> result (list (option TableCell)),
             (fresh <- make ptrSize None (wrap (wrap (column - len rw) + 1)) ;;
              r' <- append ptrSize rw fresh ;; k r')
             = (r' <- (fresh <- make ptrSize None
                                  (wrap (wrap (column - len rw) + 1)) ;;
                       append ptrSize rw fresh) ;; k r')).
    { intros k. destruct (make _ _ _); reflexivity. }
    rewrite Hb. rewrite bind_Ok. split.
    + intros [r' [He [= <-]]].
      apply extend_Ok in He as [Hlim ->]; [|unfold ptrSize; lia|done|done].
      split; [done|]. by apply fill_grown.
    + intros [Hlim ->]. eexists. split.
      * apply extend_Ok; [unfold ptrSize; lia|done|done|]. split; [auto|reflexivity].
      * by rewrite fill_grown.
  - split; [intros [= <-]; split; [lia | done] | intros [_ ->]; done].
Qed.

(** When [SetCell] returns, and with what. *)
Lemma SetCell_Ok t row column cell t' :
  in_int row -> in_int column ->
  SetCell t row column cell = Ok t' <->
  0 <= row /\ 0 <= column
  /\ (len (cells t) <= row -> sliceSize * (row + 1) <= maxAlloc)
  /\ (len (default [] (cells t !! Z.to_nat row)) <= column ->
      ptrSize * (column + 1) <= maxAlloc)
  /\ t' = with_lastColumn (Z.max (lastColumn t) column)
            (with_cells (setCells (cells t) row column cell) t).
Proof.
  intros Hr Hc. unfold SetCell.
  pose proof (len_nonneg (cells t)) as Hl0.
  assert (Hmax : (if lastColumn t <? column then column else lastColumn t)
                 = Z.max (lastColumn t) column).
  { destruct (Z.ltb_spec (lastColumn t) column); lia. }
  rewrite Hmax. clear Hmax.
  set (old := default [] (cells t !! Z.to_nat row)).
  assert (Hlk : 0 <= row ->
            grown [] (cells t) row !! Z.to_nat row = Some old).
  { intros Hrow. unfold grown, old.
    destruct (cells t !! Z.to_nat row) as [rw|] eqn:E; cbn [from_option id].
    - by apply lookup_app_l_Some.
    - apply lookup_ge_None in E. rewrite lookup_app_r by done.
      apply lookup_replicate_2. unfold len. lia. }
  assert (Hins : 0 <= column ->
            <[Z.to_nat column := cell]>
              (if len old <=? column
               then <[Z.to_nat column := None]> (grown (Some zeroCell) old column)
               else old)
            = <[Z.to_nat column := cell]> (grown (Some zeroCell) old column)
            /\ column < len (if len old <=? column
                             then <[Z.to_nat column := None]>
                                    (grown (Some zeroCell) old column)
                             else old)).
  { intros Hcol. destruct (Z.leb_spec (len old) column) as [H|H].
    - rewrite list_insert_insert_eq. split; [done|].
      unfold len. rewrite length_insert. unfold grown.
      rewrite length_app, length_replicate. unfold len in *. lia.
    - unfold grown. replace (Z.to_nat (column + 1 - len old)) with 0%nat by lia.
      cbn [replicate]. rewrite app_nil_r. done. }
  split.
  - intros Hb.
    apply bind_Ok in Hb as [cs1 [H1 Hb]].
    apply bind_Ok in Hb as [rw [H2 Hb]].
    apply bind_Ok in Hb as [r1 [H3 Hb]].
    apply bind_Ok in Hb as [r2 [H4 Hb]].
    apply bind_Ok in Hb as [cs2 [H5 Hb]]. injection Hb as <-.
    apply grow_rows_Ok in H1 as [Hlim1 ->]; [|done].
    apply index_Ok in H2 as [Hrow H2].
    rewrite (Hlk Hrow) in H2. injection H2 as <-.
    apply grow_row_Ok in H3 as [Hlim2 ->]; [|done].
    apply store_Ok in H4 as [Hcolumn ->].
    apply store_Ok in H5 as [_ ->].
    destruct (Hins (proj1 Hcolumn)) as [Heq _]. rewrite Heq.
    split; [done|]. split; [lia|]. split; [done|]. split; [done|].
    unfold setCells. cbn zeta. rewrite (Hlk Hrow). done.
  - intros (Hrow & Hcolumn & Hlim1 & Hlim2 & ->).
    rewrite (proj2 (grow_rows_Ok (cells t) row _ Hr) (conj Hlim1 eq_refl)).
    cbn [bind].
    assert (Hi : index (grown [] (cells t) row) row = Ok old).
    { apply index_Ok. split; [lia | auto]. }
    rewrite Hi. cbn [bind].
    rewrite (proj2 (grow_row_Ok old column _ Hc) (conj Hlim2 eq_refl)).
    cbn [bind].
    destruct (Hins Hcolumn) as [Heq Hlt].
    rewrite (proj2 (store_Ok _ column cell _) (conj (conj Hcolumn Hlt) eq_refl)).
    cbn [bind]. rewrite Heq.
    assert (Hs2 : forall x,
              store (grown [] (cells t) row) row x
              = Ok (<[Z.to_nat row := x]> (grown [] (cells t) row))).
    { intros x. apply store_Ok. split; [|done]. split; [lia|].
      pose proof (lookup_lt_Some _ _ _ (Hlk Hrow)). unfold len. lia. }
    rewrite Hs2. cbn [bind]. unfold setCells. cbn zeta. rewrite (Hlk Hrow). done.
Qed.

Lemma content_setCells cs row column cell i j :
  0 <= row -> 0 <= column ->
  content (setCells cs row column cell) i j
  = if decide (i = Z.to_nat row /\ j = Z.to_nat column) then cell
    else content cs i j.
Proof.
  intros Hr Hc. unfold setCells, content. cbn zeta.
  assert (Hlen : (Z.to_nat row < length (grown [] cs row))%nat).
  { unfold grown. rewrite length_app, length_replicate. unfold len. lia. }
  destruct (decide (i = Z.to_nat row)) as [->|Hne].
  - rewrite list_lookup_insert_eq by done.
    destruct (lookup_lt_is_Some_2 _ _ Hlen) as [rw Hrw]. rewrite Hrw. cbn [from_option id].
    assert (Hrw' : cs !! Z.to_nat row = Some rw \/ (cs !! Z.to_nat row = None /\ rw = [])).
    { unfold grown in Hrw. apply lookup_app_Some in Hrw as [H|[H1 H2]]; [by left|].
      right. split; [by apply lookup_ge_None_2|].
      apply lookup_replicate in H2 as [-> _]. done. }
    assert (Hc' : (Z.to_nat column < length (grown (Some zeroCell) rw column))%nat).
    { unfold grown. rewrite length_app, length_replicate. unfold len. lia. }
    destruct (decide (j = Z.to_nat column)) as [->|Hnj].
    + rewrite list_lookup_insert_eq by done. case_decide; [done | tauto].
    + rewrite list_lookup_insert_ne by done. case_decide; [tauto|].
      assert (Hg : match grown (Some zeroCell) rw column !! j with
                   | Some x => x | None => Some zeroCell end
                   = match rw !! j with Some x => x | None => Some zeroCell end).
      { unfold grown. rewrite lookup_app. destruct (rw !! j); [done|].
        destruct (replicate _ _ !! _) eqn:E; [|done].
        apply lookup_replicate in E as [-> _]. done. }
      rewrite Hg. destruct Hrw' as [->|[-> ->]]; [done|].
      rewrite lookup_nil. done.
  - rewrite list_lookup_insert_ne by done. case_decide; [tauto|].
    unfold grown. rewrite lookup_app. destruct (cs !! i); [done|].
    destruct (replicate _ _ !! _) eqn:E; [|done].
    apply lookup_replicate in E as [-> _]. rewrite lookup_nil. done.
Qed.

(** Slices within the allocation bound, as the runtime hands them out. *)
Lemma SetCell_in_int t row column cell t' :
  store_ok t -> SetCell t row column cell = Ok t' ->
  in_int row /\ in_int column.
Proof.
  intros [Hlen Hrows] Hb. unfold SetCell in Hb.
  apply bind_Ok in Hb as [cs1 [H1 Hb]].
  apply bind_Ok in Hb as [rw [H2 Hb]].
  apply bind_Ok in Hb as [r1 [H3 Hb]].
  apply bind_Ok in Hb as [r2 [H4 _]].
  apply index_Ok in H2 as [Hrow H2].
  apply store_Ok in H4 as [Hcolumn _].
  assert (Hcs1 : len cs1 <= int_max /\ Forall (fun rw => len rw <= int_max) cs1).
  { destruct (len (cells t) <=? row); [|by injection H1 as <-].
    apply bind_Ok in H1 as [fresh [Hmk Happ]].
    unfold make in Hmk. destruct (_ <? 0); [discriminate|].
    destruct (_ <? _); [discriminate|]. injection Hmk as <-.
    unfold append in Happ.
    set (fresh := replicate _ _) in Happ.
    destruct (Z.ltb_spec maxAlloc (sliceSize * (len (cells t) + len fresh)));
      [discriminate|].
    injection Happ as <-. split.
    - unfold len, maxAlloc, sliceSize, int_max in *. rewrite length_app. lia.
    - apply Forall_app. split; [done|]. apply Forall_replicate.
      unfold len, int_max. cbn. lia. }
  destruct Hcs1 as [Hl1 Hf1].
  assert (Hrw : len rw <= int_max).
  { rewrite Forall_forall in Hf1. apply Hf1. by eapply list_elem_of_lookup_2. }
  assert (Hr1 : len r1 <= int_max).
  { destruct (len rw <=? column); [|by injection H3 as <-].
    apply bind_Ok in H3 as [fresh [Hmk H3]].
    apply bind_Ok in H3 as [r' [Happ H3]]. injection H3 as <-.
    unfold append in Happ.
    destruct (Z.ltb_spec maxAlloc (ptrSize * (len rw + len fresh))); [discriminate|].
    injection Happ as <-.
    unfold len, maxAlloc, ptrSize, int_max in *.
    rewrite fill_defaults_length, length_app. lia. }
  apply lookup_lt_Some in H2.
  unfold in_int, int_min, int_max, len in *. lia.
Qed.

(** What a [SetCell] that returns was given and leaves. *)
Lemma SetCell_spec t row column cell t' :
  store_ok t ->
  SetCell t row column cell = Ok t' ->
  0 <= row < int_max /\ 0 <= column < int_max /\
  t' = with_lastColumn (Z.max (lastColumn t) column)
         (with_cells (setCells (cells t) row column cell) t).
Proof.
  intros Hok H. destruct (SetCell_in_int _ _ _ _ _ Hok H) as [Hr Hc].
  destruct Hok as [Hlen Hrows].
  apply SetCell_Ok in H as (Hrow & Hcol & Hl1 & Hl2 & ->); [|done|done].
  split; [|split; [|done]].
  - split; [done|]. destruct (Z.le_gt_cases (len (cells t)) row) as [H|H].
    + apply (maxAlloc_int sliceSize); [unfold sliceSize; lia | done | auto].
    + lia.
  - split; [done|].
    set (old := default [] (cells t !! Z.to_nat row)) in *.
    assert (Hold : len old <= int_max).
    { unfold old. destruct (cells t !! Z.to_nat row) as [rw|] eqn:E;
        cbn [from_option id].
      - rewrite Forall_forall in Hrows. apply Hrows.
        by eapply list_elem_of_lookup_2.
      - unfold len, int_max. cbn. lia. }
    destruct (Z.le_gt_cases (len old) column) as [H|H].
    + apply (maxAlloc_int ptrSize); [unfold ptrSize; lia | done | auto].
    + lia.
Qed.

Lemma store_ok_setCells t row column cell :
  store_ok t -> 0 <= row < int_max -> 0 <= column < int_max ->
  store_ok (with_lastColumn (Z.max (lastColumn t) column)
              (with_cells (setCells (cells t) row column cell) t)).
Proof.
  intros [Hlen Hrows] Hr Hc. unfold store_ok. cbn [cells with_lastColumn with_cells].
  unfold setCells. cbn zeta.
  assert (Hg : Forall (fun rw => len rw <= int_max) (grown [] (cells t) row)).
  { unfold grown. apply Forall_app. split; [done|]. apply Forall_replicate.
    unfold len, int_max. cbn. lia. }
  split.
  - unfold len. rewrite length_insert. unfold grown. rewrite length_app, length_replicate.
    unfold len in *. lia.
  - apply Forall_insert; [done|].
    unfold len. rewrite length_insert. unfold grown at 1. rewrite length_app, length_replicate.
    destruct (grown [] (cells t) row !! Z.to_nat row) as [rw|] eqn:E; cbn [from_option id].
    + rewrite Forall_forall in Hg. pose proof (Hg rw (list_elem_of_lookup_2 _ _ _ E)).
      unfold len in *. lia.
    + unfold len. cbn. lia.
Qed.

(** ** What the operations leave alone *)

Lemma clampRowOffset_cells t h : cells (clampRowOffset t h) = cells t.
Proof.
  unfold clampRowOffset, nonNegativeRowOffset, applyTrackEnd, fitTrackEnd,
    followSelection, selectionBelow, selectionAbove.
  split_ifs; reflexivity.
Qed.

Lemma clampRowOffset_lastColumn t h :
  lastColumn (clampRowOffset t h) = lastColumn t.
Proof.
  unfold clampRowOffset, nonNegativeRowOffset, applyTrackEnd, fitTrackEnd,
    followSelection, selectionBelow, selectionAbove.
  split_ifs; reflexivity.
Qed.

Lemma clampColumnOffset_cells t : cells (clampColumnOffset t) = cells t.
Proof. unfold clampColumnOffset. cbn zeta. split_ifs; reflexivity. Qed.

Lemma clampColumnOffset_lastColumn t :
  lastColumn (clampColumnOffset t) = lastColumn t.
Proof. unfold clampColumnOffset. cbn zeta. split_ifs; reflexivity. Qed.

Lemma layout_Ok t w h v :
  layout t w h = Ok v <->
  let t0 := clampColumnOffset
              (clampRowOffset (with_visibleRows (capacity t h) t) h) in
  exists s, scanColumns t0 w (visibleRowList t0 h) = Ok s /\
            v = mkViewport (with_columnOffset (skipped s) t0)
                  (visibleRowList t0 h) s.
Proof.
  unfold layout. cbn zeta. rewrite bind_Ok. split.
  - intros [s [Hs [= <-]]]. eauto.
  - intros [s [Hs ->]]. eauto.
Qed.

Lemma Draw_Ok t w h t' :
  Draw t w h = Ok t' <->
  exists v, layout t w h = Ok v /\ vTable v = t' /\
            drawCells (vTable v) h (vRows v) (columns (vScan v)) = Ok tt.
Proof.
  unfold Draw. rewrite bind_Ok. split.
  - intros [v [Hv Hd]]. apply bind_Ok in Hd as [[] [Hd [= <-]]]. eauto.
  - intros [v (Hv & <- & Hd)]. exists v. split; [done|]. by rewrite Hd.
Qed.

Lemma Draw_cells t w h t' : Draw t w h = Ok t' -> cells t' = cells t.
Proof.
  intros H. apply Draw_Ok in H as [v (Hv & <- & _)].
  apply layout_Ok in Hv as [s [_ ->]]. cbn [vTable].
  change (cells (with_columnOffset _ ?x)) with (cells x).
  by rewrite clampColumnOffset_cells, clampRowOffset_cells.
Qed.

Lemma Draw_lastColumn t w h t' :
  Draw t w h = Ok t' -> lastColumn t' = lastColumn t.
Proof.
  intros H. apply Draw_Ok in H as [v (Hv & <- & _)].
  apply layout_Ok in Hv as [s [_ ->]]. cbn [vTable].
  change (lastColumn (with_columnOffset _ ?x)) with (lastColumn x).
  by rewrite clampColumnOffset_lastColumn, clampRowOffset_lastColumn.
Qed.

Lemma InputHandler_cells t ev : cells (fst (InputHandler t ev)) = cells t.
Proof.
  unfold InputHandler, home, end_, down, up, left, right, pageDown, pageUp.
  cbn zeta. destruct (evKey ev), (done t), (selected t); split_ifs; reflexivity.
Qed.

Lemma InputHandler_lastColumn t ev :
  lastColumn (fst (InputHandler t ev)) = lastColumn t.
Proof.
  unfold InputHandler, home, end_, down, up, left, right, pageDown, pageUp.
  cbn zeta. destruct (evKey ev), (done t), (selected t); split_ifs; reflexivity.
Qed.

Lemma SetCell_lastColumn t row column cell t' :
  SetCell t row column cell = Ok t' ->
  lastColumn t' = Z.max (lastColumn t) column.
Proof.
  unfold SetCell. intros Hb.
  apply bind_Ok in Hb as [cs1 [_ Hb]].
  apply bind_Ok in Hb as [rw [_ Hb]].
  apply bind_Ok in Hb as [r1 [_ Hb]].
  apply bind_Ok in Hb as [r2 [_ Hb]].
  apply bind_Ok in Hb as [cs2 [_ [= <-]]].
  cbn [lastColumn with_lastColumn].
  destruct (Z.ltb_spec (lastColumn t) column); lia.
Qed.

(** Every operation other than [SetCell] and [Clear] leaves the grid and
    [lastColumn] as they are. *)
Lemma perform_frame t a t' :
  perform t a = Ok t' ->
  match a with
  | ASetCell _ _ _ | AClear => True
  | _ => cells t' = cells t /\ lastColumn t' = lastColumn t
  end.
Proof.
  destruct a; cbn [perform]; intros H; try (injection H as <-); try done.
  - split; [apply InputHandler_cells | apply InputHandler_lastColumn].
  - split; [by eapply Draw_cells | by eapply Draw_lastColumn].
Qed.

Lemma store_ok_cells t t' : cells t' = cells t -> store_ok t -> store_ok t'.
Proof. unfold store_ok. by intros ->. Qed.

Lemma store_ok_NewTable : store_ok NewTable.
Proof. split; [unfold len, int_max; cbn; lia | constructor]. Qed.

Lemma store_ok_Clear t : store_ok (Clear t).
Proof. split; [unfold len, int_max; cbn; lia | constructor]. Qed.

Lemma life_reads acts : forall t t' row column,
  store_ok t -> life acts t = Ok t' -> 0 <= row -> 0 <= column ->
  store_ok t' /\
  GetCell t' row column
  = Ok (lastWritten acts row column
          (content (cells t) (Z.to_nat row) (Z.to_nat column))).
Proof.
  induction acts as [|a acts IH]; intros t t' row column Hok Hl Hr Hc.
  - injection Hl as <-. split; [done|]. by apply GetCell_content.
  - cbn [life] in Hl. apply bind_Ok in Hl as [t1 [Hp Hl]].
    assert (Hother : cells t1 = cells t ->
              lastWritten (a :: acts) row column
                (content (cells t) (Z.to_nat row) (Z.to_nat column))
              = lastWritten acts row column
                  (content (cells t) (Z.to_nat row) (Z.to_nat column)) ->
              store_ok t' /\
              GetCell t' row column
              = Ok (lastWritten (a :: acts) row column
                      (content (cells t) (Z.to_nat row) (Z.to_nat column)))).
    { intros Hcells ->. rewrite <- Hcells.
      apply IH; try done. by eapply store_ok_cells. }
    pose proof (perform_frame _ _ _ Hp) as Hf.
    destruct a; try (apply Hother; [apply Hf | reflexivity]).
    + (* SetCell *)
      cbn [perform] in Hp. apply SetCell_spec in Hp as (Hrow & Hcol & ->); [|done].
      destruct (IH _ _ row column (store_ok_setCells t row0 column0 cell Hok Hrow Hcol)
                  Hl Hr Hc) as [Hok' Hget].
      split; [done|]. rewrite Hget. cbn [lastWritten cells with_lastColumn with_cells].
      rewrite content_setCells by lia. do 2 f_equal.
      case_decide as Hd.
      * destruct Hd as [H1 H2].
        assert (row0 = row) as -> by lia. assert (column0 = column) as -> by lia.
        by rewrite !Z.eqb_refl.
      * destruct (Z.eqb_spec row0 row) as [->|]; [|done].
        destruct (Z.eqb_spec column0 column) as [->|]; [|done].
        tauto.
    + (* Clear *)
      cbn [perform] in Hp. injection Hp as <-.
      destruct (IH _ _ row column (store_ok_Clear t) Hl Hr Hc) as [Hok' Hget].
      split; [done|]. rewrite Hget. reflexivity.
Qed.

Lemma life_lastColumn acts : forall t t',
  life acts t = Ok t' -> lastColumn t' = maxColumn acts (lastColumn t).
Proof.
  induction acts as [|a acts IH]; intros t t' Hl.
  - by injection Hl as <-.
  - cbn [life] in Hl. apply bind_Ok in Hl as [t1 [Hp Hl]].
    rewrite (IH _ _ Hl).
    pose proof (perform_frame _ _ _ Hp) as Hf.
    destruct a; cbn [maxColumn];
      try (match type of Hf with _ /\ _ => by rewrite (proj2 Hf) end).
    + cbn [perform] in Hp. by rewrite (SetCell_lastColumn _ _ _ _ _ Hp).
    + cbn [perform] in Hp. by injection Hp as <-.
Qed.

(** *** Reading back what was written *)

(** C5.  After any history of operations on a new table (cell writes,
    clears, and any configuration, input or paint in between), a read at
    [(row, column)] with [row, column >= 0] returns exactly the cell last
    written there since creation or the last clear, and the default cell if
    there was none. *)
Theorem GetCell_returns_last_written acts t' row column :
  life acts NewTable = Ok t' -> 0 <= row -> 0 <= column ->
  GetCell t' row column = Ok (lastWritten acts row column (Some zeroCell)).
Proof.
  intros Hl Hr Hc.
  destruct (life_reads acts NewTable t' row column store_ok_NewTable Hl Hr Hc)
    as [_ ->].
  reflexivity.
Qed.

Lemma GetCell_returns_last_written_witness :
  exists t',
    life [ASetCell 0 2 (Some (mkCell "a" 0 0 0 false)); ADraw 10 4;
          ASetCell 0 2 (Some (mkCell "b" 0 3 7 true)); ASetCell 1 5 None]
      NewTable = Ok t'
    /\ GetCell t' 0 2 = Ok (Some (mkCell "b" 0 3 7 true))
    /\ GetCell t' 1 1 = Ok (Some zeroCell)
    /\ GetCell t' 1 5 = Ok None.
Proof.
  eexists. split; [vm_compute; reflexivity|].
  split; [|split].
  - apply (GetCell_returns_last_written
             [ASetCell 0 2 (Some (mkCell "a" 0 0 0 false)); ADraw 10 4;
              ASetCell 0 2 (Some (mkCell "b" 0 3 7 true)); ASetCell 1 5 None]);
      [vm_compute; reflexivity | lia | lia].
  - vm_compute; reflexivity.
  - vm_compute; reflexivity.
Defined.

(** *** Reads outside the grid *)

Lemma GetCell_Panic_iff t row column :
  GetCell t row column = Panic <->
  row < 0 \/ (row < len (cells t) /\ column < 0).
Proof.
  unfold GetCell, index, len.
  destruct (Z.leb_spec (Z.of_nat (length (cells t))) row) as [H|H].
  - split; [discriminate | lia].
  - destruct (Z.ltb_spec row 0); [split; [lia | done]|].
    destruct (lookup_lt_is_Some_2 (cells t) (Z.to_nat row)) as [rw Hrw]; [lia|].
    rewrite Hrw. cbn [bind].
    destruct (Z.leb_spec (Z.of_nat (length rw)) column) as [H1|H1].
    + split; [discriminate | lia].
    + destruct (Z.ltb_spec column 0); [split; [lia | done]|].
      destruct (lookup_lt_is_Some_2 rw (Z.to_nat column)) as [x Hx]; [lia|].
      rewrite Hx. split; [discriminate | lia].
Qed.

(** C6.  [GetCell] does fail: a negative row index passes the upper-bound
    test and then indexes the slice, which panics, already on a new table. *)
Theorem GetCell_negative_row_panics :
  GetCell NewTable (-1) 0 = Panic
  /\ forall t row column, row < 0 -> GetCell t row column = Panic.
Proof.
  split; [reflexivity|]. intros t row column H.
  apply GetCell_Panic_iff. by left.
Qed.

(** *** [lastColumn] *)



(** ** Keyboard input *)

Lemma cancels_cancelClass t ev :
  cancels t (evKey ev) = true <-> cancelClass t ev.
Proof.
  unfold cancels, cancelClass.
  destruct (evKey ev), (rowsSelectable t), (columnsSelectable t); cbn;
    intuition (try discriminate; try congruence).
Qed.

Lemma InputHandler_down t ev :
  isDownKey ev -> InputHandler t ev = (down t, []).
Proof.
  unfold InputHandler. intros [->|[-> ->]]; reflexivity.
Qed.

Lemma InputHandler_pageDown t ev :
  isPageDownKey ev -> InputHandler t ev = (pageDown t, []).
Proof.
  unfold InputHandler. intros [->| ->]; reflexivity.
Qed.

(** C9.  A cancel-class input (Escape, Tab, Backtab, or Enter while nothing
    is selectable) calls the cancellation callback, the registered [done]
    handler, exactly once and with the key of the event, and never the
    activation callback; a table without a [done] handler has no callback
    to call and nothing is called. *)
Theorem cancel_calls_registered_done_once t ev :
  cancelClass t ev ->
  countSelected (snd (InputHandler t ev)) = 0%nat
  /\ match done t with
     | Some h => snd (InputHandler t ev) = [CallDone h (evKey ev)]
                 /\ countDone (snd (InputHandler t ev)) = 1%nat
     | None => snd (InputHandler t ev) = []
     end.
Proof.
  intros H. apply cancels_cancelClass in H.
  unfold InputHandler. cbn zeta. rewrite H.
  destruct (done t); cbn; auto.
Qed.

Lemma cancel_calls_registered_done_once_witness :
  cancelClass (SetDoneFunc NewTable (Some 7%nat)) (mkEvent KeyEnter 0)
  /\ snd (InputHandler (SetDoneFunc NewTable (Some 7%nat)) (mkEvent KeyEnter 0))
     = [CallDone 7%nat KeyEnter].
Proof.
  assert (H : cancelClass (SetDoneFunc NewTable (Some 7%nat)) (mkEvent KeyEnter 0)).
  { unfold cancelClass. cbn. tauto. }
  split; [exact H|].
  destruct (cancel_calls_registered_done_once _ _ H) as (_ & H3).
  cbn in H3. apply H3.
Defined.

(** *** Down *)

Lemma down_selectedRow t :
  rowsSelectable t = true -> len (cells t) <= int_max ->
  int_min <= selectedRow t < len (cells t) ->
  selectedRow (down t) = Z.min (selectedRow t + 1) (len (cells t) - 1).
Proof.
  intros Hs Hl Hr. unfold down. rewrite Hs. cbn zeta.
  cbn [selectedRow with_selectedRow cells].
  rewrite wrap_id by (unfold in_int, int_min, int_max in *; lia).
  destruct (Z.leb_spec (len (cells t)) (selectedRow t + 1)).
  - cbn [selectedRow with_selectedRow].
    rewrite wrap_id by (unfold in_int, int_min, int_max in *; lia). lia.
  - cbn [selectedRow with_selectedRow]. lia.
Qed.

Lemma down_frame t :
  cells (down t) = cells t /\ rowsSelectable (down t) = rowsSelectable t.
Proof. unfold down. cbn zeta. split_ifs; split; reflexivity || done. Qed.

Lemma presses_S ev n t :
  presses ev (S n) t = fst (InputHandler (presses ev n t) ev).
Proof. reflexivity. Qed.

Lemma presses_down_selectedRow ev n : forall t,
  isDownKey ev ->
  rowsSelectable t = true -> len (cells t) <= int_max ->
  int_min <= selectedRow t < len (cells t) ->
  cells (presses ev n t) = cells t
  /\ rowsSelectable (presses ev n t) = true
  /\ selectedRow (presses ev n t)
     = Z.min (selectedRow t + Z.of_nat n) (len (cells t) - 1).
Proof.
  induction n as [|n IH]; intros t Hk Hs Hl Hr.
  - cbn. split; [done|]. split; [done|]. lia.
  - destruct (IH t Hk Hs Hl Hr) as (Hc & Hs' & Hr').
    rewrite presses_S, (InputHandler_down _ _ Hk). cbn [fst].
    destruct (down_frame (presses ev n t)) as [Hc2 Hs2].
    rewrite Hc2, Hs2. split; [done|]. split; [done|].
    rewrite down_selectedRow; rewrite ?Hc; try done; lia.
Qed.



(** C10, as the code has it.  On a table without rows and with rows
    selectable, Down leaves the selected row at -1 when the incremented row
    is not negative, and so does PageDown when the selected row advanced by
    the recorded visible-row count is not negative. *)
Theorem down_on_empty_table_selects_minus_one t ev :
  cells t = [] -> rowsSelectable t = true ->
  (isDownKey ev -> -1 <= selectedRow t < int_max ->
   selectedRow (fst (InputHandler t ev)) = -1)
  /\ (isPageDownKey ev -> 0 <= selectedRow t + visibleRows t <= int_max ->
      selectedRow (fst (InputHandler t ev)) = -1).
Proof.
  intros Hc Hs. split; intros Hk Hr.
  - rewrite (InputHandler_down _ _ Hk). cbn [fst]. unfold down.
    rewrite Hs. cbn zeta. cbn [selectedRow with_selectedRow cells]. rewrite Hc.
    rewrite wrap_id by (unfold in_int, int_min, int_max in *; lia).
    change (len []) with 0.
    destruct (Z.leb_spec 0 (selectedRow t + 1)); [reflexivity | lia].
  - rewrite (InputHandler_pageDown _ _ Hk). cbn [fst]. unfold pageDown.
    rewrite Hs. cbn zeta. cbn [selectedRow with_selectedRow cells visibleRows].
    rewrite Hc.
    rewrite wrap_id by (unfold in_int, int_min, int_max in *; lia).
    change (len []) with 0.
    destruct (Z.leb_spec 0 (selectedRow t + visibleRows t)); [reflexivity | lia].
Qed.

Lemma down_on_empty_table_selects_minus_one_witness :
  selectedRow (fst (InputHandler (SetSelectable NewTable true false)
                      (mkEvent KeyDown 0))) = -1
  /\ selectedRow (fst (InputHandler (SetSelectable NewTable true false)
                         (mkEvent KeyPgDn 0))) = -1.
Proof.
  destruct (down_on_empty_table_selects_minus_one
              (SetSelectable NewTable true false) (mkEvent KeyDown 0)
              eq_refl eq_refl) as [H1 _].
  destruct (down_on_empty_table_selects_minus_one
              (SetSelectable NewTable true false) (mkEvent KeyPgDn 0)
              eq_refl eq_refl) as [_ H2].
  split.
  - apply H1; [left; reflexivity | cbn; unfold int_max; lia].
  - apply H2; [left; reflexivity | cbn; unfold int_max; lia].
Defined.

(** C10 as stated fails: with the selected row set to -5 on an empty table,
    Down leaves it at -4. *)
Lemma down_on_empty_table_from_minus_five :
  cells (SetSelected (SetSelectable NewTable true false) (-5) 0) = []
  /\ rowsSelectable (SetSelected (SetSelectable NewTable true false) (-5) 0) = true
  /\ selectedRow (fst (InputHandler
                         (SetSelected (SetSelectable NewTable true false) (-5) 0)
                         (mkEvent KeyDown 0))) = -4.
Proof. repeat split. Qed.

(** ** Paint: the row offset *)

Lemma followSelection_frame t h :
  cells (followSelection t h) = cells t
  /\ borders (followSelection t h) = borders t
  /\ selectedRow (followSelection t h) = selectedRow t
  /\ (in_int (rowOffset t) -> in_int (rowOffset (followSelection t h))).
Proof.
  unfold followSelection, selectionBelow, selectionAbove.
  split_ifs;
    cbn [cells borders selectedRow rowOffset with_trackEnd with_rowOffset];
    (split; [done|split; [done|split; [done|]]]);
    intros; first [assumption | apply wrap_in_int].
Qed.

(** The last three steps of "Clamp row offsets", from any offset. *)
Lemma settle_bounds t h :
  len (cells t) <= int_max -> in_int (rowOffset t) -> in_int h ->
  (borders t = true ->
   -4611686018427387904 <= len (cells t) - rowOffset t < 4611686018427387904) ->
  0 <= rowOffset (nonNegativeRowOffset (applyTrackEnd (fitTrackEnd t h) h))
    <= Z.max 0 (len (cells t) - capacity t h).
Proof.
  intros Hl Hr Hh Hb. pose proof (len_nonneg (cells t)) as H0.
  unfold nonNegativeRowOffset, applyTrackEnd, fitTrackEnd, capacity.
  destruct (borders t) eqn:Eb.
  - specialize (Hb eq_refl).
    rewrite (wrap_id (len (cells t) - rowOffset t)) by unwrap.
    rewrite (wrap_id (2 * _)) by unwrap.
    destruct (Z.ltb_spec (2 * (len (cells t) - rowOffset t)) h);
      cbn [trackEnd with_trackEnd borders rowOffset with_rowOffset cells].
    + rewrite Eb. cbn [rowOffset with_rowOffset].
      destruct (Z.ltb_spec (wrap (len (cells t) - h `quot` 2)) 0);
        cbn [rowOffset with_rowOffset]; unwrap.
    + destruct (trackEnd t); rewrite ?Eb; cbn [rowOffset with_rowOffset].
      * destruct (Z.ltb_spec (wrap (len (cells t) - h `quot` 2)) 0);
          cbn [rowOffset with_rowOffset]; unwrap.
      * destruct (Z.ltb_spec (rowOffset t) 0);
          cbn [rowOffset with_rowOffset]; unwrap.
  - destruct (Z.ltb_spec (wrap (len (cells t) - rowOffset t)) h);
      cbn [trackEnd with_trackEnd borders rowOffset with_rowOffset cells].
    + rewrite Eb. cbn [rowOffset with_rowOffset].
      destruct (Z.ltb_spec (wrap (len (cells t) - h)) 0);
        cbn [rowOffset with_rowOffset]; unwrap.
    + destruct (trackEnd t); rewrite ?Eb; cbn [rowOffset with_rowOffset].
      * destruct (Z.ltb_spec (wrap (len (cells t) - h)) 0);
          cbn [rowOffset with_rowOffset]; unwrap.
      * destruct (Z.ltb_spec (rowOffset t) 0);
          cbn [rowOffset with_rowOffset]; unwrap.
Qed.

Lemma selectionAbove_visibleRows v t :
  selectionAbove (with_visibleRows v t) = with_visibleRows v (selectionAbove t).
Proof. unfold selectionAbove. fields. split_ifs; reflexivity. Qed.

Lemma selectionBelow_visibleRows v t h :
  selectionBelow (with_visibleRows v t) h
  = with_visibleRows v (selectionBelow t h).
Proof. unfold selectionBelow. fields. split_ifs; reflexivity. Qed.

Lemma followSelection_visibleRows v t h :
  followSelection (with_visibleRows v t) h
  = with_visibleRows v (followSelection t h).
Proof.
  unfold followSelection. fields.
  rewrite selectionAbove_visibleRows, selectionBelow_visibleRows.
  by destruct (rowsSelectable t).
Qed.

Lemma fitTrackEnd_visibleRows v t h :
  fitTrackEnd (with_visibleRows v t) h = with_visibleRows v (fitTrackEnd t h).
Proof. unfold fitTrackEnd. fields. split_ifs; reflexivity. Qed.

Lemma applyTrackEnd_visibleRows v t h :
  applyTrackEnd (with_visibleRows v t) h
  = with_visibleRows v (applyTrackEnd t h).
Proof. unfold applyTrackEnd. fields. split_ifs; reflexivity. Qed.

Lemma nonNegativeRowOffset_visibleRows v t :
  nonNegativeRowOffset (with_visibleRows v t)
  = with_visibleRows v (nonNegativeRowOffset t).
Proof. unfold nonNegativeRowOffset. fields. split_ifs; reflexivity. Qed.

Lemma clampRowOffset_visibleRows v t h :
  clampRowOffset (with_visibleRows v t) h
  = with_visibleRows v (clampRowOffset t h).
Proof.
  unfold clampRowOffset.
  by rewrite followSelection_visibleRows, fitTrackEnd_visibleRows,
    applyTrackEnd_visibleRows, nonNegativeRowOffset_visibleRows.
Qed.

Lemma followSelection_small t h :
  modest t h ->
  -2305843009213693953 <= rowOffset (followSelection t h)
    <= 2305843009213693953.
Proof.
  intros (H1 & H2 & H3 & H4 & H5).
  assert (Ha : -2305843009213693952 <= rowOffset (selectionAbove t)
               <= 2305843009213693952
               /\ selectedRow (selectionAbove t) = selectedRow t
               /\ borders (selectionAbove t) = borders t).
  { unfold selectionAbove.
    split_ifs; fields; nowrap; unfold small in *; repeat split; try done; lia. }
  destruct Ha as (Ha & Es & Eb).
  unfold followSelection. destruct (rowsSelectable t); [|unfold small in *; lia].
  unfold selectionBelow. rewrite Es, Eb.
  split_ifs; fields; nowrap; unfold small in *;
    Z.to_euclidean_division_equations; lia.
Qed.

Lemma clampRowOffset_bounds t h :
  len (cells t) <= int_max -> in_int (rowOffset t) -> in_int h ->
  (borders t = true -> modest t h) ->
  0 <= rowOffset (clampRowOffset t h)
    <= Z.max 0 (len (cells t) - capacity t h).
Proof.
  intros Hl Hr Hh Hb. unfold clampRowOffset.
  destruct (followSelection_frame t h) as (Hc & Hbo & _ & Hin).
  assert (Hcap : capacity (followSelection t h) h = capacity t h).
  { unfold capacity. by rewrite Hbo. }
  rewrite <- Hc, <- Hcap. apply settle_bounds; rewrite ?Hc; try done.
  - by apply Hin.
  - rewrite Hbo. intros Eb.
    pose proof (followSelection_small t h (Hb Eb)).
    destruct (Hb Eb) as (H1 & _). pose proof (len_nonneg (cells t)).
    unfold small in *. lia.
Qed.

Lemma selectionBelow_pushes t h :
  modest t h -> -1 <= rowOffset t ->
  capacity t h <= selectedRow t - rowOffset t ->
  rowOffset (selectionBelow t h) = selectedRow t + 1 - capacity t h
  /\ trackEnd (selectionBelow t h) = false.
Proof.
  intros (H1 & H2 & H3 & H4 & H5) H0 Hp. unfold selectionBelow, capacity in *.
  destruct (borders t); nowrap.
  - destruct (Z.leb_spec h (2 * (selectedRow t + 1 - rowOffset t))).
    + fields. nowrap. done.
    + Z.to_euclidean_division_equations; lia.
  - destruct (Z.leb_spec h (selectedRow t + 1 - rowOffset t)).
    + fields. nowrap. done.
    + lia.
Qed.

Lemma selectionAbove_offset t :
  small (selectedRow t) -> small (fixedRows t) -> small (rowOffset t) ->
  0 <= rowOffset t ->
  cells (selectionAbove t) = cells t
  /\ borders (selectionAbove t) = borders t
  /\ selectedRow (selectionAbove t) = selectedRow t
  /\ fixedRows (selectionAbove t) = fixedRows t
  /\ 0 <= rowOffset (selectionAbove t) <= rowOffset t.
Proof.
  intros H1 H2 H3 H0. unfold selectionAbove. nowrap.
  destruct (Z.leb_spec (fixedRows t) (selectedRow t));
    destruct (Z.ltb_spec (selectedRow t) (fixedRows t + rowOffset t));
    cbn [andb]; fields; repeat split; try done; lia.
Qed.

(** The last three steps from an offset that puts an existing selected row
    on the last visible line. *)
Lemma settle_keeps_selection t h :
  small (len (cells t)) -> small (selectedRow t) -> small h ->
  trackEnd t = false ->
  selectedRow t < len (cells t) ->
  rowOffset t = selectedRow t + 1 - capacity t h -> 0 <= rowOffset t ->
  rowOffset (nonNegativeRowOffset (applyTrackEnd (fitTrackEnd t h) h))
  = rowOffset t
  /\ (borders t = false ->
      trackEnd (nonNegativeRowOffset (applyTrackEnd (fitTrackEnd t h) h))
      = false).
Proof.
  intros H1 H2 H5 Ht Hlt Hr H0. pose proof (len_nonneg (cells t)) as Hlen.
  unfold nonNegativeRowOffset, applyTrackEnd, fitTrackEnd, capacity in *.
  destruct (borders t) eqn:Eb.
  - split; [|discriminate].
    assert (Hq : 2 * (h `quot` 2) <= h + 1 /\ h - 1 <= 2 * (h `quot` 2))
      by (Z.to_euclidean_division_equations; lia).
    rewrite (wrap_id (len (cells t) - rowOffset t))
      by (unfold in_int, int_min, int_max, small in *; lia).
    rewrite (wrap_id (2 * _))
      by (unfold in_int, int_min, int_max, small in *; lia).
    destruct (Z.ltb_spec (2 * (len (cells t) - rowOffset t)) h); fields.
    + rewrite Eb. fields.
      rewrite wrap_id by (unfold in_int, int_min, int_max, small in *; lia).
      destruct (Z.ltb_spec (len (cells t) - h `quot` 2) 0); fields; lia.
    + rewrite Ht. destruct (Z.ltb_spec (rowOffset t) 0); fields; lia.
  - rewrite (wrap_id (len (cells t) - rowOffset t))
      by (unfold in_int, int_min, int_max, small in *; lia).
    destruct (Z.ltb_spec (len (cells t) - rowOffset t) h); [lia|].
    rewrite Ht. destruct (Z.ltb_spec (rowOffset t) 0); [lia|]. done.
Qed.

Lemma clampRowOffset_selection_below t h :
  rowsSelectable t = true -> modest t h ->
  0 <= rowOffset t -> selectedRow t < len (cells t) ->
  capacity t h <= selectedRow t - rowOffset t ->
  rowOffset (clampRowOffset t h) = selectedRow t + 1 - capacity t h
  /\ (borders t = false -> trackEnd (clampRowOffset t h) = false).
Proof.
  intros Hs (H1 & H2 & H3 & H4 & H5) H0 Hlt Hp.
  destruct (selectionAbove_offset t H2 H3 H4 H0) as (Ec & Eb & Es & Ef & Hr1).
  assert (Hcap1 : capacity (selectionAbove t) h = capacity t h).
  { unfold capacity. by rewrite Eb. }
  assert (Hm1 : modest (selectionAbove t) h).
  { unfold modest. rewrite Ec, Es, Ef. repeat split; try done;
      unfold small in *; lia. }
  destruct (selectionBelow_pushes (selectionAbove t) h Hm1) as [Hr2 Ht2].
  { lia. }
  { rewrite Hcap1, Es. lia. }
  assert (Hfr : cells (selectionBelow (selectionAbove t) h) = cells t
                /\ borders (selectionBelow (selectionAbove t) h) = borders t
                /\ selectedRow (selectionBelow (selectionAbove t) h)
                   = selectedRow t).
  { rewrite <- Ec, <- Eb, <- Es. unfold selectionBelow.
    split_ifs; fields; done. }
  destruct Hfr as (Ec2 & Eb2 & Es2).
  unfold clampRowOffset, followSelection. rewrite Hs.
  assert (Hcap2 : capacity (selectionBelow (selectionAbove t) h) h
                  = capacity t h).
  { unfold capacity. by rewrite Eb2. }
  rewrite Hcap1, Es in Hr2.
  destruct (settle_keeps_selection (selectionBelow (selectionAbove t) h) h)
    as [Hr3 Ht3]; rewrite ?Ec2, ?Es2, ?Hcap2; try done; try lia.
  split; [by rewrite Hr3|]. intros Hb. apply Ht3. by rewrite Eb2.
Qed.

(** ** Paint: the column scan *)

Lemma remove_at_Ok {A} (l : list A) i l' :
  remove_at l i = Ok l' <->
  0 <= i < len l /\ l' = take (Z.to_nat i) l ++ drop (S (Z.to_nat i)) l.
Proof.
  unfold remove_at. destruct (Z.ltb_spec i 0); [split; [discriminate | lia]|].
  destruct (Z.ltb_spec i (len l)); split; intros H1; try discriminate; try lia.
  - split; [lia | congruence].
  - destruct H1. congruence.
Qed.

Lemma remove_at_length {A} (l l' : list A) i :
  remove_at l i = Ok l' -> S (length l') = length l.
Proof.
  intros H. apply remove_at_Ok in H as [Hi ->]. unfold len in Hi.
  rewrite length_app, length_take, length_drop. lia.
Qed.

Lemma index_fuel {A} (l : list A) i : index l i <> OutOfFuel.
Proof. unfold index. destruct (i <? 0), (l !! Z.to_nat i); discriminate. Qed.

Lemma remove_at_fuel {A} (l : list A) i : remove_at l i <> OutOfFuel.
Proof. unfold remove_at. destruct (i <? 0), (i <? len l); discriminate. Qed.

Lemma window_full k f : 0 <= f <= k -> window f 0 k = seqZ 0 k.
Proof.
  intros H. unfold window. replace (f + 0) with (0 + f) by lia.
  rewrite <- seqZ_app by lia. f_equal. lia.
Qed.

Lemma window_split f n k :
  0 <= f -> 0 <= n -> f + n < k ->
  window f n k = seqZ 0 f ++ (f + n) :: seqZ (f + n + 1) (k - f - (n + 1)).
Proof.
  intros Hf Hn Hk. unfold window. f_equal.
  rewrite seqZ_cons by lia. f_equal. f_equal; lia.
Qed.

Lemma window_length f n k :
  0 <= f -> 0 <= n -> f + n <= k -> len (window f n k) = k - n.
Proof.
  intros. unfold window, len. rewrite length_app, !length_seqZ. lia.
Qed.

Lemma window_evict f n k :
  0 <= f -> 0 <= n -> f + n < k ->
  index (window f n k) f = Ok (f + n)
  /\ remove_at (window f n k) f = Ok (window f (n + 1) k).
Proof.
  intros Hf Hn Hk. rewrite window_split by done.
  assert (Hl : length (seqZ 0 f) = Z.to_nat f) by apply length_seqZ.
  split.
  - apply index_Ok. split; [done|]. by apply list_lookup_middle.
  - apply remove_at_Ok. split.
    + unfold len. rewrite length_app, Hl. cbn [length]. lia.
    + rewrite take_app_length' by done.
      replace (S (Z.to_nat f)) with (Z.to_nat f + 1)%nat by lia.
      rewrite (drop_app_add' _ _ (Z.to_nat f) 1) by done. cbn [drop].
      rewrite drop_0. unfold window. f_equal. f_equal; lia.
Qed.

Lemma window_snoc f n k :
  0 <= f -> 0 <= n -> f + n <= k ->
  window f n k ++ [k] = window f n (k + 1).
Proof.
  intros Hf Hn Hk. unfold window. rewrite <- app_assoc. f_equal.
  replace (k + 1 - f - n) with ((k - f - n) + 1) by lia.
  rewrite seqZ_app by lia. f_equal.
  replace (f + n + (k - f - n)) with k by lia. reflexivity.
Qed.

Lemma seqZ_snoc m n : 0 <= n -> seqZ m n ++ [m + n] = seqZ m (n + 1).
Proof.
  intros Hn. rewrite seqZ_app by lia. reflexivity.
Qed.

(** The shape of [columns] whenever something can be evicted. *)
Lemma scan_inv_window t k s :
  0 <= k -> scan_inv t k s ->
  0 <= fixedColumns t < len (columns s) ->
  fixedColumns t + len (evicted s) < k
  /\ columns s = window (fixedColumns t) (len (evicted s)) k.
Proof.
  intros Hk (Hw & Hs & He & Hc) Hf.
  pose proof (len_nonneg (evicted s)) as Hn.
  destruct Hc as [[He0 Hc]|(H0 & Hle & Hc)].
  - rewrite He0 in *. change (len []) with 0 in *.
    rewrite Hc in Hf. unfold len in Hf. rewrite length_seqZ in Hf.
    split; [lia|]. rewrite Hc. symmetry. apply window_full. lia.
  - split; [|done]. rewrite Hc in Hf. rewrite window_length in Hf by lia. lia.
Qed.

Lemma evictLoop_inv t w k fuel : forall s,
  0 <= k <= int_max -> scan_inv t k s ->
  (length (columns s) <= fuel)%nat ->
  evictLoop fuel t w k s <> OutOfFuel
  /\ forall f, evictLoop fuel t w k s = Ok f -> scan_inv t k (flow_scan f).
Proof.
  induction fuel as [|fuel IH]; intros s Hk Hinv Hfuel.
  - cbn [evictLoop].
    split_ifs; try (split; [discriminate | by intros f [= <-]]).
    destruct (index (widths s) (fixedColumns t)) as [x| |] eqn:Ei;
      cbn [bind]; try (split; [discriminate|]; discriminate).
    + apply index_Ok in Ei as [Hf _].
      match goal with H : (len (columns s) <=? _) = false |- _ =>
        apply Z.leb_gt in H; unfold len in H end. lia.
    + by apply index_fuel in Ei.
  - cbn [evictLoop].
    split_ifs; try (split; [discriminate | by intros f [= <-]]).
    match goal with H : (len (columns s) <=? _) = false |- _ =>
      apply Z.leb_gt in H; rename H into Hlen end.
    destruct (index (widths s) (fixedColumns t)) as [x| |] eqn:Ei;
      cbn [bind]; try (split; discriminate).
    2:{ by apply index_fuel in Ei. }
    apply index_Ok in Ei as [Hf _].
    destruct (scan_inv_window t k s (proj1 Hk) Hinv (conj Hf Hlen)) as [Hlt Hc].
    pose proof (len_nonneg (evicted s)) as Hn.
    destruct (window_evict (fixedColumns t) (len (evicted s)) k Hf Hn Hlt)
      as [Hgone Hrem].
    rewrite Hc, Hrem. cbn [bind].
    destruct Hinv as (Hw & Hs & He & _).
    assert (Hwl : 0 <= fixedColumns t < len (widths s)).
    { unfold len in *. rewrite Hw. lia. }
    destruct (remove_at (widths s) (fixedColumns t)) as [ws| |] eqn:Ew.
    2:{ exfalso. destruct (remove_at_Ok (widths s) (fixedColumns t)
                             (take (Z.to_nat (fixedColumns t)) (widths s)
                              ++ drop (S (Z.to_nat (fixedColumns t))) (widths s)))
          as [_ Hr]. rewrite Hr in Ew by done. discriminate. }
    2:{ by apply remove_at_fuel in Ew. }
    cbn [bind]. rewrite Hgone. cbn [bind].
    apply remove_at_length in Ew.
    assert (Hcl : S (length (window (fixedColumns t) (len (evicted s) + 1) k))
                  = length (columns s)).
    { apply remove_at_length with (i := fixedColumns t). by rewrite Hc. }
    apply IH; [done| |cbn [columns]; lia].
    assert (Hev : len (evicted s ++ [fixedColumns t + len (evicted s)])
                  = len (evicted s) + 1).
    { unfold len. rewrite length_app. cbn [length]. lia. }
    unfold scan_inv. cbn [columns widths skipped evicted]. rewrite Hev.
    split; [lia|]. split.
    { rewrite Hs. apply wrap_id. unfold in_int, int_min, int_max in *. lia. }
    split.
    { rewrite He at 1. by apply seqZ_snoc. }
    right. split; [done|]. split; [lia | done].
Qed.

Lemma getCell_fuel t row column : getCell t row column <> OutOfFuel.
Proof.
  unfold getCell. destruct (len (cells t) <=? row); [discriminate|].
  pose proof (index_fuel (cells t) row).
  destruct (index (cells t) row) as [rw| |]; cbn [bind]; try done.
  destruct (len rw <=? column); [discriminate | apply index_fuel].
Qed.

Lemma columnWidth_fuel t column rs : forall m,
  columnWidth t column rs m <> OutOfFuel.
Proof.
  induction rs as [|row rs IH]; intros m; cbn [columnWidth]; [discriminate|].
  pose proof (getCell_fuel t row column).
  destruct (getCell t row column); cbn [bind]; [apply IH | discriminate | done].
Qed.

Lemma columnLoop_inv t w rs n : forall k s,
  0 <= k -> k + Z.of_nat n <= int_max -> scan_inv t k s ->
  columnLoop t w rs (seqZ k (Z.of_nat n)) s <> OutOfFuel
  /\ forall s', columnLoop t w rs (seqZ k (Z.of_nat n)) s = Ok s' ->
       exists k', k <= k' <= k + Z.of_nat n /\ scan_inv t k' s'.
Proof.
  induction n as [|n IH]; intros k s Hk Hmax Hinv.
  - cbn. split; [discriminate|]. intros s' [= <-]. exists k. split; [lia | done].
  - rewrite seqZ_cons by lia. cbn [columnLoop].
    replace (Z.pred (Z.of_nat (S n))) with (Z.of_nat n) by lia.
    destruct (evictLoop_inv t w k (length (columns s)) s) as [Hfuel Hstep];
      [lia | done | lia |].
    destruct (evictLoop (length (columns s)) t w k s) as [f| |];
      cbn [bind]; [|split; discriminate | done].
    specialize (Hstep f eq_refl).
    destruct f as [s1|s1]; cbn [flow_scan] in Hstep.
    2:{ split; [discriminate|]. intros s' [= <-]. exists k. split; [lia | done]. }
    pose proof (columnWidth_fuel t k rs (-1)) as Hcw.
    destruct (columnWidth t k rs (-1)) as [mw| |]; cbn [bind];
      [|split; discriminate | done].
    destruct (mw <? 0).
    { split; [discriminate|]. intros s' [= <-]. exists k. split; [lia | done]. }
    destruct (IH (Z.succ k)
                (mkScan (columns s1 ++ [k]) (widths s1 ++ [mw])
                   (wrap (tableWidth s1 + wrap (mw + 1))) (tableWidth s1)
                   (skipped s1) (evicted s1))) as [H1 H2]; [lia | lia | |].
    + destruct Hstep as (Hw & Hs & He & Hc).
      pose proof (len_nonneg (evicted s1)) as Hn.
      unfold scan_inv. cbn [columns widths skipped evicted].
      split; [rewrite !length_app; cbn [length]; lia|].
      split; [done|]. split; [done|].
      destruct Hc as [[He0 Hc]|(H0 & Hle & Hc)].
      * left. split; [done|]. rewrite Hc.
        replace (Z.succ k) with (k + 1) by lia.
        replace k with (0 + k) at 2 by lia. by apply seqZ_snoc.
      * right. split; [done|]. split; [lia|]. rewrite Hc.
        replace (Z.succ k) with (k + 1) by lia. by apply window_snoc.
    + split; [done|]. intros s' Hs'. destruct (H2 s' Hs') as [k' [Hk' Hi]].
      exists k'. split; [lia | done].
Qed.

Lemma scanColumns_inv t w rs :
  lastColumn t < int_max ->
  scanColumns t w rs <> OutOfFuel
  /\ forall s, scanColumns t w rs = Ok s ->
       exists k, 0 <= k <= Z.max 0 (lastColumn t + 1) /\ scan_inv t k s.
Proof.
  intros Hl. unfold scanColumns, upTo.
  replace (lastColumn t + 1 - 0) with (lastColumn t + 1) by lia.
  destruct (Z.le_gt_cases 0 (lastColumn t + 1)) as [Hpos|Hneg].
  - destruct (columnLoop_inv t w rs (Z.to_nat (lastColumn t + 1)) 0
                (mkScan [] [] (if borders t then 1 else 0) 0 0 []))
      as [H1 H2]; [lia | unfold int_max in *; lia | |];
      rewrite ?Z2Nat.id in * by done.
    + unfold scan_inv. cbn [columns widths skipped evicted].
      repeat split. left. split; reflexivity.
    + split; [done|]. intros s Hs. destruct (H2 s Hs) as [k [Hk Hi]].
      exists k. split; [lia | done].
  - rewrite seqZ_nil by lia. cbn [columnLoop]. split; [discriminate|].
    intros s [= <-]. exists 0. split; [lia|].
    unfold scan_inv. cbn [columns widths skipped evicted].
    repeat split. left. split; reflexivity.
Qed.

(** ** Paint: what it changes and what it guarantees *)

Lemma followSelection_config t h : config (followSelection t h) = config t.
Proof.
  unfold followSelection, selectionBelow, selectionAbove, config.
  split_ifs; congruence.
Qed.

Lemma clampRowOffset_config t h : config (clampRowOffset t h) = config t.
Proof.
  unfold clampRowOffset. rewrite <- (followSelection_config t h).
  generalize (followSelection t h). intros t1.
  unfold nonNegativeRowOffset, applyTrackEnd, fitTrackEnd, config.
  split_ifs; congruence.
Qed.

Lemma clampColumnOffset_frame t :
  config (clampColumnOffset t) = config t
  /\ rowOffset (clampColumnOffset t) = rowOffset t
  /\ trackEnd (clampColumnOffset t) = trackEnd t
  /\ visibleRows (clampColumnOffset t) = visibleRows t
  /\ 0 <= selectedColumn (clampColumnOffset t)
  /\ 0 <= columnOffset (clampColumnOffset t).
Proof.
  unfold clampColumnOffset, config. cbn zeta.
  repeat match goal with
         | |- context [if ?b then _ else _] =>
             match b with
             | _ <? _ => destruct (Z.ltb_spec0 _ _)
             | _ => destruct b eqn:?
             end
         end; fields; repeat split; try done; lia.
Qed.

Lemma prepared_frame t h :
  config (prepared t h) = config t
  /\ rowOffset (prepared t h) = rowOffset (clampRowOffset t h)
  /\ trackEnd (prepared t h) = trackEnd (clampRowOffset t h)
  /\ visibleRows (prepared t h) = capacity t h
  /\ 0 <= selectedColumn (prepared t h)
  /\ 0 <= columnOffset (prepared t h).
Proof.
  unfold prepared.
  destruct (clampColumnOffset_frame
              (clampRowOffset (with_visibleRows (capacity t h) t) h))
    as (H1 & H2 & H3 & H4 & H5 & H6).
  split; [|split; [|split; [|split; [|split]]]]; try done.
  - rewrite H1, clampRowOffset_config. reflexivity.
  - rewrite H2, clampRowOffset_visibleRows. reflexivity.
  - rewrite H3, clampRowOffset_visibleRows. reflexivity.
  - rewrite H4, clampRowOffset_visibleRows. reflexivity.
Qed.

Lemma config_fields t t' :
  config t' = config t ->
  borders t' = borders t /\ cells t' = cells t /\ lastColumn t' = lastColumn t
  /\ fixedRows t' = fixedRows t /\ fixedColumns t' = fixedColumns t
  /\ rowsSelectable t' = rowsSelectable t
  /\ columnsSelectable t' = columnsSelectable t
  /\ selectedRow t' = selectedRow t.
Proof. unfold config. intros [=]. repeat split; done. Qed.

(** A paint that returns went through the layout of the prepared table. *)
Lemma Draw_layout t w h t' :
  Draw t w h = Ok t' ->
  exists s, scanColumns (prepared t h) w (visibleRowList (prepared t h) h) = Ok s
    /\ layout t w h
       = Ok (mkViewport t' (visibleRowList (prepared t h) h) s)
    /\ t' = with_columnOffset (skipped s) (prepared t h).
Proof.
  intros H. apply Draw_Ok in H as [v (Hv & <- & _)].
  pose proof Hv as Hv'. apply layout_Ok in Hv' as [s [Hs ->]].
  exists s. split; [exact Hs|]. split; [exact Hv | reflexivity].
Qed.

Lemma Draw_scan_inv t w h t' :
  lastColumn t < int_max -> Draw t w h = Ok t' ->
  exists v k, layout t w h = Ok v /\ vTable v = t'
    /\ columnOffset t' = skipped (vScan v)
    /\ 0 <= k <= Z.max 0 (lastColumn t + 1)
    /\ scan_inv (prepared t h) k (vScan v).
Proof.
  intros Hl H. destruct (Draw_layout _ _ _ _ H) as [s (Hs & Hv & ->)].
  destruct (prepared_frame t h) as (Hc & _).
  apply config_fields in Hc as (_ & _ & Hlc & _).
  destruct (scanColumns_inv (prepared t h) w (visibleRowList (prepared t h) h))
    as [_ Hinv]; [by rewrite Hlc|].
  destruct (Hinv s Hs) as [k [Hk Hi]]. rewrite Hlc in Hk.
  eexists _, k. split; [exact Hv|]. cbn [vTable vScan].
  split; [done|]. split; [done|]. split; [lia | done].
Qed.

(** C1, as the code has it.  After a paint the row offset lies in
    [[0, max(0, rowCount - capacity)]], the capacity being the height of a
    borderless viewport and half the height of a bordered one, and the
    column offset is the number of columns the scan of that paint evicted,
    whatever it was before.  The table's numbers are [int]s; for a
    bordered table, whose tests double a difference, they are at most 2^60
    in magnitude, so that the doubling does not wrap around. *)
Theorem paint_settles_offsets t w h t' :
  len (cells t) <= int_max -> in_int (rowOffset t) -> in_int h ->
  lastColumn t < int_max ->
  (borders t = true -> modest t h) ->
  Draw t w h = Ok t' ->
  0 <= rowOffset t' <= Z.max 0 (len (cells t) - capacity t h)
  /\ exists v, layout t w h = Ok v /\ vTable v = t'
       /\ columnOffset t' = len (evicted (vScan v)).
Proof.
  intros Hl Hr Hh Hlc Hb H.
  destruct (Draw_scan_inv _ _ _ _ Hlc H) as (v & k & Hv & Ht & Hco & Hk & Hi).
  split.
  - destruct (Draw_layout _ _ _ _ H) as [s (_ & _ & ->)].
    destruct (prepared_frame t h) as (_ & Hro & _).
    change (rowOffset (with_columnOffset _ ?x)) with (rowOffset x).
    rewrite Hro. by apply clampRowOffset_bounds.
  - exists v. split; [done|]. split; [done|].
    rewrite Hco. by destruct Hi as (_ & -> & _).
Qed.

(** ** Input keeps the selection on the grid *)

Section SelectionKept.
Variable t : Table.
Hypothesis Hlen : len (cells t) <= int_max.
Hypothesis Hlast : lastColumn t < int_max.
Hypothesis Hsel : selection_ok t.

Lemma home_selection_ok : selection_ok (home t).
Proof.
  destruct Hsel as [Hr Hc]. unfold selection_ok, home.
  destruct (rowsSelectable t) eqn:?; fields;
    [|split; [intros; congruence | assumption]].
  split; intros; lia.
Qed.

Lemma end_selection_ok : selection_ok (end_ t).
Proof.
  destruct Hsel as [Hr Hc]. unfold selection_ok, end_.
  pose proof (len_nonneg (cells t)).
  destruct (rowsSelectable t) eqn:?; fields;
    [|split; [intros; congruence | assumption]].
  split; intros; nowrap; lia.
Qed.

Lemma down_selection_ok : selection_ok (down t).
Proof.
  unfold down. destruct Hsel as [Hr Hc].
  pose proof (len_nonneg (cells t)).
  destruct (rowsSelectable t) eqn:?.
  - destruct (Z.eq_dec (len (cells t)) 0).
    + split_ifs; unfold selection_ok; fields;
        (split; [intros; lia | assumption]).
    + specialize (Hr eq_refl ltac:(lia)). fields. nowrap.
      destruct (Z.leb_spec (len (cells t)) (selectedRow t + 1));
        unfold selection_ok; fields;
        (split; [intros; nowrap; lia | assumption]).
  - unfold selection_ok; fields; split; [intros; congruence | assumption].
Qed.

Lemma up_selection_ok : selection_ok (up t).
Proof.
  unfold up. destruct Hsel as [Hr Hc].
  pose proof (len_nonneg (cells t)).
  destruct (rowsSelectable t) eqn:?.
  - destruct (Z.eq_dec (len (cells t)) 0).
    + split_ifs; unfold selection_ok; fields;
        (split; [intros; lia | assumption]).
    + specialize (Hr eq_refl ltac:(lia)). fields. nowrap.
      destruct (Z.ltb_spec (selectedRow t - 1) 0);
        unfold selection_ok; fields;
        (split; [intros; nowrap; lia | assumption]).
  - unfold selection_ok; fields; split; [intros; congruence | assumption].
Qed.

Lemma pageDown_selection_ok :
  0 <= visibleRows t <= int_max - len (cells t) ->
  selection_ok (pageDown t).
Proof.
  intros Hv. unfold pageDown. destruct Hsel as [Hr Hc].
  pose proof (len_nonneg (cells t)).
  destruct (rowsSelectable t) eqn:?.
  - destruct (Z.eq_dec (len (cells t)) 0).
    + split_ifs; unfold selection_ok; fields;
        (split; [intros; lia | assumption]).
    + specialize (Hr eq_refl ltac:(lia)). fields. nowrap.
      destruct (Z.leb_spec (len (cells t)) (selectedRow t + visibleRows t));
        unfold selection_ok; fields;
        (split; [intros; nowrap; lia | assumption]).
  - unfold selection_ok; fields; split; [intros; congruence | assumption].
Qed.

Lemma pageUp_selection_ok :
  0 <= visibleRows t <= int_max - len (cells t) ->
  selection_ok (pageUp t).
Proof.
  intros Hv. unfold pageUp. destruct Hsel as [Hr Hc].
  pose proof (len_nonneg (cells t)).
  destruct (rowsSelectable t) eqn:?.
  - destruct (Z.eq_dec (len (cells t)) 0).
    + split_ifs; unfold selection_ok; fields;
        (split; [intros; lia | assumption]).
    + specialize (Hr eq_refl ltac:(lia)). fields. nowrap.
      destruct (Z.ltb_spec (selectedRow t - visibleRows t) 0);
        unfold selection_ok; fields;
        (split; [intros; nowrap; lia | assumption]).
  - unfold selection_ok; fields; split; [intros; congruence | assumption].
Qed.

Lemma left_selection_ok : selection_ok (left t).
Proof.
  unfold left. destruct Hsel as [Hr Hc].
  destruct (columnsSelectable t) eqn:?.
  - destruct (Z.lt_ge_cases (lastColumn t) 0).
    + split_ifs; unfold selection_ok; fields;
        (split; [assumption | intros; lia]).
    + specialize (Hc eq_refl ltac:(lia)). fields. nowrap.
      destruct (Z.ltb_spec (selectedColumn t - 1) 0);
        unfold selection_ok; fields;
        (split; [assumption | intros; nowrap; lia]).
  - unfold selection_ok; fields; split; [assumption | intros; congruence].
Qed.

Lemma right_selection_ok : selection_ok (right t).
Proof.
  unfold right. destruct Hsel as [Hr Hc].
  destruct (columnsSelectable t) eqn:?.
  - destruct (Z.lt_ge_cases (lastColumn t) 0).
    + split_ifs; unfold selection_ok; fields;
        (split; [assumption | intros; lia]).
    + specialize (Hc eq_refl ltac:(lia)). fields. nowrap.
      destruct (Z.ltb_spec (lastColumn t) (selectedColumn t + 1));
        unfold selection_ok; fields;
        (split; [assumption | intros; nowrap; lia]).
  - unfold selection_ok; fields; split; [assumption | intros; congruence].
Qed.

Lemma InputHandler_selection_ok ev :
  0 <= visibleRows t <= int_max - len (cells t) ->
  selection_ok (fst (InputHandler t ev)).
Proof.
  intros Hv. unfold InputHandler. cbn zeta.
  destruct (cancels t (evKey ev)); [by destruct (done t)|].
  destruct (evKey ev); cbn [fst];
    repeat match goal with
           | |- context [if ?b then _ else _] => destruct b
           | |- context [match ?o with Some _ => _ | None => _ end] =>
               destruct o
           end; cbn [fst];
    auto using home_selection_ok, end_selection_ok, down_selection_ok,
      up_selection_ok, pageDown_selection_ok, pageUp_selection_ok,
      left_selection_ok, right_selection_ok.
Qed.
End SelectionKept.

Lemma clampRowOffset_nonneg t h : 0 <= rowOffset (clampRowOffset t h).
Proof.
  unfold clampRowOffset, nonNegativeRowOffset.
  destruct (Z.ltb_spec (rowOffset (applyTrackEnd (fitTrackEnd (followSelection t h) h) h)) 0);
    fields; lia.
Qed.



Lemma layout_scan_inv t w h v :
  lastColumn t < int_max -> layout t w h = Ok v ->
  exists k, 0 <= k <= Z.max 0 (lastColumn t + 1)
    /\ scan_inv (prepared t h) k (vScan v)
    /\ vTable v = with_columnOffset (skipped (vScan v)) (prepared t h).
Proof.
  intros Hl Hv. apply layout_Ok in Hv as [s [Hs ->]]. cbn [vScan vTable].
  destruct (prepared_frame t h) as (Hc & _).
  apply config_fields in Hc as (_ & _ & Hlc & _).
  destruct (scanColumns_inv (prepared t h) w (visibleRowList (prepared t h) h))
    as [_ Hinv]; [by rewrite Hlc|].
  destruct (Hinv s Hs) as [k [Hk Hi]]. rewrite Hlc in Hk.
  exists k. split; [lia|]. split; done.
Qed.

Lemma fullTable_life : life grid5x3 NewTable = Ok fullTable.
Proof. vm_compute. reflexivity. Qed.

Lemma paint_settles_offsets_witness :
  exists t',
    Draw (SetBorders (SetOffset fullTable 9 2) true) 9 7 = Ok t'
    /\ 0 <= rowOffset t' <= 2
    /\ exists v, layout (SetBorders (SetOffset fullTable 9 2) true) 9 7 = Ok v
         /\ vTable v = t'
         /\ columnOffset t' = len (evicted (vScan v)).
Proof.
  eexists. split; [vm_compute; reflexivity|].
  apply (paint_settles_offsets (SetBorders (SetOffset fullTable 9 2) true) 9 7).
  - vm_compute. discriminate.
  - split; vm_compute; discriminate.
  - split; vm_compute; discriminate.
  - vm_compute. reflexivity.
  - intros _. repeat split; vm_compute; discriminate.
  - vm_compute. reflexivity.
Defined.

(** C1 as stated fails where the doubled difference of a bordered table
    wraps around: on a bordered table of 5 rows, after Home and
    [SetOffset(int_max, 0)], a paint into 20 by 10 computes
    [2*(5 - int_max)] as 12, finds that not below the height, and returns
    with the row offset still [int_max], far above [max(0, 5 - 5)]. *)
Lemma paint_keeps_huge_offset_of_bordered_table :
  exists t',
    life (ASetBorders true :: grid5x3
          ++ [AInput (mkEvent KeyHome 0); ASetOffset int_max 0; ADraw 20 10])
      NewTable = Ok t'
    /\ len (cells t') = 5 /\ capacity t' 10 = 5
    /\ rowOffset t' = int_max
    /\ ~ rowOffset t' <= Z.max 0 (len (cells t') - capacity t' 10).
Proof.
  eexists. split; [vm_compute; reflexivity|].
  repeat split. vm_compute. intros H. apply H. reflexivity.
Qed.

(** C3.  The columns a paint evicts all have an index of at least the
    fixed-column count and are no longer among the accepted ones; and when
    the candidate column is itself a fixed column while the running width
    has reached the available width, the scan stops at once, its state
    untouched. *)
Theorem eviction_spares_fixed_columns t w h v :
  lastColumn t < int_max -> layout t w h = Ok v ->
  Forall (fun c => fixedColumns t <= c) (evicted (vScan v))
  /\ (forall c, c ∈ evicted (vScan v) -> c ∉ columns (vScan v))
  /\ (forall fuel t0 column s,
        column < fixedColumns t0 -> w <= wrap (tableWidth s - 1) ->
        evictLoop fuel t0 w column s = Ok (BreakColumnLoop s)).
Proof.
  intros Hl Hv.
  destruct (layout_scan_inv _ _ _ _ Hl Hv) as (k & Hk & (Hw & Hs & He & Hc) & _).
  destruct (prepared_frame t h) as (Hcfg & _).
  apply config_fields in Hcfg as (_ & _ & _ & _ & Hf & _). rewrite Hf in *.
  pose proof (len_nonneg (evicted (vScan v))) as Hn.
  split; [|split].
  - rewrite He. apply Forall_seqZ. intros c Hc'. lia.
  - intros c Hin. rewrite He in Hin. apply elem_of_seqZ in Hin.
    destruct Hc as [[He0 _]|(H0 & Hle & ->)].
    + rewrite He0 in Hin. change (len []) with 0 in Hin. lia.
    + unfold window. rewrite elem_of_app, !elem_of_seqZ. lia.
  - intros fuel t0 column s Hcol Hwidth.
    destruct fuel; cbn [evictLoop];
      destruct (Z.leb_spec w (wrap (tableWidth s - 1))); try lia;
      destruct (Z.ltb_spec column (fixedColumns t0)); try lia; reflexivity.
Qed.

Lemma eviction_spares_fixed_columns_witness :
  exists v,
    layout (SetFixed (SetOffset fullTable 0 2) 0 1) 5 3 = Ok v
    /\ evicted (vScan v) = [1]
    /\ Forall (fun c => 1 <= c) (evicted (vScan v)).
Proof.
  eexists. split; [vm_compute; reflexivity|]. split; [reflexivity|].
  refine (proj1 (eviction_spares_fixed_columns
                   (SetFixed (SetOffset fullTable 0 2) 0 1) 5 3 _ _ _)).
  - vm_compute. reflexivity.
  - vm_compute. reflexivity.
Defined.

Lemma Draw_rows t w h t' :
  Draw t w h = Ok t' ->
  rowOffset t' = rowOffset (clampRowOffset t h)
  /\ trackEnd t' = trackEnd (clampRowOffset t h)
  /\ selectedRow t' = selectedRow t
  /\ visibleRows t' = capacity t h.
Proof.
  intros H. destruct (Draw_layout _ _ _ _ H) as [s (_ & _ & ->)].
  destruct (prepared_frame t h) as (Hc & Hro & Hte & Hvr & _).
  apply config_fields in Hc as (_ & _ & _ & _ & _ & _ & _ & Hsr).
  fields. by rewrite Hro, Hte, Hvr, Hsr.
Qed.



(** ** More on the cell store *)

Lemma SetCell_fuel t row column cell : SetCell t row column cell <> OutOfFuel.
Proof.
  unfold SetCell, make, append, store.
  pose proof (fun A (l : list A) i => index_fuel l i) as Hi.
  repeat match goal with
         | |- context [if ?b then _ else _] => destruct b; cbn [bind]
         | |- context [index ?l ?i] =>
             let E := fresh in
             specialize (Hi _ l i) as E; destruct (index l i); cbn [bind];
             [clear E | discriminate | done]
         end; discriminate.
Qed.

(** X1.  [SetCell] panics on a negative row; on a row past the end of the
    grid when the runtime refuses to make the rows that are missing; and,
    in an existing row, on a negative column and on a column past the end
    of the row when the runtime refuses to make the cells that are
    missing. *)
Theorem SetCell_panics_on_bad_index t row column cell :
  in_int row -> in_int column ->
  row < 0
  \/ (len (cells t) <= row
      /\ maxAlloc < sliceSize * (row + 1 - len (cells t)))
  \/ (0 <= row < len (cells t)
      /\ (column < 0
          \/ (len (default [] (cells t !! Z.to_nat row)) <= column
              /\ maxAlloc
                 < ptrSize
                   * (column + 1 - len (default [] (cells t !! Z.to_nat row)))))) ->
  SetCell t row column cell = Panic.
Proof.
  intros Hr Hc Hbad. pose proof (SetCell_fuel t row column cell) as Hf.
  destruct (SetCell t row column cell) as [t'| |] eqn:E; [|done|done].
  apply SetCell_Ok in E as (Hrow & Hcol & Hl1 & Hl2 & _); [|done|done].
  pose proof (len_nonneg (cells t)).
  pose proof (len_nonneg (default [] (cells t !! Z.to_nat row))).
  unfold sliceSize, ptrSize, maxAlloc in *.
  destruct Hbad as [H1|[[H1 H2]|[H1 [H2|[H2 H3]]]]]; lia.
Qed.

Lemma SetCell_panics_on_bad_index_witness :
  SetCell fullTable 0 (-1) None = Panic
  /\ SetCell NewTable 4611686018427387904 0 None = Panic
  /\ SetCell fullTable 0 4611686018427387904 None = Panic.
Proof.
  split; [|split].
  - apply SetCell_panics_on_bad_index;
      [split; vm_compute; discriminate | split; vm_compute; discriminate |].
    right. right. split; [split; vm_compute; [discriminate | reflexivity]|].
    left. lia.
  - apply SetCell_panics_on_bad_index;
      [split; vm_compute; discriminate | split; vm_compute; discriminate |].
    right. left. split; vm_compute; [discriminate | reflexivity].
  - apply SetCell_panics_on_bad_index;
      [split; vm_compute; discriminate | split; vm_compute; discriminate |].
    right. right. split; [split; vm_compute; [discriminate | reflexivity]|].
    right. split; vm_compute; [discriminate | reflexivity].
Defined.

Lemma grown_length {A} (z : A) (l : list A) i :
  len (grown z l i) = Z.max (len l) (i + 1).
Proof.
  unfold grown, len. rewrite length_app, length_replicate. lia.
Qed.

Lemma grown_lookup {A} (z : A) (l : list A) i (j : nat) :
  grown z l i !! j
  = match l !! j with
    | Some x => Some x
    | None => if decide (Z.of_nat j <= i) then Some z else None
    end.
Proof.
  unfold grown. rewrite lookup_app. destruct (l !! j) eqn:E; [done|].
  apply lookup_ge_None in E. case_decide.
  - apply lookup_replicate_2. unfold len. lia.
  - apply lookup_replicate_None. unfold len. lia.
Qed.

(** X2.  A successful [SetCell(row, column, cell)] grows the grid just as
    far as needed: the grid has [max(len, row+1)] rows, the new rows before
    [row] are empty and the old ones untouched; row [row] has
    [max(rowLen, column+1)] cells, its old cells untouched, the cells
    between its old end and [column] default cells, and [cell] at
    [column]; [lastColumn] becomes [column] if that is larger. *)
Theorem SetCell_grows_as_needed t row column cell t' :
  store_ok t -> SetCell t row column cell = Ok t' ->
  let old := default [] (cells t !! Z.to_nat row) in
  lastColumn t' = Z.max (lastColumn t) column
  /\ len (cells t') = Z.max (len (cells t)) (row + 1)
  /\ (forall i, i <> Z.to_nat row ->
        cells t' !! i
        = match cells t !! i with
          | Some rw => Some rw
          | None => if decide (Z.of_nat i < row) then Some [] else None
          end)
  /\ exists rw, cells t' !! Z.to_nat row = Some rw
       /\ len rw = Z.max (len old) (column + 1)
       /\ forall j, rw !! j
            = if decide (j = Z.to_nat column) then Some cell
              else match old !! j with
                   | Some x => Some x
                   | None => if decide (Z.of_nat j < column)
                             then Some (Some zeroCell) else None
                   end.
Proof.
  intros Hok H. apply SetCell_spec in H as (Hr & Hc & ->); [|done].
  cbn zeta. cbn [cells with_lastColumn with_cells]. unfold setCells. cbn zeta.
  assert (Hlen : (Z.to_nat row < length (grown [] (cells t) row))%nat).
  { pose proof (grown_length [] (cells t) row) as Hg. unfold len in Hg. lia. }
  assert (Hrw : default [] (grown [] (cells t) row !! Z.to_nat row)
                = default [] (cells t !! Z.to_nat row)).
  { rewrite grown_lookup. destruct (cells t !! Z.to_nat row); [done|].
    case_decide; [done | lia]. }
  rewrite Hrw. set (old := default [] (cells t !! Z.to_nat row)).
  split; [reflexivity|]. split; [|split].
  - unfold len at 1. rewrite length_insert. apply grown_length.
  - intros i Hi. rewrite list_lookup_insert_ne by done.
    rewrite grown_lookup. destruct (cells t !! i); [done|].
    repeat case_decide; try done; lia.
  - eexists. split; [by apply list_lookup_insert_eq|]. split.
    + unfold len at 1. rewrite length_insert. apply grown_length.
    + intros j. pose proof (grown_length (Some zeroCell) old column) as Hg.
      unfold len in Hg.
      destruct (decide (j = Z.to_nat column)) as [->|Hne].
      * rewrite list_lookup_insert_eq by lia. done.
      * rewrite list_lookup_insert_ne by done. rewrite grown_lookup.
        destruct (old !! j); [done|]. repeat case_decide; try done; lia.
Qed.

Lemma SetCell_grows_as_needed_witness :
  exists t', SetCell NewTable 2 1 None = Ok t'
    /\ lastColumn t' = 1
    /\ len (cells t') = 3
    /\ cells t' !! 0%nat = Some []
    /\ cells t' !! 2%nat = Some [Some zeroCell; None].
Proof.
  eexists. split; [vm_compute; reflexivity|].
  edestruct (SetCell_grows_as_needed NewTable 2 1 None) as (H0 & H1 & _ & _);
    [apply store_ok_NewTable | vm_compute; reflexivity |].
  split; [exact H0|]. split; [exact H1|]. split; reflexivity.
Defined.

(** X3.  [GetCell] by cases: a row at or past the end gives the default
    cell whatever the column; non-negative indices always give a cell;
    it panics exactly for a negative row, or a negative column in an
    existing row. *)
Theorem GetCell_by_cases t row column :
  (len (cells t) <= row -> GetCell t row column = Ok (Some zeroCell))
  /\ (0 <= row -> 0 <= column ->
      GetCell t row column
      = Ok (content (cells t) (Z.to_nat row) (Z.to_nat column)))
  /\ (GetCell t row column = Panic <->
      row < 0 \/ (row < len (cells t) /\ column < 0))
  /\ GetCell t row column <> OutOfFuel.
Proof.
  split; [|split; [|split]].
  - intros H. unfold GetCell. destruct (Z.leb_spec (len (cells t)) row); [done | lia].
  - apply GetCell_content.
  - apply GetCell_Panic_iff.
  - unfold GetCell. destruct (len (cells t) <=? row); [discriminate|].
    pose proof (index_fuel (cells t) row).
    destruct (index (cells t) row) as [rw| |]; cbn [bind]; try done.
    destruct (len rw <=? column); [discriminate | apply index_fuel].
Qed.

Lemma GetCell_by_cases_witness :
  GetCell fullTable 9 (-4) = Ok (Some zeroCell)
  /\ GetCell fullTable 1 1 = Ok (Some (mkCell "cell" 0 0 0 true)).
Proof.
  destruct (GetCell_by_cases fullTable 9 (-4)) as (H1 & _).
  destruct (GetCell_by_cases fullTable 1 1) as (_ & H2 & _).
  split; [apply H1; vm_compute; discriminate|].
  rewrite H2 by lia. reflexivity.
Defined.

(** The invariant of the grid. *)
Lemma grid_ok_cells t t' :
  cells t' = cells t -> lastColumn t' = lastColumn t -> grid_ok t -> grid_ok t'.
Proof. unfold grid_ok. by intros -> ->. Qed.

Lemma grid_ok_setCells t row column cell :
  0 <= row -> 0 <= column -> grid_ok t ->
  grid_ok (with_lastColumn (Z.max (lastColumn t) column)
             (with_cells (setCells (cells t) row column cell) t)).
Proof.
  intros Hr Hc (Hl & Hall & Hex). unfold grid_ok.
  cbn [cells lastColumn with_lastColumn with_cells]. unfold setCells. cbn zeta.
  set (cs1 := grown [] (cells t) row).
  set (old := default [] (cs1 !! Z.to_nat row)).
  assert (Hcs1 : Forall (fun rw => len rw <= lastColumn t + 1) cs1).
  { unfold cs1, grown. apply Forall_app. split; [done|].
    apply Forall_replicate. change (len []) with 0. lia. }
  assert (Hold : len old <= lastColumn t + 1).
  { unfold old. destruct (cs1 !! Z.to_nat row) as [rw|] eqn:E; cbn [from_option id].
    - rewrite Forall_forall in Hcs1. apply Hcs1. by eapply list_elem_of_lookup_2.
    - change (len []) with 0. lia. }
  assert (Hnew : len (<[Z.to_nat column := cell]> (grown (Some zeroCell) old column))
                 = Z.max (len old) (column + 1)).
  { unfold len at 1. rewrite length_insert. apply grown_length. }
  assert (Hin : (Z.to_nat row < length cs1)%nat).
  { pose proof (grown_length [] (cells t) row) as Hg. unfold len in Hg.
    unfold cs1. lia. }
  split; [lia|]. split.
  - apply Forall_insert.
    + eapply Forall_impl; [exact Hcs1|]. cbn beta. intros; lia.
    + rewrite Hnew. lia.
  - right. destruct (Z.le_gt_cases (column + 1) (lastColumn t + 1)) as [Hle|Hgt].
    + destruct Hex as [Hm1|[rw [Hrw Hlen]]]; [lia|].
      apply list_elem_of_lookup in Hrw as [i Hi].
      destruct (decide (i = Z.to_nat row)) as [->|Hne].
      * eexists. split.
        { apply list_elem_of_lookup. exists (Z.to_nat row).
          by apply list_lookup_insert_eq. }
        rewrite Hnew.
        assert (old = rw) as ->.
        { unfold old, cs1, grown. by rewrite (lookup_app_l_Some _ _ _ _ Hi). }
        lia.
      * exists rw. split; [|lia].
        apply list_elem_of_lookup. exists i.
        rewrite list_lookup_insert_ne by done.
        unfold cs1, grown. by apply lookup_app_l_Some.
    + eexists. split.
      { apply list_elem_of_lookup. exists (Z.to_nat row).
        by apply list_lookup_insert_eq. }
      rewrite Hnew. lia.
Qed.

Lemma life_grid_ok acts : forall t t',
  store_ok t -> grid_ok t -> life acts t = Ok t' -> store_ok t' /\ grid_ok t'.
Proof.
  induction acts as [|a acts IH]; intros t t' Hs Hg Hl.
  - by injection Hl as <-.
  - cbn [life] in Hl. apply bind_Ok in Hl as [t1 [Hp Hl]].
    pose proof (perform_frame _ _ _ Hp) as Hf.
    destruct a;
      try (match type of Hf with
           | _ /\ _ =>
               refine (IH t1 t' _ _ Hl);
               [eapply store_ok_cells; [apply Hf | done]
               |eapply grid_ok_cells; [apply Hf | apply Hf | done]]
           end).
    + cbn [perform] in Hp. apply SetCell_spec in Hp as (Hr & Hc & ->); [|done].
      refine (IH _ t' _ _ Hl);
        [by apply store_ok_setCells | apply grid_ok_setCells; lia || done].
    + cbn [perform] in Hp. injection Hp as <-.
      refine (IH _ t' _ _ Hl); [apply store_ok_Clear|].
      unfold grid_ok, Clear. cbn [cells lastColumn with_lastColumn with_cells].
      split; [lia|]. split; [constructor | by left].
Qed.

(** X4.  In every state a table reaches from [NewTable], the slice lengths
    fit an [int], [lastColumn] is at least -1 and below [int_max], every
    row has at most [lastColumn + 1] cells, and unless [lastColumn] is -1
    some row has exactly that many. *)
Theorem reachable_grid_invariant acts t' :
  life acts NewTable = Ok t' ->
  store_ok t' /\ grid_ok t' /\ lastColumn t' < int_max.
Proof.
  intros Hl.
  destruct (life_grid_ok acts NewTable t') as [Hs Hg];
    [apply store_ok_NewTable | | done |].
  { unfold grid_ok. cbn [cells lastColumn NewTable].
    split; [lia|]. split; [constructor | by left]. }
  split; [done|]. split; [done|].
  destruct Hg as (_ & _ & [->|[rw [Hin Hlen]]]); [unfold int_max; lia|].
  destruct Hs as [_ Hs]. rewrite Forall_forall in Hs. specialize (Hs rw Hin). lia.
Qed.

Lemma reachable_grid_invariant_witness :
  exists t',
    life [ASetCell 0 3 None; ASetCell 2 1 None; ADraw 0 0] NewTable = Ok t'
    /\ lastColumn t' = 3 /\ grid_ok t'.
Proof.
  eexists. split; [vm_compute; reflexivity|]. split; [reflexivity|].
  refine (proj1 (proj2 (reachable_grid_invariant
            [ASetCell 0 3 None; ASetCell 2 1 None; ADraw 0 0] _ _))).
  vm_compute. reflexivity.
Defined.

(** ** More on paint and input *)

Lemma prepared_selectedColumn t h :
  selectedColumn (prepared t h) = Z.max 0 (selectedColumn t).
Proof.
  assert (Hf : selectedColumn (followSelection t h) = selectedColumn t).
  { unfold followSelection, selectionBelow, selectionAbove.
    split_ifs; reflexivity. }
  assert (Hr : forall t0, selectedColumn (clampRowOffset t0 h) = selectedColumn t0).
  { intros t0. unfold clampRowOffset.
    assert (Hf0 : selectedColumn (followSelection t0 h) = selectedColumn t0).
    { unfold followSelection, selectionBelow, selectionAbove.
      split_ifs; reflexivity. }
    rewrite <- Hf0. generalize (followSelection t0 h). intros t1.
    unfold nonNegativeRowOffset, applyTrackEnd, fitTrackEnd.
    split_ifs; reflexivity. }
  unfold prepared.
  set (t1 := clampRowOffset (with_visibleRows (capacity t h) t) h).
  assert (H1 : selectedColumn t1 = selectedColumn t) by (unfold t1; by rewrite Hr).
  rewrite <- H1. generalize t1. intros t2.
  unfold clampColumnOffset. cbn zeta.
  repeat match goal with
         | |- context [if ?b then _ else _] =>
             match b with
             | _ <? _ => destruct (Z.ltb_spec0 _ _)
             | _ => destruct b eqn:?
             end
         end; fields; lia.
Qed.

(** X5.  A paint changes nothing but the offsets, track-end, the selected
    column and the recorded visible-row count: the grid, the settings, the
    fixed counts, [lastColumn], the selected row and the handlers stay as
    they are, a negative selected column becomes 0 and any other stays,
    and the visible-row count becomes the capacity of the viewport. *)
Theorem Draw_changes_only_view_state t w h t' :
  Draw t w h = Ok t' ->
  config t' = config t /\ visibleRows t' = capacity t h
  /\ selectedColumn t' = Z.max 0 (selectedColumn t).
Proof.
  intros H. destruct (Draw_layout _ _ _ _ H) as [s (_ & _ & ->)].
  destruct (prepared_frame t h) as (Hc & _ & _ & Hv & _).
  split; [rewrite <- Hc; reflexivity|]. split; [exact Hv|].
  apply prepared_selectedColumn.
Qed.

Lemma Draw_changes_only_view_state_witness :
  exists t', Draw (SetSelected (SetOffset fullTable 7 7) 1 (-3)) 9 4 = Ok t'
    /\ cells t' = cells fullTable /\ visibleRows t' = 4
    /\ selectedColumn t' = 0.
Proof.
  eexists. split; [vm_compute; reflexivity|].
  edestruct (Draw_changes_only_view_state
               (SetSelected (SetOffset fullTable 7 7) 1 (-3)) 9 4)
    as (H1 & H2 & H3); [vm_compute; reflexivity|].
  split; [|split; [exact H2 | exact H3]]. apply config_fields in H1. apply H1.
Defined.

Lemma InputHandler_calls_sound t ev :
  settings (fst (InputHandler t ev)) = settings t
  /\ (length (snd (InputHandler t ev)) <= 1)%nat
  /\ (snd (InputHandler t ev) <> [] -> fst (InputHandler t ev) = t)
  /\ (forall h key, CallDone h key ∈ snd (InputHandler t ev) ->
        done t = Some h /\ key = evKey ev /\ cancelClass t ev)
  /\ (forall h row column,
        CallSelected h row column ∈ snd (InputHandler t ev) ->
        selected t = Some h /\ evKey ev = KeyEnter
        /\ rowsSelectable t || columnsSelectable t = true
        /\ row = selectedRow t /\ column = selectedColumn t).
Proof.
  unfold InputHandler. cbn zeta.
  destruct (cancels t (evKey ev)) eqn:Ec.
  - apply cancels_cancelClass in Ec.
    destruct (done t) as [d|]; cbn [fst snd length];
      (split; [done|]); (split; [lia|]); (split; [done|]); split.
    + intros h key Hin. apply list_elem_of_singleton in Hin as [= <- <-]. done.
    + intros h row column Hin. apply list_elem_of_singleton in Hin. discriminate.
    + intros h key Hin. by apply elem_of_nil in Hin.
    + intros h row column Hin. by apply elem_of_nil in Hin.
  - clear Ec.
    assert (Hmove : forall f : Table -> Table,
      settings (f t) = settings t ->
      settings (fst (f t, @nil call)) = settings t
      /\ (length (snd (f t, @nil call)) <= 1)%nat
      /\ (snd (f t, @nil call) <> [] -> fst (f t, @nil call) = t)
      /\ (forall h key, CallDone h key ∈ snd (f t, @nil call) ->
            done t = Some h /\ key = evKey ev /\ cancelClass t ev)
      /\ (forall h row column,
            CallSelected h row column ∈ snd (f t, @nil call) ->
            selected t = Some h /\ evKey ev = KeyEnter
            /\ rowsSelectable t || columnsSelectable t = true
            /\ row = selectedRow t /\ column = selectedColumn t)).
    { intros f Hf. cbn [fst snd length]. split; [done|]. split; [lia|].
      split; [done|]. split; intros; by apply elem_of_nil in H. }
    assert (Hhome : settings (home t) = settings t)
      by (unfold home, settings; split_ifs; congruence).
    assert (Hend : settings (end_ t) = settings t)
      by (unfold end_, settings; split_ifs; congruence).
    assert (Hdown : settings (down t) = settings t)
      by (unfold down, settings; cbn zeta; split_ifs; congruence).
    assert (Hup : settings (up t) = settings t)
      by (unfold up, settings; cbn zeta; split_ifs; congruence).
    assert (Hleft : settings (left t) = settings t)
      by (unfold left, settings; cbn zeta; split_ifs; congruence).
    assert (Hright : settings (right t) = settings t)
      by (unfold right, settings; cbn zeta; split_ifs; congruence).
    assert (HpageDown : settings (pageDown t) = settings t)
      by (unfold pageDown, settings; cbn zeta; split_ifs; congruence).
    assert (HpageUp : settings (pageUp t) = settings t)
      by (unfold pageUp, settings; cbn zeta; split_ifs; congruence).
    assert (Hid : settings ((fun t => t) t) = settings t) by reflexivity.
    destruct (evKey ev) eqn:Ek;
      repeat match goal with
             | |- context [if ?b then _ else _] =>
                 lazymatch b with
                 | (_ =? _) => destruct b
                 end
             end;
      try (by apply Hmove); try (by apply (Hmove (fun t => t))).
    destruct (selected t) as [h0|]; [|by apply (Hmove (fun t => t))].
    destruct (rowsSelectable t || columnsSelectable t) eqn:Es;
      [|by apply (Hmove (fun t => t))].
    cbn [fst snd length]. split; [done|]. split; [lia|]. split; [done|]. split.
    + intros h key Hin. apply list_elem_of_singleton in Hin. discriminate.
    + intros h row column Hin. apply list_elem_of_singleton in Hin as [= <- <- <-].
      done.
Qed.

(** X6.  Handling an event changes nothing but the selection, the offsets
    and track-end.  A cancel-class event calls the registered [done]
    handler with the key of the event; Enter while something is selectable
    calls the registered [selected] handler with the selected row and
    column; every other event, and either of these without its handler,
    calls nothing.  So there is at most one call per event, and where
    there is one the handling itself changes no field of the table. *)
Theorem InputHandler_calls_and_frame t ev :
  settings (fst (InputHandler t ev)) = settings t
  /\ (length (snd (InputHandler t ev)) <= 1)%nat
  /\ (snd (InputHandler t ev) <> [] -> fst (InputHandler t ev) = t)
  /\ (cancelClass t ev ->
      snd (InputHandler t ev)
      = match done t with
        | Some h => [CallDone h (evKey ev)]
        | None => []
        end)
  /\ (evKey ev = KeyEnter -> rowsSelectable t || columnsSelectable t = true ->
      snd (InputHandler t ev)
      = match selected t with
        | Some h => [CallSelected h (selectedRow t) (selectedColumn t)]
        | None => []
        end)
  /\ (~ cancelClass t ev -> evKey ev <> KeyEnter ->
      snd (InputHandler t ev) = []).
Proof.
  destruct (InputHandler_calls_sound t ev) as (H1 & H2 & H3 & _).
  split; [done|]. split; [done|]. split; [done|].
  split; [|split].
  - intros Hc. apply cancels_cancelClass in Hc.
    unfold InputHandler. cbn zeta. rewrite Hc. by destruct (done t).
  - intros Hk Hs. unfold InputHandler. cbn zeta. rewrite Hk.
    assert (Hc : cancels t KeyEnter = false).
    { unfold cancels. destruct (rowsSelectable t), (columnsSelectable t);
        done. }
    rewrite Hc, Hs. by destruct (selected t).
  - intros Hn Hk.
    assert (Hc : cancels t (evKey ev) = false).
    { destruct (cancels t (evKey ev)) eqn:E; [|done].
      apply cancels_cancelClass in E. done. }
    unfold InputHandler. cbn zeta. rewrite Hc.
    destruct (evKey ev); try done;
      repeat match goal with
             | |- context [if ?b then _ else _] => destruct b
             end; reflexivity.
Qed.

Lemma InputHandler_calls_and_frame_witness :
  snd (InputHandler (SetSelectedFunc (SetSelectable NewTable true false)
                       (Some 3%nat)) (mkEvent KeyEnter 0))
  = [CallSelected 3%nat 0 0]
  /\ snd (InputHandler (SetDoneFunc NewTable (Some 5%nat)) (mkEvent KeyTab 0))
     = [CallDone 5%nat KeyTab]
  /\ snd (InputHandler NewTable (mkEvent KeyDown 0)) = [].
Proof.
  split; [|split].
  - destruct (InputHandler_calls_and_frame
                (SetSelectedFunc (SetSelectable NewTable true false) (Some 3%nat))
                (mkEvent KeyEnter 0)) as (_ & _ & _ & _ & H & _).
    apply (H eq_refl eq_refl).
  - destruct (InputHandler_calls_and_frame
                (SetDoneFunc NewTable (Some 5%nat)) (mkEvent KeyTab 0))
      as (_ & _ & _ & H & _).
    apply H. right. left. reflexivity.
  - destruct (InputHandler_calls_and_frame NewTable (mkEvent KeyDown 0))
      as (_ & _ & _ & _ & _ & H).
    apply H; [|discriminate].
    intros [H0|[H0|[H0|[H0 _]]]]; discriminate.
Defined.

Lemma clampRowOffset_unselectable t h :
  rowsSelectable t = false ->
  small (len (cells t)) -> small (rowOffset t) -> small h ->
  rowOffset (clampRowOffset t h)
  = (if trackEnd t then Z.max 0 (len (cells t) - capacity t h)
     else Z.max 0 (Z.min (rowOffset t) (len (cells t) - capacity t h)))
  /\ trackEnd (clampRowOffset t h) = trackEnd t || fits t h.
Proof.
  intros Hs H1 H4 H5. pose proof (len_nonneg (cells t)) as Hlen.
  assert (Hq : 2 * (h `quot` 2) <= h + 1 /\ h - 1 <= 2 * (h `quot` 2)
               /\ -1152921504606846976 <= h `quot` 2 <= 1152921504606846976)
    by (unfold small in *; Z.to_euclidean_division_equations; lia).
  unfold clampRowOffset, followSelection. rewrite Hs.
  unfold nonNegativeRowOffset, applyTrackEnd, fitTrackEnd, fits, capacity.
  destruct (borders t) eqn:Eb.
  - rewrite (wrap_id (len (cells t) - rowOffset t))
      by (unfold in_int, int_min, int_max, small in *; lia).
    rewrite (wrap_id (2 * _))
      by (unfold in_int, int_min, int_max, small in *; lia).
    destruct (Z.ltb_spec (2 * (len (cells t) - rowOffset t)) h); fields;
      rewrite ?Eb; fields.
    + rewrite wrap_id by (unfold in_int, int_min, int_max, small in *; lia).
      rewrite orb_true_r.
      destruct (Z.ltb_spec (len (cells t) - h `quot` 2) 0); fields;
        destruct (trackEnd t); split; try done; lia.
    + rewrite orb_false_r. destruct (trackEnd t) eqn:Et; rewrite ?Eb; fields.
      * rewrite wrap_id by (unfold in_int, int_min, int_max, small in *; lia).
        destruct (Z.ltb_spec (len (cells t) - h `quot` 2) 0); fields;
          split; try done; lia.
      * destruct (Z.ltb_spec (rowOffset t) 0); fields; split; try done; lia.
  - rewrite (wrap_id (len (cells t) - rowOffset t))
      by (unfold in_int, int_min, int_max, small in *; lia).
    destruct (Z.ltb_spec (len (cells t) - rowOffset t) h); fields;
      rewrite ?Eb; fields.
    + rewrite wrap_id by (unfold in_int, int_min, int_max, small in *; lia).
      rewrite orb_true_r.
      destruct (Z.ltb_spec (len (cells t) - h) 0); fields;
        destruct (trackEnd t); split; try done; lia.
    + rewrite orb_false_r. destruct (trackEnd t) eqn:Et; rewrite ?Eb; fields.
      * rewrite wrap_id by (unfold in_int, int_min, int_max, small in *; lia).
        destruct (Z.ltb_spec (len (cells t) - h) 0); fields;
          split; try done; lia.
      * destruct (Z.ltb_spec (rowOffset t) 0); fields; split; try done; lia.
Qed.

(** X7.  Without row selection a paint clamps the row offset: with
    track-end on it becomes [max(0, rowCount - capacity)], the offset that
    puts the last row on the last full line; with track-end off the
    requested offset is brought into [[0, max(0, rowCount - capacity)]].
    Track-end is on afterwards if it was on or the rows from the requested
    offset on do not fill the viewport. *)
Theorem paint_clamps_row_offset_without_selection t w h t' :
  rowsSelectable t = false ->
  small (len (cells t)) -> small (rowOffset t) -> small h ->
  Draw t w h = Ok t' ->
  rowOffset t'
  = (if trackEnd t then Z.max 0 (len (cells t) - capacity t h)
     else Z.max 0 (Z.min (rowOffset t) (len (cells t) - capacity t h)))
  /\ trackEnd t' = trackEnd t || fits t h.
Proof.
  intros Hs H1 H4 H5 H.
  destruct (Draw_rows _ _ _ _ H) as (-> & -> & _).
  by apply clampRowOffset_unselectable.
Qed.

Lemma paint_clamps_row_offset_without_selection_witness :
  exists t', Draw (SetOffset (with_trackEnd false fullTable) 9 0) 20 3 = Ok t'
    /\ rowOffset t' = 2 /\ trackEnd t' = true.
Proof.
  eexists. split; [vm_compute; reflexivity|].
  assert (Hs : small 5 /\ small 9 /\ small 3)
    by (repeat split; vm_compute; discriminate).
  destruct Hs as (H1 & H2 & H3).
  pose proof (paint_clamps_row_offset_without_selection
                (SetOffset (with_trackEnd false fullTable) 9 0) 20 3 _
                eq_refl H1 H2 H3 ltac:(vm_compute; reflexivity)) as H.
  vm_compute in H. vm_compute. exact H.
Defined.

(** X8.  Home and End, then a paint, on a table without row selection:
    after Home the paint shows the table from its first scrollable row
    (row offset 0), and track-end is on again exactly when all the rows
    fit the viewport; after End it shows the last row on the last full
    line (row offset [max(0, rowCount - capacity)]) and keeps following
    the end. *)
Theorem home_and_end_then_paint t w h t' :
  rowsSelectable t = false -> small (len (cells t)) -> small h ->
  (Draw (fst (InputHandler t (mkEvent KeyHome 0))) w h = Ok t' ->
   rowOffset t' = 0
   /\ trackEnd t' = (if borders t then 2 * len (cells t) <? h
                     else len (cells t) <? h))
  /\ (Draw (fst (InputHandler t (mkEvent KeyEnd 0))) w h = Ok t' ->
      small (rowOffset t) ->
      rowOffset t' = Z.max 0 (len (cells t) - capacity t h)
      /\ trackEnd t' = true).
Proof.
  intros Hs H1 H5. split.
  - intros H. destruct (Draw_rows _ _ _ _ H) as (-> & -> & _).
    change (fst (InputHandler t (mkEvent KeyHome 0))) with (home t).
    unfold home. rewrite Hs.
    edestruct (clampRowOffset_unselectable
                 (with_columnOffset 0 (with_rowOffset 0 (with_trackEnd false t))) h)
      as [Hr Ht];
      [first [fields; done | unfold small; fields; lia] ..|].
    rewrite Hr, Ht. unfold fits. fields. split.
    + assert (Hq : 2 * (h `quot` 2) <= h + 1 /\ h - 1 <= 2 * (h `quot` 2))
        by (Z.to_euclidean_division_equations; lia).
      pose proof (len_nonneg (cells t)). unfold capacity. fields. lia.
    + cbn [orb]. by rewrite !Z.sub_0_r.
  - intros H H4. destruct (Draw_rows _ _ _ _ H) as (-> & -> & _).
    change (fst (InputHandler t (mkEvent KeyEnd 0))) with (end_ t).
    unfold end_. rewrite Hs.
    edestruct (clampRowOffset_unselectable
                 (with_columnOffset 0 (with_trackEnd true t)) h)
      as [Hr Ht];
      [first [fields; done | unfold small; fields; lia] ..|].
    rewrite Hr, Ht. fields. done.
Qed.

Lemma home_and_end_then_paint_witness :
  exists t1 t2,
    Draw (fst (InputHandler (SetOffset fullTable 3 0) (mkEvent KeyHome 0))) 20 3
    = Ok t1
    /\ Draw (fst (InputHandler (SetOffset fullTable 3 0) (mkEvent KeyEnd 0))) 20 3
       = Ok t2
    /\ rowOffset t1 = 0 /\ rowOffset t2 = 2.
Proof.
  eexists _, _. split; [vm_compute; reflexivity|].
  split; [vm_compute; reflexivity|].
  split.
  - edestruct (home_and_end_then_paint (SetOffset fullTable 3 0) 20 3)
      as [H1 _]; [reflexivity | split; vm_compute; discriminate ..|].
    apply H1. vm_compute. reflexivity.
  - edestruct (home_and_end_then_paint (SetOffset fullTable 3 0) 20 3)
      as [_ H2]; [reflexivity | split; vm_compute; discriminate ..|].
    apply H2; [vm_compute; reflexivity | split; vm_compute; discriminate].
Defined.

Lemma clampRowOffset_selection_above t h :
  rowsSelectable t = true -> modest t h ->
  fixedRows t <= selectedRow t < fixedRows t + rowOffset t ->
  roomBelowFixed t h ->
  fits (with_rowOffset (selectedRow t - fixedRows t) t) h = false ->
  rowOffset (clampRowOffset t h) = selectedRow t - fixedRows t
  /\ trackEnd (clampRowOffset t h) = false.
Proof.
  intros Hs (H1 & H2 & H3 & H4 & H5) Hsel Hroom Hfit.
  pose proof (len_nonneg (cells t)) as Hlen.
  assert (Ha : selectionAbove t
               = with_trackEnd false
                   (with_rowOffset (selectedRow t - fixedRows t) t)).
  { unfold selectionAbove. nowrap.
    destruct (Z.leb_spec (fixedRows t) (selectedRow t)); [|lia].
    destruct (Z.ltb_spec (selectedRow t) (fixedRows t + rowOffset t)); [|lia].
    reflexivity. }
  unfold clampRowOffset, followSelection. rewrite Hs, Ha.
  unfold roomBelowFixed, fits in *. fields.
  assert (Hb : selectionBelow
                 (with_trackEnd false
                    (with_rowOffset (selectedRow t - fixedRows t) t)) h
               = with_trackEnd false
                   (with_rowOffset (selectedRow t - fixedRows t) t)).
  { unfold selectionBelow. fields. destruct (borders t); nowrap.
    - destruct (Z.leb_spec h (2 * (selectedRow t + 1 - (selectedRow t - fixedRows t))));
        [lia | reflexivity].
    - destruct (Z.leb_spec h (selectedRow t + 1 - (selectedRow t - fixedRows t)));
        [lia | reflexivity]. }
  rewrite Hb.
  unfold nonNegativeRowOffset, applyTrackEnd, fitTrackEnd. fields.
  destruct (borders t); nowrap; rewrite Hfit; fields;
    (destruct (Z.ltb_spec (selectedRow t - fixedRows t) 0); [lia|]);
    fields; done.
Qed.

(** X9.  With rows selectable, when the selected row is a scrollable row
    above the offset window, there is room for a row below the fixed rows,
    and the rows from the selected one on fill the viewport, the paint
    pulls the offset down to [selectedRow - fixedRows], which makes the
    selected row the first scrollable row shown, and turns track-end off. *)
Theorem paint_scrolls_up_to_selected_row t w h t' :
  rowsSelectable t = true -> modest t h ->
  fixedRows t <= selectedRow t < fixedRows t + rowOffset t ->
  roomBelowFixed t h ->
  fits (with_rowOffset (selectedRow t - fixedRows t) t) h = false ->
  Draw t w h = Ok t' ->
  rowOffset t' = selectedRow t - fixedRows t /\ trackEnd t' = false
  /\ selectedRow t' = selectedRow t.
Proof.
  intros Hs Hm Hsel Hroom Hfit H.
  destruct (Draw_rows _ _ _ _ H) as (-> & -> & -> & _).
  destruct (clampRowOffset_selection_above t h Hs Hm Hsel Hroom Hfit) as [-> ->].
  done.
Qed.

Lemma paint_scrolls_up_to_selected_row_witness :
  exists t',
    Draw (SetOffset (SetSelected (SetSelectable fullTable true false) 1 0) 2 0)
      20 3 = Ok t'
    /\ rowOffset t' = 1 /\ trackEnd t' = false /\ selectedRow t' = 1.
Proof.
  eexists. split; [vm_compute; reflexivity|].
  assert (Hm : modest
    (SetOffset (SetSelected (SetSelectable fullTable true false) 1 0) 2 0) 3)
    by (repeat split; vm_compute; discriminate).
  pose proof (paint_scrolls_up_to_selected_row
    (SetOffset (SetSelected (SetSelectable fullTable true false) 1 0) 2 0)
    20 3 _ eq_refl Hm
    ltac:(split; vm_compute; [discriminate | reflexivity])
    ltac:(vm_compute; reflexivity) ltac:(vm_compute; reflexivity)
    ltac:(vm_compute; reflexivity)) as H.
  vm_compute in H. vm_compute. exact H.
Defined.

(** ** The visible rows *)

Lemma indexRows_take h step cands : forall rs,
  (step = 1 \/ step = 2) -> h <= int_max - 2 ->
  tableHeight rs = step * len (rows rs) ->
  let l := Z.to_nat ((h + step - 1) `div` step) in
  rows (indexRows h step cands rs)
  = rows rs ++ take (l - length (rows rs)) cands
  /\ tableHeight (indexRows h step cands rs)
     = step * len (rows (indexRows h step cands rs)).
Proof.
  induction cands as [|row cands IH]; intros rs Hstep Hh Hth; cbn zeta.
  - cbn [indexRows]. rewrite take_nil, app_nil_r. done.
  - cbn [indexRows]. unfold indexRow.
    pose proof (len_nonneg (rows rs)) as Hn.
    assert (Hlines : tableHeight rs < h <->
                     (length (rows rs) < Z.to_nat ((h + step - 1) `div` step))%nat).
    { rewrite Hth. unfold len in *.
      destruct Hstep as [-> | ->]; Z.to_euclidean_division_equations; lia. }
    destruct (Z.leb_spec h (tableHeight rs)) as [Hfull|Hroom].
    + replace (Z.to_nat ((h + step - 1) `div` step) - length (rows rs))%nat
        with 0%nat by lia.
      cbn [take]. rewrite app_nil_r. done.
    + apply Hlines in Hroom as Hlt.
      specialize (IH (mkRowScan (rows rs ++ [row]) (wrap (tableHeight rs + step)))).
      cbn zeta in IH. cbn [rows tableHeight] in IH.
      destruct IH as [IH1 IH2]; [done | done | |].
      { rewrite wrap_id by (unfold in_int, int_min, int_max in *; lia).
        unfold len in *. rewrite length_app. cbn [length]. lia. }
      split; [|exact IH2]. rewrite IH1, <- app_assoc. f_equal.
      rewrite length_app. cbn [length].
      replace (Z.to_nat ((h + step - 1) `div` step) - length (rows rs))%nat
        with (S (Z.to_nat ((h + step - 1) `div` step) - (length (rows rs) + 1)))%nat
        by lia.
      reflexivity.
Qed.

Lemma visibleRowList_take t h :
  h <= int_max - 2 ->
  visibleRowList t h = take (Z.to_nat (lineCount t h)) (rowCandidates t).
Proof.
  intros Hh. unfold visibleRowList, lineCount, rowCandidates. cbn zeta.
  set (step := if borders t then 2 else 1).
  assert (Hstep : step = 1 \/ step = 2) by (unfold step; destruct (borders t); auto).
  assert (Hl : (if borders t then (h + 1) `div` 2 else h)
               = (h + step - 1) `div` step).
  { unfold step. destruct (borders t); [f_equal; lia|].
    replace (h + 1 - 1) with h by lia. by rewrite Z.div_1_r. }
  rewrite Hl.
  set (c1 := upTo 0 (Z.min (fixedRows t) (len (cells t)))).
  set (c2 := upTo (wrap (fixedRows t + rowOffset t)) (len (cells t))).
  destruct (indexRows_take h step c1 (mkRowScan [] 0) Hstep Hh) as [H1 H2].
  { cbn [rows tableHeight]. change (len []) with 0. lia. }
  cbn [rows length] in H1. rewrite app_nil_l, Nat.sub_0_r in H1.
  destruct (indexRows_take h step c2 (indexRows h step c1 (mkRowScan [] 0))
              Hstep Hh H2) as [H3 _].
  rewrite H3, H1, take_app. f_equal. f_equal.
  rewrite length_take. lia.
Qed.

(** X10.  The rows of a paint are the first [lineCount] of the fixed rows
    followed by the rows from [fixedRows + rowOffset] on, with the row
    offset the paint ends with: as many rows as begin inside the viewport,
    one line each without borders and two with them. *)
Theorem visible_rows_are_a_prefix_of_the_candidates t w h v :
  h <= int_max - 2 -> layout t w h = Ok v ->
  vRows v = take (Z.to_nat (lineCount t h)) (rowCandidates (vTable v))
  /\ (len (vRows v) <= Z.max 0 (lineCount t h))
  /\ Forall (fun row => row < len (cells t)) (vRows v).
Proof.
  intros Hh Hv. apply layout_Ok in Hv as [s [_ ->]]. cbn [vRows vTable].
  destruct (prepared_frame t h) as (Hc & _).
  apply config_fields in Hc as (Hb & Hcells & _ & Hf & _).
  assert (Hcand : rowCandidates (with_columnOffset (skipped s) (prepared t h))
                  = rowCandidates (prepared t h)) by reflexivity.
  assert (Hlc : lineCount (prepared t h) h = lineCount t h).
  { unfold lineCount. by rewrite Hb. }
  change (clampColumnOffset (clampRowOffset (with_visibleRows (capacity t h) t) h))
    with (prepared t h).
  rewrite Hcand, visibleRowList_take, Hlc by done.
  split; [done|]. split.
  - unfold len. rewrite length_take. lia.
  - apply Forall_take. unfold rowCandidates. rewrite Hcells.
    apply Forall_app. unfold upTo. split; apply Forall_seqZ; intros; lia.
Qed.

Lemma visible_rows_are_a_prefix_of_the_candidates_witness :
  exists v, layout (SetFixed (SetOffset fullTable 9 0) 1 0) 20 3 = Ok v
    /\ vRows v = [0; 3; 4].
Proof.
  eexists. split; [vm_compute; reflexivity|].
  pose proof (visible_rows_are_a_prefix_of_the_candidates
                (SetFixed (SetOffset fullTable 9 0) 1 0) 20 3 _
                ltac:(vm_compute; discriminate)
                ltac:(vm_compute; reflexivity)) as [H _].
  vm_compute in H. exact H.
Defined.

Lemma clampRowOffset_window t h :
  rowsSelectable t = true -> trackEnd t = false -> modest t h ->
  0 <= fixedRows t <= selectedRow t -> selectedRow t < len (cells t) ->
  fixedRows t + 1 <= capacity t h ->
  0 <= rowOffset (clampRowOffset t h)
  /\ selectedRow t + 1 - capacity t h <= rowOffset (clampRowOffset t h)
     <= selectedRow t - fixedRows t.
Proof.
  intros Hs Ht (H1 & H2 & H3 & H4 & H5) Hf Hlt Hroom.
  pose proof (len_nonneg (cells t)) as Hlen.
  assert (Hq : 2 * (h `quot` 2) <= h + 1 /\ h - 1 <= 2 * (h `quot` 2)
               /\ -1152921504606846976 <= h `quot` 2 <= 1152921504606846976)
    by (unfold small in *; Z.to_euclidean_division_equations; lia).
  (* above *)
  assert (Ha :
    selectionAbove t
    = with_trackEnd false (with_rowOffset (rowOffset (selectionAbove t)) t)
    /\ rowOffset (selectionAbove t) <= selectedRow t - fixedRows t
    /\ -2305843009213693952 <= rowOffset (selectionAbove t)).
  { unfold selectionAbove. nowrap.
    destruct (Z.leb_spec (fixedRows t) (selectedRow t)); [|lia].
    destruct (Z.ltb_spec (selectedRow t) (fixedRows t + rowOffset t));
      cbn [andb]; fields.
    - split; [reflexivity|]. unfold small in *. lia.
    - split; [|unfold small in *; lia].
      destruct t; cbn in Ht; subst; reflexivity. }
  destruct Ha as (Ea & Hr1 & Hr1').
  set (r1 := rowOffset (selectionAbove t)) in *.
  (* below *)
  assert (Hb :
    selectionBelow (selectionAbove t) h
    = with_trackEnd false
        (with_rowOffset (rowOffset (selectionBelow (selectionAbove t) h)) t)
    /\ selectedRow t + 1 - capacity t h
       <= rowOffset (selectionBelow (selectionAbove t) h)
       <= selectedRow t - fixedRows t).
  { rewrite Ea. unfold selectionBelow, capacity in *. fields.
    destruct (borders t); nowrap.
    - destruct (Z.leb_spec h (2 * (selectedRow t + 1 - r1))); fields;
        (split; [reflexivity | lia]).
    - destruct (Z.leb_spec h (selectedRow t + 1 - r1)); fields;
        (split; [reflexivity | lia]). }
  destruct Hb as (Eb & Hr2).
  set (r2 := rowOffset (selectionBelow (selectionAbove t) h)) in *.
  unfold clampRowOffset, followSelection. rewrite Hs, Eb.
  unfold nonNegativeRowOffset, applyTrackEnd, fitTrackEnd, capacity in *. fields.
  destruct (borders t) eqn:Ebo; nowrap.
  - destruct (Z.ltb_spec (2 * (len (cells t) - r2)) h); fields; rewrite ?Ebo; fields.
    + nowrap. destruct (Z.ltb_spec (len (cells t) - h `quot` 2) 0); fields; lia.
    + destruct (Z.ltb_spec r2 0); fields; lia.
  - destruct (Z.ltb_spec (len (cells t) - r2) h); fields; rewrite ?Ebo; fields.
    + nowrap. destruct (Z.ltb_spec (len (cells t) - h) 0); fields; lia.
    + destruct (Z.ltb_spec r2 0); fields; lia.
Qed.

(** X11.  With rows selectable and track-end off, a paint leaves an
    existing, scrollable selected row among the rows it shows, provided the
    viewport has a full line left below the fixed rows. *)
Theorem paint_keeps_selected_row_in_view t w h v :
  rowsSelectable t = true -> trackEnd t = false -> modest t h ->
  0 <= fixedRows t <= selectedRow t -> selectedRow t < len (cells t) ->
  fixedRows t + 1 <= capacity t h ->
  layout t w h = Ok v ->
  selectedRow t ∈ vRows v.
Proof.
  intros Hs Ht Hm Hf Hlt Hroom Hv.
  pose proof Hm as (H1 & H2 & H3 & H4 & H5).
  pose proof (len_nonneg (cells t)) as Hlen.
  destruct (clampRowOffset_window t h Hs Ht Hm Hf Hlt Hroom) as [Hr0 Hr].
  apply layout_Ok in Hv as [s [_ ->]]. cbn [vRows].
  change (clampColumnOffset (clampRowOffset (with_visibleRows (capacity t h) t) h))
    with (prepared t h).
  rewrite visibleRowList_take by (unfold small, int_max in *; lia).
  destruct (prepared_frame t h) as (Hc & Hro & _).
  apply config_fields in Hc as (Hb & Hcells & _ & Hfr & _).
  unfold rowCandidates, lineCount. rewrite Hb, Hcells, Hfr, Hro.
  set (r := rowOffset (clampRowOffset t h)) in *.
  rewrite wrap_id by (unfold in_int, int_min, int_max, small in *; lia).
  apply list_elem_of_lookup. exists (Z.to_nat (selectedRow t - r)).
  assert (Hcap : capacity t h <= (if borders t then (h + 1) `div` 2 else h)).
  { unfold capacity. destruct (borders t); [|lia].
    Z.to_euclidean_division_equations; lia. }
  rewrite lookup_take_lt by lia.
  unfold upTo. replace (Z.min (fixedRows t) (len (cells t))) with (fixedRows t) by lia.
  rewrite lookup_app_r by (rewrite length_seqZ; lia).
  rewrite length_seqZ. apply lookup_seqZ. split; lia.
Qed.

Lemma paint_keeps_selected_row_in_view_witness :
  exists v,
    layout (SetSelected (SetSelectable (with_trackEnd false fullTable) true false)
              4 0) 20 2 = Ok v
    /\ 4 ∈ vRows v.
Proof.
  eexists. split; [vm_compute; reflexivity|].
  assert (Hm : modest
    (SetSelected (SetSelectable (with_trackEnd false fullTable) true false) 4 0) 2)
    by (repeat split; vm_compute; discriminate).
  apply (paint_keeps_selected_row_in_view
    (SetSelected (SetSelectable (with_trackEnd false fullTable) true false) 4 0)
    20 2 _ eq_refl eq_refl Hm).
  - split; vm_compute; discriminate.
  - vm_compute. reflexivity.
  - vm_compute. discriminate.
  - vm_compute. reflexivity.
Defined.

(** ** The visible columns *)





(** ** Cells a paint touches *)

Lemma getCell_Some t row column c :
  getCell t row column = Ok (Some c) ->
  0 <= row /\ 0 <= column
  /\ exists rw, cells t !! Z.to_nat row = Some rw
       /\ rw !! Z.to_nat column = Some (Some c).
Proof.
  unfold getCell. destruct (len (cells t) <=? row); [discriminate|].
  intros H. apply bind_Ok in H as [rw [Hrw H]].
  apply index_Ok in Hrw as [Hr Hrw].
  destruct (len rw <=? column); [discriminate|].
  apply index_Ok in H as [Hc H]. eauto.
Qed.

Lemma drawColumn_Ok t h column rs : forall rowY,
  drawColumn t h column rowY rs = Ok tt ->
  forall (i : nat) row, rs !! i = Some row ->
    (borders t = true -> 2 * (rowY + Z.of_nat i) + 1 < h) ->
    exists c, getCell t row column = Ok (Some c).
Proof.
  induction rs as [|r rs IH]; intros rowY H i row Hi Hb; [by rewrite lookup_nil in Hi|].
  cbn [drawColumn] in H.
  destruct (borders t && (h <=? 2 * rowY + 1)) eqn:E.
  - apply andb_true_iff in E as [E1 E2]. apply Z.leb_le in E2.
    specialize (Hb E1). lia.
  - apply bind_Ok in H as [cell [Hg H]]. destruct cell as [c|]; [|discriminate].
    destruct i as [|i]; cbn in Hi.
    + injection Hi as <-. eauto.
    + apply (IH (rowY + 1) H i row Hi). intros Eb. specialize (Hb Eb). lia.
Qed.

Lemma drawCells_Ok t h rs cols :
  drawCells t h rs cols = Ok tt ->
  forall column, column ∈ cols ->
    drawColumn t h column 0 rs = Ok tt.
Proof.
  induction cols as [|c cols IH]; intros H column Hin; [by apply elem_of_nil in Hin|].
  cbn [drawCells] in H. apply bind_Ok in H as [[] [Hc H]].
  apply elem_of_cons in Hin as [->|Hin]; [done | by apply IH].
Qed.

(** X14.  A paint that returns has found a cell that is not nil at every
    position it draws: every accepted column of every visible row, up to
    the rows whose text line a bordered viewport cuts off. *)
Theorem painted_positions_hold_cells t w h t' :
  Draw t w h = Ok t' ->
  exists v, layout t w h = Ok v /\
    forall column (i : nat) row,
      column ∈ columns (vScan v) -> vRows v !! i = Some row ->
      (borders t = true -> 2 * Z.of_nat i + 1 < h) ->
      0 <= row /\ 0 <= column
      /\ exists rw c, cells t !! Z.to_nat row = Some rw
           /\ rw !! Z.to_nat column = Some (Some c).
Proof.
  intros H. pose proof (Draw_cells _ _ _ _ H) as Hcells.
  pose proof (Draw_changes_nothing := Draw_layout _ _ _ _ H).
  apply Draw_Ok in H as [v (Hv & <- & Hd)].
  exists v. split; [done|]. intros column i row Hc Hi Hb.
  pose proof (drawCells_Ok _ _ _ _ Hd column Hc) as Hcol.
  assert (Hbo : borders (vTable v) = borders t).
  { destruct Draw_changes_nothing as [s (_ & _ & ->)].
    destruct (prepared_frame t h) as (Hcfg & _).
    apply config_fields in Hcfg as (Hbo & _). exact Hbo. }
  destruct (drawColumn_Ok _ _ _ _ 0 Hcol i row Hi) as [c Hg].
  { rewrite Hbo. intros Eb. specialize (Hb Eb). lia. }
  apply getCell_Some in Hg as (Hr & Hcn & rw & Hrw & Hcell).
  rewrite Hcells in Hrw. eauto 10.
Qed.

Lemma painted_positions_hold_cells_witness :
  exists t', Draw fullTable 20 3 = Ok t'
    /\ exists v, layout fullTable 20 3 = Ok v /\ 2 ∈ columns (vScan v).
Proof.
  eexists. split; [vm_compute; reflexivity|].
  destruct (painted_positions_hold_cells fullTable 20 3 _
              ltac:(vm_compute; reflexivity)) as (v & Hv & _).
  exists v. split; [exact Hv|].
  vm_compute in Hv. injection Hv as <-. vm_compute.
  apply elem_of_cons. right. apply elem_of_cons. right. apply elem_of_cons. by left.
Defined.

(** ** A paint that cannot panic *)

Lemma getCell_total t row column :
  0 <= row < len (cells t) -> 0 <= column ->
  exists c, getCell t row column = Ok c.
Proof.
  intros Hr Hc. unfold getCell, index.
  destruct (Z.leb_spec (len (cells t)) row); [lia|].
  destruct (Z.ltb_spec row 0); [lia|].
  destruct (lookup_lt_is_Some_2 (cells t) (Z.to_nat row)) as [rw Hrw];
    [unfold len in *; lia|].
  rewrite Hrw. cbn [bind].
  destruct (Z.leb_spec (len rw) column); [eauto|].
  destruct (Z.ltb_spec column 0); [lia|].
  destruct (lookup_lt_is_Some_2 rw (Z.to_nat column)) as [x Hx];
    [unfold len in *; lia|].
  rewrite Hx. eauto.
Qed.

Lemma getCell_full t row column :
  full t -> 0 <= row < len (cells t) -> 0 <= column <= lastColumn t ->
  exists c, getCell t row column = Ok (Some c).
Proof.
  intros Hfull Hr Hc. unfold getCell, index.
  destruct (Z.leb_spec (len (cells t)) row); [lia|].
  destruct (Z.ltb_spec row 0); [lia|].
  destruct (lookup_lt_is_Some_2 (cells t) (Z.to_nat row)) as [rw Hrw];
    [unfold len in *; lia|].
  rewrite Hrw. cbn [bind].
  unfold full in Hfull. rewrite Forall_forall in Hfull.
  destruct (Hfull rw (list_elem_of_lookup_2 _ _ _ Hrw)) as [Hlen Hsome].
  destruct (Z.leb_spec (len rw) column); [lia|].
  destruct (Z.ltb_spec column 0); [lia|].
  destruct (lookup_lt_is_Some_2 rw (Z.to_nat column)) as [x Hx];
    [unfold len in *; lia|].
  rewrite Hx. rewrite Forall_forall in Hsome.
  destruct (Hsome x (list_elem_of_lookup_2 _ _ _ Hx)) as [c ->]. eauto.
Qed.

Lemma columnWidth_total t column rs :
  Forall (fun row => 0 <= row < len (cells t)) rs -> 0 <= column ->
  forall m, exists m', columnWidth t column rs m = Ok m'.
Proof.
  intros Hrs Hc. induction Hrs as [|row rs Hrow _ IH]; intros m; cbn [columnWidth].
  - eauto.
  - destruct (getCell_total t row column Hrow Hc) as [c ->]. cbn [bind]. apply IH.
Qed.

Lemma scan_inv_evict t k s :
  0 <= k <= int_max -> scan_inv t k s ->
  0 <= fixedColumns t < len (columns s) ->
  exists x cols ws,
    index (widths s) (fixedColumns t) = Ok x
    /\ remove_at (columns s) (fixedColumns t) = Ok cols
    /\ remove_at (widths s) (fixedColumns t) = Ok ws
    /\ index (columns s) (fixedColumns t)
       = Ok (fixedColumns t + len (evicted s))
    /\ S (length cols) = length (columns s)
    /\ forall tw ltw,
         scan_inv t k
           (mkScan cols ws tw ltw (wrap (skipped s + 1))
              (evicted s ++ [fixedColumns t + len (evicted s)])).
Proof.
  intros Hk Hinv Hf.
  destruct (scan_inv_window t k s (proj1 Hk) Hinv Hf) as [Hlt Hc].
  pose proof (len_nonneg (evicted s)) as Hn.
  destruct (window_evict (fixedColumns t) (len (evicted s)) k (proj1 Hf) Hn Hlt)
    as [Hgone Hrem].
  destruct Hinv as (Hw & Hs & He & _).
  assert (Hwl : 0 <= fixedColumns t < len (widths s)).
  { unfold len in *. rewrite Hw. lia. }
  destruct (lookup_lt_is_Some_2 (widths s) (Z.to_nat (fixedColumns t)))
    as [x Hx]; [unfold len in *; lia|].
  exists x, (window (fixedColumns t) (len (evicted s) + 1) k),
    (take (Z.to_nat (fixedColumns t)) (widths s)
     ++ drop (S (Z.to_nat (fixedColumns t))) (widths s)).
  assert (Hrw : remove_at (widths s) (fixedColumns t)
                = Ok (take (Z.to_nat (fixedColumns t)) (widths s)
                      ++ drop (S (Z.to_nat (fixedColumns t))) (widths s)))
    by (by apply remove_at_Ok).
  assert (Hcl : S (length (window (fixedColumns t) (len (evicted s) + 1) k))
                = length (columns s)).
  { apply remove_at_length with (i := fixedColumns t). by rewrite Hc. }
  split; [apply index_Ok; split; [lia | done]|].
  split; [by rewrite Hc|]. split; [done|]. split; [by rewrite Hc|].
  split; [done|]. intros tw ltw.
  assert (Hev : len (evicted s ++ [fixedColumns t + len (evicted s)])
                = len (evicted s) + 1).
  { unfold len. rewrite length_app. cbn [length]. lia. }
  unfold scan_inv. cbn [columns widths skipped evicted]. rewrite Hev.
  split.
  { apply remove_at_length in Hrw. lia. }
  split.
  { rewrite Hs. apply wrap_id. unfold in_int, int_min, int_max in *. lia. }
  split.
  { rewrite He at 1. by apply seqZ_snoc. }
  right. split; [lia|]. split; [lia | done].
Qed.

Lemma evictLoop_total t w k fuel : forall s,
  0 <= k <= int_max -> 0 <= fixedColumns t -> scan_inv t k s ->
  (length (columns s) <= fuel)%nat ->
  exists fl, evictLoop fuel t w k s = Ok fl.
Proof.
  induction fuel as [|fuel IH]; intros s Hk Hf Hinv Hfuel;
    cbn [evictLoop];
    (destruct (w <=? wrap (tableWidth s - 1)); [|by eauto]);
    repeat match goal with
           | |- context [if ?b then _ else _] =>
               destruct b eqn:?; [by eauto|]
           end; try (by eauto);
    match goal with H : (len (columns s) <=? _) = false |- _ =>
      apply Z.leb_gt in H; rename H into Hlen end.
  - unfold len in Hlen. lia.
  - destruct (scan_inv_evict t k s Hk Hinv (conj Hf Hlen))
      as (x & cols & ws & -> & -> & -> & -> & Hcl & Hnext).
    cbn [bind]. apply IH; [done | done | apply Hnext | cbn [columns]; lia].
Qed.

Lemma scan_inv_accept t k s mw tw ltw :
  0 <= k -> scan_inv t k s ->
  scan_inv t (Z.succ k)
    (mkScan (columns s ++ [k]) (widths s ++ [mw]) tw ltw (skipped s) (evicted s)).
Proof.
  intros Hk (Hw & Hs & He & Hc).
  pose proof (len_nonneg (evicted s)) as Hn.
  unfold scan_inv. cbn [columns widths skipped evicted].
  split; [rewrite !length_app; cbn [length]; lia|].
  split; [done|]. split; [done|].
  destruct Hc as [[He0 Hc]|(H0 & Hle & Hc)].
  - left. split; [done|]. rewrite Hc.
    replace (Z.succ k) with (k + 1) by lia.
    replace k with (0 + k) at 2 by lia. by apply seqZ_snoc.
  - right. split; [done|]. split; [lia|]. rewrite Hc.
    replace (Z.succ k) with (k + 1) by lia. by apply window_snoc.
Qed.

Lemma columnLoop_total t w rs n : forall k s,
  0 <= k -> k + Z.of_nat n <= int_max -> 0 <= fixedColumns t ->
  Forall (fun row => 0 <= row < len (cells t)) rs ->
  scan_inv t k s ->
  exists s', columnLoop t w rs (seqZ k (Z.of_nat n)) s = Ok s'.
Proof.
  induction n as [|n IH]; intros k s Hk Hmax Hf Hrs Hinv.
  - cbn. eauto.
  - rewrite seqZ_cons by lia. cbn [columnLoop].
    replace (Z.pred (Z.of_nat (S n))) with (Z.of_nat n) by lia.
    destruct (evictLoop_total t w k (length (columns s)) s) as [fl Hfl];
      [lia | done | done | lia |].
    destruct (evictLoop_inv t w k (length (columns s)) s) as [_ Hstep];
      [lia | done | lia |].
    specialize (Hstep fl Hfl). rewrite Hfl. cbn [bind].
    destruct fl as [s1|s1]; cbn [flow_scan] in Hstep; [|eauto].
    destruct (columnWidth_total t k rs Hrs Hk (-1)) as [mw ->]. cbn [bind].
    destruct (mw <? 0); [eauto|].
    apply IH; [lia | lia | done | done |]. by apply scan_inv_accept.
Qed.

Lemma scan_inv_columns_range t k s :
  0 <= k -> scan_inv t k s -> Forall (fun c => 0 <= c < k) (columns s).
Proof.
  intros Hk (_ & _ & _ & Hc). pose proof (len_nonneg (evicted s)).
  destruct Hc as [[_ ->]|(H0 & Hle & ->)].
  - apply Forall_seqZ. lia.
  - unfold window. apply Forall_app. split; apply Forall_seqZ; lia.
Qed.

Lemma drawColumn_total t h column rs :
  full t -> Forall (fun row => 0 <= row < len (cells t)) rs ->
  0 <= column <= lastColumn t ->
  forall rowY, drawColumn t h column rowY rs = Ok tt.
Proof.
  intros Hfull Hrs Hc. induction Hrs as [|row rs Hrow _ IH]; intros rowY;
    cbn [drawColumn]; [done|].
  destruct (borders t && (h <=? 2 * rowY + 1)); [done|].
  destruct (getCell_full t row column Hfull Hrow Hc) as [c ->]. cbn [bind].
  apply IH.
Qed.

Lemma drawCells_total t h rs cols :
  full t -> Forall (fun row => 0 <= row < len (cells t)) rs ->
  Forall (fun c => 0 <= c <= lastColumn t) cols ->
  drawCells t h rs cols = Ok tt.
Proof.
  intros Hfull Hrs Hcols. induction Hcols as [|c cols Hc _ IH]; cbn [drawCells];
    [done|].
  rewrite drawColumn_total by done. cbn [bind]. exact IH.
Qed.

Lemma visible_rows_valid t h :
  modest t h -> 0 <= fixedRows t ->
  Forall (fun row => 0 <= row < len (cells t)) (visibleRowList (prepared t h) h).
Proof.
  intros Hm Hf. pose proof Hm as (H1 & H2 & H3 & H4 & H5).
  pose proof (len_nonneg (cells t)) as Hlen.
  rewrite visibleRowList_take by (unfold small, int_max in *; lia).
  apply Forall_take. unfold rowCandidates.
  destruct (prepared_frame t h) as (Hc & Hro & _).
  apply config_fields in Hc as (_ & Hcells & _ & Hfr & _).
  rewrite Hcells, Hfr, Hro.
  assert (Hb : 0 <= rowOffset (clampRowOffset t h)
               <= Z.max 0 (len (cells t) - capacity t h)).
  { apply clampRowOffset_bounds; try done;
      unfold in_int, int_min, int_max, small in *; lia. }
  assert (Hcap : -1152921504606846976 <= capacity t h).
  { unfold capacity. destruct (borders t); unfold small in *;
      Z.to_euclidean_division_equations; lia. }
  rewrite wrap_id by (unfold in_int, int_min, int_max, small in *; lia).
  apply Forall_app. unfold upTo. split; apply Forall_seqZ; intros; lia.
Qed.

Lemma Draw_total t w h :
  full t -> 0 <= fixedRows t -> 0 <= fixedColumns t -> modest t h ->
  lastColumn t < int_max ->
  exists t', Draw t w h = Ok t'.
Proof.
  intros Hfull Hfr Hfc Hm Hl.
  destruct (prepared_frame t h) as (Hc & _).
  apply config_fields in Hc as (_ & Hcells & Hlc & _ & Hfcp & _).
  pose proof (visible_rows_valid t h Hm Hfr) as Hrows.
  assert (Hrows' : Forall (fun row => 0 <= row < len (cells (prepared t h)))
                     (visibleRowList (prepared t h) h)) by (by rewrite Hcells).
  assert (Hscan : exists s k,
    scanColumns (prepared t h) w (visibleRowList (prepared t h) h) = Ok s
    /\ 0 <= k <= Z.max 0 (lastColumn t + 1) /\ scan_inv (prepared t h) k s).
  { destruct (scanColumns_inv (prepared t h) w (visibleRowList (prepared t h) h))
      as [_ Hinv]; [by rewrite Hlc|].
    assert (Hex : exists s, scanColumns (prepared t h) w
                              (visibleRowList (prepared t h) h) = Ok s).
    { unfold scanColumns, upTo. rewrite Hlc.
      replace (lastColumn t + 1 - 0) with (lastColumn t + 1) by lia.
      destruct (Z.le_gt_cases 0 (lastColumn t + 1)) as [Hpos|Hneg].
      - rewrite <- (Z2Nat.id (lastColumn t + 1)) by done.
        apply columnLoop_total;
          [lia | unfold int_max in *; lia | by rewrite Hfcp | done |].
        unfold scan_inv. cbn [columns widths skipped evicted].
        repeat split. left. split; reflexivity.
      - rewrite seqZ_nil by lia. cbn [columnLoop]. eauto. }
    destruct Hex as [s Hs]. destruct (Hinv s Hs) as [k [Hk Hi]].
    rewrite Hlc in Hk. eauto 10. }
  destruct Hscan as (s & k & Hs & Hk & Hi).
  assert (Hv : layout t w h
               = Ok (mkViewport (with_columnOffset (skipped s) (prepared t h))
                       (visibleRowList (prepared t h) h) s)).
  { apply layout_Ok. cbn zeta. eauto. }
  exists (with_columnOffset (skipped s) (prepared t h)).
  unfold Draw. rewrite Hv. cbn [bind vTable vRows vScan].
  rewrite drawCells_total; [reflexivity | | |].
  - unfold full in *. cbn [cells lastColumn with_columnOffset].
    by rewrite Hcells, Hlc.
  - cbn [cells with_columnOffset]. exact Hrows'.
  - cbn [lastColumn with_columnOffset]. rewrite Hlc.
    eapply Forall_impl;
      [apply (scan_inv_columns_range (prepared t h) k s); [lia | done]|].
    cbn beta. intros; lia.
Qed.

(** X15.  A paint never panics on a table whose rows all hold a cell in
    every column up to [lastColumn], with non-negative fixed-row and
    fixed-column counts and numbers far from the ends of [int]. *)
Theorem paint_of_full_table_completes t w h :
  full t -> 0 <= fixedRows t -> 0 <= fixedColumns t -> modest t h ->
  lastColumn t < int_max ->
  exists t', Draw t w h = Ok t' /\ config t' = config t.
Proof.
  intros Hfull Hfr Hfc Hm Hl.
  destruct (Draw_total t w h Hfull Hfr Hfc Hm Hl) as [t' H].
  exists t'. split; [done|].
  destruct (Draw_layout _ _ _ _ H) as [s (_ & _ & ->)].
  destruct (prepared_frame t h) as (Hc & _). rewrite <- Hc. reflexivity.
Qed.

Lemma fullTable_full : full fullTable.
Proof.
  unfold full, fullTable. cbn [cells lastColumn].
  repeat (apply Forall_cons_2;
          [split; [reflexivity | repeat (apply Forall_cons_2; [by eexists|]);
                                 apply Forall_nil_2]|]).
  apply Forall_nil_2.
Qed.

Lemma paint_of_full_table_completes_witness :
  exists t', Draw (SetFixed (SetOffset fullTable 1 2) 1 1) 7 4 = Ok t'
    /\ config t' = config (SetFixed (SetOffset fullTable 1 2) 1 1).
Proof.
  apply (paint_of_full_table_completes
           (SetFixed (SetOffset fullTable 1 2) 1 1) 7 4).
  - exact fullTable_full.
  - vm_compute. discriminate.
  - vm_compute. discriminate.
  - repeat split; vm_compute; discriminate.
  - vm_compute. reflexivity.
Defined.

(** ** Column widths and the requested column offset *)

Lemma getCell_cells t1 t2 row column :
  cells t1 = cells t2 -> getCell t1 row column = getCell t2 row column.
Proof. unfold getCell. by intros ->. Qed.

Lemma columnWidth_cells t1 t2 column rs :
  cells t1 = cells t2 ->
  forall m, columnWidth t1 column rs m = columnWidth t2 column rs m.
Proof.
  intros Hc. induction rs as [|row rs IH]; intros m; cbn [columnWidth]; [done|].
  rewrite (getCell_cells t1 t2 row column Hc).
  destruct (getCell t2 row column); cbn [bind]; [apply IH | done | done].
Qed.

Lemma cellWidth_nonneg c : 0 <= cellWidth c.
Proof.
  unfold cellWidth. cbn zeta.
  destruct (Z.ltb_spec 0 (MaxWidth c)); cbn [andb]; [|lia].
  destruct (Z.ltb_spec (MaxWidth c) (Z.of_nat (String.length (Text c)))); lia.
Qed.

Lemma columnWidth_spec t column rs : forall m m',
  columnWidth t column rs m = Ok m' ->
  m <= m'
  /\ (forall row cell, row ∈ rs -> getCell t row column = Ok (Some cell) ->
        cellWidth cell <= m')
  /\ (m' = m \/ exists row cell, row ∈ rs
        /\ getCell t row column = Ok (Some cell) /\ cellWidth cell = m').
Proof.
  induction rs as [|r rs IH]; intros m m' H; cbn [columnWidth] in H.
  - injection H as <-. split; [lia|]. split; [|by left].
    intros row cell Hin. by apply elem_of_nil in Hin.
  - apply bind_Ok in H as [cell0 [Hg H]].
    destruct (IH _ _ H) as (Hle & Hall & Hex).
    destruct cell0 as [c0|].
    + destruct (Z.ltb_spec m (cellWidth c0)).
      * split; [lia|]. split.
        { intros row cell Hin Hcell. apply elem_of_cons in Hin as [->|Hin].
          - rewrite Hg in Hcell. injection Hcell as <-. lia.
          - by eapply Hall. }
        right. destruct Hex as [->|(row & cell & Hin & Hcell & Hw)].
        { exists r, c0. split; [by left | done]. }
        { exists row, cell. split; [by right | done]. }
      * split; [lia|]. split.
        { intros row cell Hin Hcell. apply elem_of_cons in Hin as [->|Hin].
          - rewrite Hg in Hcell. injection Hcell as <-. lia.
          - by eapply Hall. }
        destruct Hex as [->|(row & cell & Hin & Hcell & Hw)]; [by left|].
        right. exists row, cell. split; [by right | done].
    + split; [lia|]. split.
      { intros row cell Hin Hcell. apply elem_of_cons in Hin as [->|Hin].
        - rewrite Hg in Hcell. discriminate.
        - by eapply Hall. }
      destruct Hex as [->|(row & cell & Hin & Hcell & Hw)]; [by left|].
      right. exists row, cell. split; [by right | done].
Qed.

Lemma Forall2_remove {A B} (P : A -> B -> Prop) l k (i : nat) :
  Forall2 P l k ->
  Forall2 P (take i l ++ drop (S i) l) (take i k ++ drop (S i) k).
Proof.
  intros H. apply Forall2_app; [by apply Forall2_take | by apply Forall2_drop].
Qed.

Lemma evictLoop_widths t w k rs fuel : forall s fl,
  evictLoop fuel t w k s = Ok fl ->
  Forall2 (fun c wd => columnWidth t c rs (-1) = Ok wd /\ 0 <= wd)
    (columns s) (widths s) ->
  Forall2 (fun c wd => columnWidth t c rs (-1) = Ok wd /\ 0 <= wd)
    (columns (flow_scan fl)) (widths (flow_scan fl)).
Proof.
  induction fuel as [|fuel IH]; intros s fl H Hinv; cbn [evictLoop] in H;
    repeat match type of H with
           | (if ?b then _ else _) = _ => destruct b
           end;
    try (by injection H as <-).
  - apply bind_Ok in H as [x [_ H]]. apply bind_Ok in H as [cols [_ H]].
    apply bind_Ok in H as [ws [_ H]]. apply bind_Ok in H as [gone [_ H]].
    discriminate.
  - apply bind_Ok in H as [x [_ H]]. apply bind_Ok in H as [cols [Hc H]].
    apply bind_Ok in H as [ws [Hw H]]. apply bind_Ok in H as [gone [_ H]].
    apply remove_at_Ok in Hc as [_ ->]. apply remove_at_Ok in Hw as [_ ->].
    apply (IH _ _ H). cbn [columns widths]. by apply Forall2_remove.
Qed.

Lemma evictLoop_skipped t w k fuel : forall s fl,
  columnsSelectable t = false -> in_int (columnOffset t) ->
  evictLoop fuel t w k s = Ok fl ->
  0 <= skipped s <= Z.max 0 (columnOffset t) ->
  0 <= skipped (flow_scan fl) <= Z.max 0 (columnOffset t).
Proof.
  intros s fl Hcs Hco. revert s fl.
  induction fuel as [|fuel IH]; intros s fl H Hinv; cbn [evictLoop] in H;
    rewrite Hcs in H; cbn [negb andb] in H;
    destruct (w <=? wrap (tableWidth s - 1)); try (by injection H as <-);
    destruct (k <? fixedColumns t); try (by injection H as <-);
    destruct (Z.leb_spec (columnOffset t) (skipped s));
    try (by injection H as <-);
    destruct (len (columns s) <=? fixedColumns t); try (by injection H as <-).
  - apply bind_Ok in H as [x [_ H]]. apply bind_Ok in H as [cols [_ H]].
    apply bind_Ok in H as [ws [_ H]]. apply bind_Ok in H as [gone [_ H]].
    discriminate.
  - apply bind_Ok in H as [x [_ H]]. apply bind_Ok in H as [cols [_ H]].
    apply bind_Ok in H as [ws [_ H]]. apply bind_Ok in H as [gone [_ H]].
    apply (IH _ _ H). cbn [skipped].
    rewrite wrap_id by (unfold in_int, int_min, int_max in *; lia). lia.
Qed.

Lemma columnLoop_widths_skipped t w rs cands : forall s s',
  columnLoop t w rs cands s = Ok s' ->
  Forall2 (fun c wd => columnWidth t c rs (-1) = Ok wd /\ 0 <= wd)
    (columns s) (widths s) ->
  Forall2 (fun c wd => columnWidth t c rs (-1) = Ok wd /\ 0 <= wd)
    (columns s') (widths s')
  /\ (columnsSelectable t = false -> in_int (columnOffset t) ->
      0 <= skipped s <= Z.max 0 (columnOffset t) ->
      0 <= skipped s' <= Z.max 0 (columnOffset t)).
Proof.
  induction cands as [|k cands IH]; intros s s' H Hinv; cbn [columnLoop] in H.
  - injection H as <-. done.
  - apply bind_Ok in H as [fl [Hfl H]].
    pose proof (evictLoop_widths _ _ _ rs _ _ _ Hfl Hinv) as Hw1.
    assert (Hs1 : columnsSelectable t = false -> in_int (columnOffset t) ->
                  0 <= skipped s <= Z.max 0 (columnOffset t) ->
                  0 <= skipped (flow_scan fl) <= Z.max 0 (columnOffset t)).
    { intros Hcs Hco Hsk. by eapply evictLoop_skipped. }
    destruct fl as [s1|s1]; cbn [flow_scan] in *.
    2:{ injection H as <-. split; [done|]. exact Hs1. }
    apply bind_Ok in H as [mw [Hmw H]].
    destruct (Z.ltb_spec mw 0).
    { injection H as <-. split; [done|]. exact Hs1. }
    destruct (IH _ _ H) as [H1 H2].
    { cbn [columns widths]. apply Forall2_app; [done|].
      constructor; [split; [done | lia] | constructor]. }
    split; [done|]. intros Hcs Hco Hsk. apply H2; try done.
    cbn [skipped]. by apply Hs1.
Qed.

(** X16.  The widths of a paint go with its accepted columns one to one,
    also after evictions; each width is the width of the widest cell the
    visible rows hold in that column, a cell's width being the length of
    its text capped by its maximum width when that is set. *)
Theorem accepted_columns_have_their_widest_cell_width t w h v :
  layout t w h = Ok v ->
  Forall2
    (fun c wd =>
       0 <= wd
       /\ (forall row cell, row ∈ vRows v ->
             getCell t row c = Ok (Some cell) -> cellWidth cell <= wd)
       /\ exists row cell, row ∈ vRows v
            /\ getCell t row c = Ok (Some cell) /\ cellWidth cell = wd)
    (columns (vScan v)) (widths (vScan v)).
Proof.
  intros Hv. apply layout_Ok in Hv as [s [Hs ->]]. cbn [vRows vScan].
  change (clampColumnOffset (clampRowOffset (with_visibleRows (capacity t h) t) h))
    with (prepared t h) in *.
  destruct (prepared_frame t h) as (Hc & _).
  apply config_fields in Hc as (_ & Hcells & _).
  destruct (columnLoop_widths_skipped _ _ _ _ _ _ Hs) as [Hw _];
    [constructor|].
  eapply Forall2_impl; [exact Hw|]. cbn beta. intros c wd [Hcw Hpos].
  rewrite (columnWidth_cells _ t _ _ Hcells) in Hcw.
  destruct (columnWidth_spec _ _ _ _ _ Hcw) as (_ & Hall & Hex).
  split; [done|]. split; [done|].
  destruct Hex as [->|Hex]; [lia | done].
Qed.

Lemma accepted_columns_have_their_widest_cell_width_witness :
  exists v, layout fullTable 20 3 = Ok v
    /\ length (columns (vScan v)) = length (widths (vScan v)).
Proof.
  eexists. split; [vm_compute; reflexivity|].
  pose proof (accepted_columns_have_their_widest_cell_width fullTable 20 3 _
                ltac:(vm_compute; reflexivity)) as H.
  exact (Forall2_length _ _ _ H).
Defined.

Lemma prepared_columnOffset t h :
  columnsSelectable t = false ->
  columnOffset (prepared t h) = Z.max 0 (columnOffset t)
  /\ columnsSelectable (prepared t h) = false.
Proof.
  intros Hcs.
  assert (Hr : columnsSelectable (clampRowOffset (with_visibleRows (capacity t h) t) h)
               = false
               /\ columnOffset (clampRowOffset (with_visibleRows (capacity t h) t) h)
                  = columnOffset t).
  { rewrite clampRowOffset_visibleRows. fields.
    pose proof (clampRowOffset_config t h) as Hc.
    apply config_fields in Hc as (_ & _ & _ & _ & _ & _ & Hcs' & _).
    split; [congruence|].
    unfold clampRowOffset, nonNegativeRowOffset, applyTrackEnd, fitTrackEnd,
      followSelection, selectionBelow, selectionAbove.
    split_ifs; reflexivity. }
  destruct Hr as [Hcs1 Hco1]. unfold prepared, clampColumnOffset. cbn zeta.
  rewrite Hcs1. cbn [andb]. rewrite Hco1.
  destruct (Z.ltb_spec (columnOffset t) 0); fields;
    match goal with
    | |- context [if ?b then _ else _] => destruct b
    end; fields; rewrite ?Hcs1, ?Hco1; (split; [lia | done]).
Qed.

(** X17.  Without column selection a paint never skips more columns than
    the column offset asks for: the column offset it leaves is between 0
    and the requested one (0 if that was negative). *)
Theorem paint_never_skips_more_than_requested t w h v :
  columnsSelectable t = false -> in_int (columnOffset t) ->
  layout t w h = Ok v ->
  0 <= columnOffset (vTable v) <= Z.max 0 (columnOffset t).
Proof.
  intros Hcs Hco Hv. apply layout_Ok in Hv as [s [Hs ->]]. cbn [vTable].
  change (clampColumnOffset (clampRowOffset (with_visibleRows (capacity t h) t) h))
    with (prepared t h) in *.
  destruct (prepared_columnOffset t h Hcs) as [Hpo Hpcs].
  destruct (columnLoop_widths_skipped _ _ _ _ _ _ Hs) as [_ Hsk];
    [constructor|].
  cbn [columnOffset with_columnOffset]. rewrite Hpo in Hsk.
  replace (Z.max 0 (Z.max 0 (columnOffset t))) with (Z.max 0 (columnOffset t))
    in Hsk by lia.
  apply Hsk; [done | | cbn [skipped]; lia].
  unfold in_int, int_min, int_max in *. lia.
Qed.

Lemma paint_never_skips_more_than_requested_witness :
  exists v, layout (SetOffset fullTable 0 1) 3 3 = Ok v
    /\ 0 <= columnOffset (vTable v) <= 1.
Proof.
  eexists. split; [vm_compute; reflexivity|].
  exact (paint_never_skips_more_than_requested (SetOffset fullTable 0 1) 3 3 _
           eq_refl ltac:(split; vm_compute; discriminate)
           ltac:(vm_compute; reflexivity)).
Defined.

(** ** More on moving the selection *)

(** X18.  The selection moves clamp on one side, whatever the selection
    was: with rows selectable Up and PageUp never leave the selected row
    negative and Down and PageDown never leave it past the last row; with
    columns selectable Left never leaves the selected column negative and
    Right never leaves it past [lastColumn].  Home selects row 0 and End
    the last row. *)
Theorem selection_moves_clamp_on_one_side t :
  len (cells t) <= int_max ->
  (rowsSelectable t = true ->
   0 <= selectedRow (up t) /\ 0 <= selectedRow (pageUp t)
   /\ selectedRow (down t) <= len (cells t) - 1
   /\ selectedRow (pageDown t) <= len (cells t) - 1
   /\ selectedRow (home t) = 0
   /\ selectedRow (end_ t) = len (cells t) - 1)
  /\ (columnsSelectable t = true ->
      0 <= selectedColumn (left t)
      /\ selectedColumn (right t) <= lastColumn t).
Proof.
  intros Hl. pose proof (len_nonneg (cells t)) as Hn.
  assert (Hw : wrap (len (cells t) - 1) = len (cells t) - 1)
    by (apply wrap_id; unfold in_int, int_min, int_max in *; lia).
  split.
  - intros Hs. unfold up, pageUp, down, pageDown, home, end_.
    rewrite Hs. cbn zeta. fields. rewrite Hw.
    destruct (Z.ltb_spec (wrap (selectedRow t - 1)) 0);
      destruct (Z.ltb_spec (wrap (selectedRow t - visibleRows t)) 0);
      destruct (Z.leb_spec (len (cells t)) (wrap (selectedRow t + 1)));
      destruct (Z.leb_spec (len (cells t)) (wrap (selectedRow t + visibleRows t)));
      fields; rewrite ?Hw; repeat split; lia.
  - intros Hs. unfold left, right. rewrite Hs. cbn zeta. fields.
    destruct (Z.ltb_spec (wrap (selectedColumn t - 1)) 0);
      destruct (Z.ltb_spec (lastColumn t) (wrap (selectedColumn t + 1)));
      fields; split; lia.
Qed.

Lemma selection_moves_clamp_on_one_side_witness :
  selectedRow (up (SetSelected (SetSelectable fullTable true false) (-7) 0)) = 0
  /\ selectedRow (down (SetSelected (SetSelectable fullTable true false) 40 0))
     <= 4.
Proof.
  destruct (selection_moves_clamp_on_one_side
              (SetSelected (SetSelectable fullTable true false) 40 0)
              ltac:(vm_compute; discriminate)) as [H _].
  split; [reflexivity|]. apply (H eq_refl).
Defined.

(** ** Clearing *)

(** [SetCell] reads and writes the grid and [lastColumn] only. *)
Lemma SetCell_same_grid t1 t2 row column cell :
  cells t1 = cells t2 -> lastColumn t1 = lastColumn t2 ->
  same_grid (SetCell t1 row column cell) (SetCell t2 row column cell).
Proof.
  intros Hc Hl. unfold SetCell. rewrite Hc, Hl.
  repeat match goal with
         | |- same_grid (bind ?r _) (bind ?r _) =>
             destruct r; cbn [bind]; [|exact I|exact I]
         end.
  cbn [same_grid cells lastColumn with_lastColumn with_cells]. done.
Qed.

Lemma life_same_grid acts : forall t1 t2,
  Forall gridAction acts ->
  cells t1 = cells t2 -> lastColumn t1 = lastColumn t2 ->
  same_grid (life acts t1) (life acts t2).
Proof.
  induction acts as [|a acts IH]; intros t1 t2 Hall Hc Hl.
  - cbn [life same_grid]. done.
  - apply Forall_cons in Hall as [Ha Hall].
    destruct a; try done; cbn [life perform].
    + pose proof (SetCell_same_grid t1 t2 row column cell Hc Hl) as Hs.
      destruct (SetCell t1 row column cell) as [a1| |],
               (SetCell t2 row column cell) as [a2| |];
        cbn [same_grid] in Hs; try done; cbn [bind].
      destruct Hs. by apply IH.
    + cbn [bind]. by apply IH.
Qed.

(** X19.  A clear forgets the grid altogether: the same writes and clears
    after [Clear] on any table and on a new table end alike, either both
    panicking or both returning, with the same grid and the same
    [lastColumn]. *)
Theorem clear_starts_the_grid_afresh acts t :
  Forall gridAction acts ->
  same_grid (life acts (Clear t)) (life acts NewTable).
Proof.
  intros Hall. by apply life_same_grid.
Qed.

Lemma clear_starts_the_grid_afresh_witness :
  same_grid (life [ASetCell 1 0 None; ASetCell 0 (-1) None] (Clear fullTable))
    (life [ASetCell 1 0 None; ASetCell 0 (-1) None] NewTable)
  /\ same_grid (life [ASetCell 1 2 None] (Clear fullTable))
       (life [ASetCell 1 2 None] NewTable).
Proof.
  split; apply clear_starts_the_grid_afresh;
    repeat (apply Forall_cons_2; [exact I|]); apply Forall_nil_2.
Defined.

(** ** Painting twice *)

(** X20.  Without row selection a second paint of the same viewport leaves
    the row offset where the first one put it. *)
Theorem second_paint_keeps_row_offset t w h t1 t2 :
  rowsSelectable t = false ->
  small (len (cells t)) -> small (rowOffset t) -> small h -> 0 <= h ->
  Draw t w h = Ok t1 -> Draw t1 w h = Ok t2 ->
  rowOffset t2 = rowOffset t1.
Proof.
  intros Hs H1 H4 H5 H0 Hd1 Hd2.
  pose proof (len_nonneg (cells t)) as Hlen.
  assert (Hq : 2 * (h `quot` 2) <= h + 1 /\ h - 1 <= 2 * (h `quot` 2)
               /\ 0 <= h `quot` 2)
    by (Z.to_euclidean_division_equations; lia).
  destruct (Draw_rows _ _ _ _ Hd1) as (Hr1 & Ht1 & _).
  destruct (Draw_rows _ _ _ _ Hd2) as (Hr2 & _).
  destruct (Draw_layout _ _ _ _ Hd1) as [s (_ & _ & E1)].
  destruct (prepared_frame t h) as (Hc & _).
  apply config_fields in Hc as (Hb & Hcells & _ & _ & _ & Hrs & _).
  assert (Hb1 : borders t1 = borders t) by (rewrite E1; exact Hb).
  assert (Hc1 : cells t1 = cells t) by (rewrite E1; exact Hcells).
  assert (Hs1 : rowsSelectable t1 = false) by (rewrite E1; fields; congruence).
  destruct (clampRowOffset_unselectable t h Hs H1 H4 H5) as [Ea Eb].
  rewrite Ea in Hr1. rewrite Eb in Ht1.
  assert (Hcap : capacity t1 h = capacity t h)
    by (unfold capacity; by rewrite Hb1).
  assert (Hsm : small (rowOffset t1)).
  { rewrite Hr1. unfold capacity, small in *.
    destruct (trackEnd t), (borders t); lia. }
  destruct (clampRowOffset_unselectable t1 h Hs1) as [Ea2 _];
    [by rewrite Hc1 | done | done |].
  rewrite Hr2, Ea2, Hc1, Hcap, Ht1.
  destruct (trackEnd t); cbn [orb].
  - rewrite Hr1. reflexivity.
  - unfold fits. unfold capacity in *.
    destruct (borders t).
    + destruct (Z.ltb_spec (2 * (len (cells t) - rowOffset t)) h); lia.
    + destruct (Z.ltb_spec (len (cells t) - rowOffset t) h); lia.
Qed.

Lemma second_paint_keeps_row_offset_witness :
  exists t1 t2,
    Draw (SetOffset (with_trackEnd false fullTable) (-2) 0) 20 3 = Ok t1
    /\ Draw t1 20 3 = Ok t2 /\ rowOffset t2 = rowOffset t1.
Proof.
  eexists _, _. split; [vm_compute; reflexivity|].
  split; [vm_compute; reflexivity|].
  apply (second_paint_keeps_row_offset
           (SetOffset (with_trackEnd false fullTable) (-2) 0) 20 3).
  - reflexivity.
  - split; vm_compute; discriminate.
  - split; vm_compute; discriminate.
  - split; vm_compute; discriminate.
  - lia.
  - vm_compute. reflexivity.
  - vm_compute. reflexivity.
Defined.

(** ** Page keys before the first paint *)

Lemma InputHandler_visibleRows t ev :
  visibleRows (fst (InputHandler t ev)) = visibleRows t.
Proof.
  unfold InputHandler, home, end_, down, up, left, right, pageDown, pageUp.
  cbn zeta. destruct (evKey ev), (done t), (selected t); split_ifs; reflexivity.
Qed.

Lemma SetCell_visibleRows t row column cell t' :
  SetCell t row column cell = Ok t' -> visibleRows t' = visibleRows t.
Proof.
  unfold SetCell. intros Hb.
  apply bind_Ok in Hb as [cs1 [_ Hb]].
  apply bind_Ok in Hb as [rw [_ Hb]].
  apply bind_Ok in Hb as [r1 [_ Hb]].
  apply bind_Ok in Hb as [r2 [_ Hb]].
  apply bind_Ok in Hb as [cs2 [_ [= <-]]]. reflexivity.
Qed.

Lemma life_visibleRows acts : forall t t',
  Forall notDraw acts -> life acts t = Ok t' -> visibleRows t' = visibleRows t.
Proof.
  induction acts as [|a acts IH]; intros t t' Hall Hl.
  - by injection Hl as <-.
  - apply Forall_cons in Hall as [Ha Hall].
    cbn [life] in Hl. apply bind_Ok in Hl as [t1 [Hp Hl]].
    rewrite (IH _ _ Hall Hl).
    destruct a; cbn [perform] in Hp; try (by injection Hp as <-); try done.
    + by eapply SetCell_visibleRows.
    + injection Hp as <-. apply InputHandler_visibleRows.
Qed.

Lemma with_selectedRow_same t : with_selectedRow (selectedRow t) t = t.
Proof. by destruct t. Qed.

Lemma with_rowOffset_same t : with_rowOffset (rowOffset t) t = t.
Proof. by destruct t. Qed.

(** X21.  Until a table has been painted its recorded visible-row count is
    0, so the page keys move nothing.  With rows selectable and the
    selected row on the grid PageDown and PageUp leave the table as it is;
    without row selection PageDown leaves the table as it is and PageUp
    changes one thing only: it turns track-end off. *)
Theorem page_keys_before_first_paint acts t :
  Forall notDraw acts -> life acts NewTable = Ok t ->
  visibleRows t = 0
  /\ (rowsSelectable t = true -> 0 <= selectedRow t < len (cells t) ->
      pageDown t = t /\ pageUp t = t)
  /\ (rowsSelectable t = false -> in_int (rowOffset t) ->
      pageDown t = t /\ pageUp t = with_trackEnd false t).
Proof.
  intros Hall Hl.
  assert (Hv : visibleRows t = 0) by (by rewrite (life_visibleRows _ _ _ Hall Hl)).
  destruct (life_reads acts NewTable t 0 0 store_ok_NewTable Hl) as [[Hlen _] _];
    [lia | lia |].
  split; [done|]. split.
  - intros Hs Hr. unfold pageDown, pageUp. rewrite Hs, Hv. cbn zeta. fields.
    rewrite Z.add_0_r, Z.sub_0_r.
    rewrite wrap_id by (unfold in_int, int_min, int_max in *; lia).
    destruct (Z.leb_spec (len (cells t)) (selectedRow t)); [lia|].
    destruct (Z.ltb_spec (selectedRow t) 0); [lia|].
    by rewrite with_selectedRow_same.
  - intros Hs Hr. unfold pageDown, pageUp. rewrite Hs, Hv.
    rewrite Z.add_0_r, Z.sub_0_r, wrap_id by done.
    split; [apply with_rowOffset_same|]. by destruct t.
Qed.

Lemma page_keys_before_first_paint_witness :
  exists t,
    life (ASetSelectable true false :: grid5x3 ++ [AInput (mkEvent KeyDown 0)])
      NewTable = Ok t
    /\ selectedRow (pageDown t) = 1.
Proof.
  eexists. split; [vm_compute; reflexivity|].
  destruct (page_keys_before_first_paint
              (ASetSelectable true false :: grid5x3 ++ [AInput (mkEvent KeyDown 0)])
              _ ltac:(repeat (apply Forall_cons_2; [exact I|]); apply Forall_nil_2)
              ltac:(vm_compute; reflexivity)) as (_ & H & _).
  destruct (H eq_refl ltac:(split; vm_compute; [discriminate | reflexivity]))
    as [H1 _].
  rewrite H1. reflexivity.
Defined.

(** ** Scrolling down to the selected row *)

Lemma paintedRows_take t h : forall rs y,
  0 <= y ->
  paintedRows t h y rs
  = if borders t then take (Z.to_nat (h `quot` 2 - y)) rs else rs.
Proof.
  induction rs as [|row rs IH]; intros y Hy; cbn [paintedRows].
  - destruct (borders t); [by rewrite take_nil | done].
  - rewrite IH by lia. destruct (borders t); cbn [andb]; [|done].
    destruct (Z.leb_spec h (2 * y + 1)).
    + replace (Z.to_nat (h `quot` 2 - y)) with 0%nat
        by (Z.to_euclidean_division_equations; lia).
      reflexivity.
    + replace (Z.to_nat (h `quot` 2 - y))
        with (S (Z.to_nat (h `quot` 2 - (y + 1))))
        by (Z.to_euclidean_division_equations; lia).
      reflexivity.
Qed.

(** The rows a paint paints are the first [capacity] of the rows it
    considers. *)
Lemma painted_rows_of_paint t w h t' :
  h <= int_max - 2 -> 0 <= h -> Draw t w h = Ok t' ->
  exists v, layout t w h = Ok v /\ vTable v = t'
    /\ paintedRows t' h 0 (vRows v)
       = take (Z.to_nat (capacity t h)) (rowCandidates t').
Proof.
  intros Hh H0 H. destruct (Draw_layout _ _ _ _ H) as [s (_ & Hv & Ht)].
  eexists. split; [exact Hv|]. split; [reflexivity|]. cbn [vRows].
  destruct (prepared_frame t h) as (Hc & _).
  apply config_fields in Hc as (Hb & _).
  assert (Hb' : borders t' = borders t) by (rewrite Ht; exact Hb).
  assert (Hcand : rowCandidates t' = rowCandidates (prepared t h))
    by (rewrite Ht; reflexivity).
  rewrite paintedRows_take, Hb', Hcand, visibleRowList_take by (done || lia).
  unfold lineCount, capacity. rewrite Hb. destruct (borders t).
  - rewrite Z.sub_0_r, take_take. f_equal.
    Z.to_euclidean_division_equations; lia.
  - reflexivity.
Qed.



